(** * python_env_setup.py: a shallow embedding and its properties

    The script is an interactive helper around [pyenv].  Everything it does
    is an exchange with its host: it reads lines from the terminal, prints,
    inspects files, starts child processes and edits one dict of environment
    variables.  The embedding below makes that host explicit as a [world]
    value that is threaded through a small state-and-exception monad.

    A Python [str] is modelled as the [string] of its UTF-8 bytes.
    Comparison, concatenation and the substring tests work on the bytes,
    which is what they do on the characters of well-formed text; the
    methods that look at characters ([lower], [strip], [splitlines],
    [isdigit], [int], [re.fullmatch]) work on the code points the bytes
    decode to.  The character tables are those of Unicode 14.0, the
    database of CPython 3.11, whose limit on the length of a numeral
    that [int] reads is modelled too. *)

From Stdlib Require Import ZArith NArith Ascii DecimalString DecimalN.
From stdpp Require Import base gmap list strings.

Local Open Scope Z_scope.

(* ===================================================================== *)
(** * Text: the [str] methods the script uses                            *)
(* ===================================================================== *)

Module Text.

Definition code (c : ascii) : N := N_of_ascii c.

Definition between (lo hi : N) (c : ascii) : bool :=
  ((lo <=? code c) && (code c <=? hi))%N.

Definition within (lo hi c : N) : bool :=
  ((lo <=? c) && (c <=? hi))%N.

Definition nl : ascii := ascii_of_N 10.
Definition cr : ascii := ascii_of_N 13.
Definition dquote : ascii := ascii_of_N 34.

Definition char (c : ascii) : string := String c EmptyString.

Definition is_empty (s : string) : bool :=
  match s with EmptyString => true | String _ _ => false end.

Fixpoint concat_bytes (l : list string) : string :=
  match l with
  | [] => EmptyString
  | x :: r => x +:+ concat_bytes r
  end.

(** ** Code points

    [chunks s] is the text [s] character by character: each code point
    with the bytes that stand for it.  A well-formed UTF-8 sequence
    (shortest form, no surrogate, at most U+10FFFF) is one character.  A
    byte that begins no well-formed sequence is a character of its own,
    the lone surrogate U+DC80..U+DCFF that Python's [surrogateescape]
    handler makes of it. *)

Definition is_cont (c : ascii) : bool := between 128 191 c.

Definition tail6 (c : ascii) : N := (code c - 128)%N.

Definition two (b c1 : ascii) : option N :=
  if between 194 223 b && is_cont c1
  then Some ((code b - 192) * 64 + tail6 c1)%N
  else None.

Definition three (b c1 c2 : ascii) : option N :=
  let cp := ((code b - 224) * 4096 + tail6 c1 * 64 + tail6 c2)%N in
  if between 224 239 b && is_cont c1 && is_cont c2
     && (2048 <=? cp)%N && negb (within 55296 57343 cp)
  then Some cp
  else None.

Definition four (b c1 c2 c3 : ascii) : option N :=
  let cp := ((code b - 240) * 262144 + tail6 c1 * 4096
             + tail6 c2 * 64 + tail6 c3)%N in
  if between 240 244 b && is_cont c1 && is_cont c2 && is_cont c3
     && within 65536 1114111 cp
  then Some cp
  else None.

Definition escaped (b : ascii) : N := (56320 + code b)%N.

Fixpoint chunks (s : string) : list (N * string) :=
  match s with
  | EmptyString => []
  | String b s1 =>
      if (code b <? 128)%N then (code b, char b) :: chunks s1
      else
        let bad := (escaped b, char b) :: chunks s1 in
        match s1 with
        | EmptyString => bad
        | String c1 s2 =>
            match two b c1 with
            | Some cp => (cp, String b (char c1)) :: chunks s2
            | None =>
                match s2 with
                | EmptyString => bad
                | String c2 s3 =>
                    match three b c1 c2 with
                    | Some cp =>
                        (cp, String b (String c1 (char c2))) :: chunks s3
                    | None =>
                        match s3 with
                        | EmptyString => bad
                        | String c3 s4 =>
                            match four b c1 c2 c3 with
                            | Some cp =>
                                (cp, String b (String c1 (String c2 (char c3))))
                                  :: chunks s4
                            | None => bad
                            end
                        end
                    end
                end
            end
        end
  end.

(** The code points of a text. *)
Definition decode (s : string) : list N := fst <$> chunks s.

(** The UTF-8 bytes of a code point that is not a surrogate. *)
Definition encode_cp (c : N) : string :=
  (if c <? 128 then char (ascii_of_N c)
   else if c <? 2048 then
     String (ascii_of_N (192 + c / 64)) (char (ascii_of_N (128 + c mod 64)))
   else if c <? 65536 then
     String (ascii_of_N (224 + c / 4096))
       (String (ascii_of_N (128 + (c / 64) mod 64))
          (char (ascii_of_N (128 + c mod 64))))
   else
     String (ascii_of_N (240 + c / 262144))
       (String (ascii_of_N (128 + (c / 4096) mod 64))
          (String (ascii_of_N (128 + (c / 64) mod 64))
             (char (ascii_of_N (128 + c mod 64))))))%N.

Definition in_ranges (c : N) (rs : list (N * N)) : bool :=
  existsb (fun r => within (fst r) (snd r) c) rs.

(** ** Letter case *)

(** The code points with a one-to-one lowercase form other than
    themselves, outside ASCII: in a run [(lo, hi, step, target)] every
    [step]-th code point from [lo] to [hi] has the lowercase form at the
    same distance from [target]. *)
Definition lower_runs : list (N * N * N * N) :=
  [(192, 214, 1, 224); (216, 222, 1, 248); (256, 302, 2, 257);
   (306, 310, 2, 307); (313, 327, 2, 314); (330, 374, 2, 331);
   (376, 376, 1, 255); (377, 381, 2, 378); (385, 385, 1, 595);
   (386, 388, 2, 387); (390, 390, 1, 596); (391, 391, 1, 392);
   (393, 394, 1, 598); (395, 395, 1, 396); (398, 398, 1, 477);
   (399, 399, 1, 601); (400, 400, 1, 603); (401, 401, 1, 402);
   (403, 403, 1, 608); (404, 404, 1, 611); (406, 406, 1, 617);
   (407, 407, 1, 616); (408, 408, 1, 409); (412, 412, 1, 623);
   (413, 413, 1, 626); (415, 415, 1, 629); (416, 420, 2, 417);
   (422, 422, 1, 640); (423, 423, 1, 424); (425, 425, 1, 643);
   (428, 428, 1, 429); (430, 430, 1, 648); (431, 431, 1, 432);
   (433, 434, 1, 650); (435, 437, 2, 436); (439, 439, 1, 658);
   (440, 440, 1, 441); (444, 444, 1, 445); (452, 452, 1, 454);
   (453, 453, 1, 454); (455, 455, 1, 457); (456, 456, 1, 457);
   (458, 458, 1, 460); (459, 475, 2, 460); (478, 494, 2, 479);
   (497, 497, 1, 499); (498, 500, 2, 499); (502, 502, 1, 405);
   (503, 503, 1, 447); (504, 542, 2, 505); (544, 544, 1, 414);
   (546, 562, 2, 547); (570, 570, 1, 11365); (571, 571, 1, 572);
   (573, 573, 1, 410); (574, 574, 1, 11366); (577, 577, 1, 578);
   (579, 579, 1, 384); (580, 580, 1, 649); (581, 581, 1, 652);
   (582, 590, 2, 583); (880, 882, 2, 881); (886, 886, 1, 887);
   (895, 895, 1, 1011); (902, 902, 1, 940); (904, 906, 1, 941);
   (908, 908, 1, 972); (910, 911, 1, 973); (913, 929, 1, 945);
   (931, 939, 1, 963); (975, 975, 1, 983); (984, 1006, 2, 985);
   (1012, 1012, 1, 952); (1015, 1015, 1, 1016); (1017, 1017, 1, 1010);
   (1018, 1018, 1, 1019); (1021, 1023, 1, 891); (1024, 1039, 1, 1104);
   (1040, 1071, 1, 1072); (1120, 1152, 2, 1121); (1162, 1214, 2, 1163);
   (1216, 1216, 1, 1231); (1217, 1229, 2, 1218); (1232, 1326, 2, 1233);
   (1329, 1366, 1, 1377); (4256, 4293, 1, 11520); (4295, 4295, 1, 11559);
   (4301, 4301, 1, 11565); (5024, 5103, 1, 43888); (5104, 5109, 1, 5112);
   (7312, 7354, 1, 4304); (7357, 7359, 1, 4349); (7680, 7828, 2, 7681);
   (7838, 7838, 1, 223); (7840, 7934, 2, 7841); (7944, 7951, 1, 7936);
   (7960, 7965, 1, 7952); (7976, 7983, 1, 7968); (7992, 7999, 1, 7984);
   (8008, 8013, 1, 8000); (8025, 8031, 2, 8017); (8040, 8047, 1, 8032);
   (8072, 8079, 1, 8064); (8088, 8095, 1, 8080); (8104, 8111, 1, 8096);
   (8120, 8121, 1, 8112); (8122, 8123, 1, 8048); (8124, 8124, 1, 8115);
   (8136, 8139, 1, 8050); (8140, 8140, 1, 8131); (8152, 8153, 1, 8144);
   (8154, 8155, 1, 8054); (8168, 8169, 1, 8160); (8170, 8171, 1, 8058);
   (8172, 8172, 1, 8165); (8184, 8185, 1, 8056); (8186, 8187, 1, 8060);
   (8188, 8188, 1, 8179); (8486, 8486, 1, 969); (8491, 8491, 1, 229);
   (8498, 8498, 1, 8526); (8544, 8559, 1, 8560); (8579, 8579, 1, 8580);
   (9398, 9423, 1, 9424); (11264, 11311, 1, 11312); (11360, 11360, 1, 11361);
   (11362, 11362, 1, 619); (11363, 11363, 1, 7549); (11364, 11364, 1, 637);
   (11367, 11371, 2, 11368); (11373, 11373, 1, 593); (11374, 11374, 1, 625);
   (11375, 11375, 1, 592); (11376, 11376, 1, 594); (11378, 11378, 1, 11379);
   (11381, 11381, 1, 11382); (11390, 11391, 1, 575); (11392, 11490, 2, 11393);
   (11499, 11501, 2, 11500); (11506, 11506, 1, 11507); (42560, 42604, 2, 42561);
   (42624, 42650, 2, 42625); (42786, 42798, 2, 42787); (42802, 42862, 2, 42803);
   (42873, 42875, 2, 42874); (42877, 42877, 1, 7545); (42878, 42886, 2, 42879);
   (42891, 42891, 1, 42892); (42893, 42893, 1, 613); (42896, 42898, 2, 42897);
   (42902, 42920, 2, 42903); (42922, 42922, 1, 614); (42923, 42923, 1, 604);
   (42924, 42924, 1, 609); (42925, 42925, 1, 620); (42926, 42926, 1, 618);
   (42928, 42928, 1, 670); (42929, 42929, 1, 647); (42930, 42930, 1, 669);
   (42931, 42931, 1, 43859); (42932, 42946, 2, 42933); (42948, 42948, 1, 42900);
   (42949, 42949, 1, 642); (42950, 42950, 1, 7566); (42951, 42953, 2, 42952);
   (42960, 42960, 1, 42961); (42966, 42968, 2, 42967); (42997, 42997, 1, 42998);
   (65313, 65338, 1, 65345); (66560, 66599, 1, 66600); (66736, 66771, 1, 66776);
   (66928, 66938, 1, 66967); (66940, 66954, 1, 66979); (66956, 66962, 1, 66995);
   (66964, 66965, 1, 67003); (68736, 68786, 1, 68800); (71840, 71871, 1, 71872);
   (93760, 93791, 1, 93792); (125184, 125217, 1, 125218)]%N.

Fixpoint lower_target (c : N) (runs : list (N * N * N * N)) : option N :=
  match runs with
  | [] => None
  | (lo, hi, step, target) :: rest =>
      if within lo hi c && ((c - lo) mod step =? 0)%N
      then Some (target + (c - lo))%N
      else lower_target c rest
  end.

(** The lowercase form of one character by itself.  Two characters
    outside ASCII have a lowercase form with an ASCII letter in it: the
    capital I with dot above (U+0130) becomes i followed by a combining
    dot, the Kelvin sign (U+212A) becomes k. *)
Definition lower_chunk (ch : N * string) : string :=
  let (c, bytes) := ch in
  (if c <? 128 then
     char (ascii_of_N (if within 65 90 c then c + 32 else c))
   else if c =? 304 then encode_cp 105 +:+ encode_cp 775
   else if c =? 8490 then encode_cp 107
   else match lower_target c lower_runs with
        | Some t => encode_cp t
        | None => bytes
        end)%N.

(** The lower-case form of an ASCII byte. *)
Definition low (b : ascii) : ascii :=
  ascii_of_N (if within 65 90 (code b) then code b + 32 else code b)%N.

(** The characters that a word may hold without their counting as letters
    (property Case_Ignorable): marks, modifiers, format characters and
    the punctuation inside words. *)
Definition case_ignorable_ranges : list (N * N) :=
  [(39, 39); (46, 46); (58, 58); (94, 94); (96, 96); (168, 168); (173, 173);
   (175, 175); (180, 180); (183, 184); (688, 879); (884, 885); (890, 890);
   (900, 901); (903, 903); (1155, 1161); (1369, 1369); (1375, 1375);
   (1425, 1469); (1471, 1471); (1473, 1474); (1476, 1477); (1479, 1479);
   (1524, 1524); (1536, 1541); (1552, 1562); (1564, 1564); (1600, 1600);
   (1611, 1631); (1648, 1648); (1750, 1757); (1759, 1768); (1770, 1773);
   (1807, 1807); (1809, 1809); (1840, 1866); (1958, 1968); (2027, 2037);
   (2042, 2042); (2045, 2045); (2070, 2093); (2137, 2139); (2184, 2184);
   (2192, 2193); (2200, 2207); (2249, 2306); (2362, 2362); (2364, 2364);
   (2369, 2376); (2381, 2381); (2385, 2391); (2402, 2403); (2417, 2417);
   (2433, 2433); (2492, 2492); (2497, 2500); (2509, 2509); (2530, 2531);
   (2558, 2558); (2561, 2562); (2620, 2620); (2625, 2626); (2631, 2632);
   (2635, 2637); (2641, 2641); (2672, 2673); (2677, 2677); (2689, 2690);
   (2748, 2748); (2753, 2757); (2759, 2760); (2765, 2765); (2786, 2787);
   (2810, 2815); (2817, 2817); (2876, 2876); (2879, 2879); (2881, 2884);
   (2893, 2893); (2901, 2902); (2914, 2915); (2946, 2946); (3008, 3008);
   (3021, 3021); (3072, 3072); (3076, 3076); (3132, 3132); (3134, 3136);
   (3142, 3144); (3146, 3149); (3157, 3158); (3170, 3171); (3201, 3201);
   (3260, 3260); (3263, 3263); (3270, 3270); (3276, 3277); (3298, 3299);
   (3328, 3329); (3387, 3388); (3393, 3396); (3405, 3405); (3426, 3427);
   (3457, 3457); (3530, 3530); (3538, 3540); (3542, 3542); (3633, 3633);
   (3636, 3642); (3654, 3662); (3761, 3761); (3764, 3772); (3782, 3782);
   (3784, 3789); (3864, 3865); (3893, 3893); (3895, 3895); (3897, 3897);
   (3953, 3966); (3968, 3972); (3974, 3975); (3981, 3991); (3993, 4028);
   (4038, 4038); (4141, 4144); (4146, 4151); (4153, 4154); (4157, 4158);
   (4184, 4185); (4190, 4192); (4209, 4212); (4226, 4226); (4229, 4230);
   (4237, 4237); (4253, 4253); (4348, 4348); (4957, 4959); (5906, 5908);
   (5938, 5939); (5970, 5971); (6002, 6003); (6068, 6069); (6071, 6077);
   (6086, 6086); (6089, 6099); (6103, 6103); (6109, 6109); (6155, 6159);
   (6211, 6211); (6277, 6278); (6313, 6313); (6432, 6434); (6439, 6440);
   (6450, 6450); (6457, 6459); (6679, 6680); (6683, 6683); (6742, 6742);
   (6744, 6750); (6752, 6752); (6754, 6754); (6757, 6764); (6771, 6780);
   (6783, 6783); (6823, 6823); (6832, 6862); (6912, 6915); (6964, 6964);
   (6966, 6970); (6972, 6972); (6978, 6978); (7019, 7027); (7040, 7041);
   (7074, 7077); (7080, 7081); (7083, 7085); (7142, 7142); (7144, 7145);
   (7149, 7149); (7151, 7153); (7212, 7219); (7222, 7223); (7288, 7293);
   (7376, 7378); (7380, 7392); (7394, 7400); (7405, 7405); (7412, 7412);
   (7416, 7417); (7468, 7530); (7544, 7544); (7579, 7679); (8125, 8125);
   (8127, 8129); (8141, 8143); (8157, 8159); (8173, 8175); (8189, 8190);
   (8203, 8207); (8216, 8217); (8228, 8228); (8231, 8231); (8234, 8238);
   (8288, 8292); (8294, 8303); (8305, 8305); (8319, 8319); (8336, 8348);
   (8400, 8432); (11388, 11389); (11503, 11505); (11631, 11631);
   (11647, 11647); (11744, 11775); (11823, 11823); (12293, 12293);
   (12330, 12333); (12337, 12341); (12347, 12347); (12441, 12446);
   (12540, 12542); (40981, 40981); (42232, 42237); (42508, 42508);
   (42607, 42610); (42612, 42621); (42623, 42623); (42652, 42655);
   (42736, 42737); (42752, 42785); (42864, 42864); (42888, 42890);
   (42994, 42996); (43000, 43001); (43010, 43010); (43014, 43014);
   (43019, 43019); (43045, 43046); (43052, 43052); (43204, 43205);
   (43232, 43249); (43263, 43263); (43302, 43309); (43335, 43345);
   (43392, 43394); (43443, 43443); (43446, 43449); (43452, 43453);
   (43471, 43471); (43493, 43494); (43561, 43566); (43569, 43570);
   (43573, 43574); (43587, 43587); (43596, 43596); (43632, 43632);
   (43644, 43644); (43696, 43696); (43698, 43700); (43703, 43704);
   (43710, 43711); (43713, 43713); (43741, 43741); (43756, 43757);
   (43763, 43764); (43766, 43766); (43867, 43871); (43881, 43883);
   (44005, 44005); (44008, 44008); (44013, 44013); (64286, 64286);
   (64434, 64450); (65024, 65039); (65043, 65043); (65056, 65071);
   (65106, 65106); (65109, 65109); (65279, 65279); (65287, 65287);
   (65294, 65294); (65306, 65306); (65342, 65342); (65344, 65344);
   (65392, 65392); (65438, 65439); (65507, 65507); (65529, 65531);
   (66045, 66045); (66272, 66272); (66422, 66426); (67456, 67461);
   (67463, 67504); (67506, 67514); (68097, 68099); (68101, 68102);
   (68108, 68111); (68152, 68154); (68159, 68159); (68325, 68326);
   (68900, 68903); (69291, 69292); (69446, 69456); (69506, 69509);
   (69633, 69633); (69688, 69702); (69744, 69744); (69747, 69748);
   (69759, 69761); (69811, 69814); (69817, 69818); (69821, 69821);
   (69826, 69826); (69837, 69837); (69888, 69890); (69927, 69931);
   (69933, 69940); (70003, 70003); (70016, 70017); (70070, 70078);
   (70089, 70092); (70095, 70095); (70191, 70193); (70196, 70196);
   (70198, 70199); (70206, 70206); (70367, 70367); (70371, 70378);
   (70400, 70401); (70459, 70460); (70464, 70464); (70502, 70508);
   (70512, 70516); (70712, 70719); (70722, 70724); (70726, 70726);
   (70750, 70750); (70835, 70840); (70842, 70842); (70847, 70848);
   (70850, 70851); (71090, 71093); (71100, 71101); (71103, 71104);
   (71132, 71133); (71219, 71226); (71229, 71229); (71231, 71232);
   (71339, 71339); (71341, 71341); (71344, 71349); (71351, 71351);
   (71453, 71455); (71458, 71461); (71463, 71467); (71727, 71735);
   (71737, 71738); (71995, 71996); (71998, 71998); (72003, 72003);
   (72148, 72151); (72154, 72155); (72160, 72160); (72193, 72202);
   (72243, 72248); (72251, 72254); (72263, 72263); (72273, 72278);
   (72281, 72283); (72330, 72342); (72344, 72345); (72752, 72758);
   (72760, 72765); (72767, 72767); (72850, 72871); (72874, 72880);
   (72882, 72883); (72885, 72886); (73009, 73014); (73018, 73018);
   (73020, 73021); (73023, 73029); (73031, 73031); (73104, 73105);
   (73109, 73109); (73111, 73111); (73459, 73460); (78896, 78904);
   (92912, 92916); (92976, 92982); (92992, 92995); (94031, 94031);
   (94095, 94111); (94176, 94177); (94179, 94180); (110576, 110579);
   (110581, 110587); (110589, 110590); (113821, 113822); (113824, 113827);
   (118528, 118573); (118576, 118598); (119143, 119145); (119155, 119170);
   (119173, 119179); (119210, 119213); (119362, 119364); (121344, 121398);
   (121403, 121452); (121461, 121461); (121476, 121476); (121499, 121503);
   (121505, 121519); (122880, 122886); (122888, 122904); (122907, 122913);
   (122915, 122916); (122918, 122922); (123184, 123197); (123566, 123566);
   (123628, 123631); (125136, 125142); (125252, 125259); (127995, 127999);
   (917505, 917505); (917536, 917631); (917760, 917999)]%N.

(** The letters with a letter case (property Cased) that are not
    case-ignorable. *)
Definition cased_ranges : list (N * N) :=
  [(65, 90); (97, 122); (170, 170); (181, 181); (186, 186); (192, 214);
   (216, 246); (248, 442); (444, 447); (452, 659); (661, 687); (880, 883);
   (886, 887); (891, 893); (895, 895); (902, 902); (904, 906); (908, 908);
   (910, 929); (931, 1013); (1015, 1153); (1162, 1327); (1329, 1366);
   (1376, 1416); (4256, 4293); (4295, 4295); (4301, 4301); (4304, 4346);
   (4349, 4351); (5024, 5109); (5112, 5117); (7296, 7304); (7312, 7354);
   (7357, 7359); (7424, 7467); (7531, 7543); (7545, 7578); (7680, 7957);
   (7960, 7965); (7968, 8005); (8008, 8013); (8016, 8023); (8025, 8025);
   (8027, 8027); (8029, 8029); (8031, 8061); (8064, 8116); (8118, 8124);
   (8126, 8126); (8130, 8132); (8134, 8140); (8144, 8147); (8150, 8155);
   (8160, 8172); (8178, 8180); (8182, 8188); (8450, 8450); (8455, 8455);
   (8458, 8467); (8469, 8469); (8473, 8477); (8484, 8484); (8486, 8486);
   (8488, 8488); (8490, 8493); (8495, 8500); (8505, 8505); (8508, 8511);
   (8517, 8521); (8526, 8526); (8544, 8575); (8579, 8580); (9398, 9449);
   (11264, 11387); (11390, 11492); (11499, 11502); (11506, 11507);
   (11520, 11557); (11559, 11559); (11565, 11565); (42560, 42605);
   (42624, 42651); (42786, 42863); (42865, 42887); (42891, 42894);
   (42896, 42954); (42960, 42961); (42963, 42963); (42965, 42969);
   (42997, 42998); (43002, 43002); (43824, 43866); (43872, 43880);
   (43888, 43967); (64256, 64262); (64275, 64279); (65313, 65338);
   (65345, 65370); (66560, 66639); (66736, 66771); (66776, 66811);
   (66928, 66938); (66940, 66954); (66956, 66962); (66964, 66965);
   (66967, 66977); (66979, 66993); (66995, 67001); (67003, 67004);
   (68736, 68786); (68800, 68850); (71840, 71903); (93760, 93823);
   (119808, 119892); (119894, 119964); (119966, 119967); (119970, 119970);
   (119973, 119974); (119977, 119980); (119982, 119993); (119995, 119995);
   (119997, 120003); (120005, 120069); (120071, 120074); (120077, 120084);
   (120086, 120092); (120094, 120121); (120123, 120126); (120128, 120132);
   (120134, 120134); (120138, 120144); (120146, 120485); (120488, 120512);
   (120514, 120538); (120540, 120570); (120572, 120596); (120598, 120628);
   (120630, 120654); (120656, 120686); (120688, 120712); (120714, 120744);
   (120746, 120770); (120772, 120779); (122624, 122633); (122635, 122654);
   (125184, 125251); (127280, 127305); (127312, 127337); (127344, 127369)]%N.

Definition is_case_ignorable (c : N) : bool := in_ranges c case_ignorable_ranges.

Definition is_cased (c : N) : bool := in_ranges c cased_ranges.

(** The nearest character that is not case-ignorable is there and has a
    letter case. *)
Fixpoint cased_next (l : list N) : bool :=
  match l with
  | [] => false
  | c :: r => if is_case_ignorable c then cased_next r else is_cased c
  end.

(** The same, looking back from the character after [c], when [before]
    answers it for the character [c]. *)
Definition cased_before (before : bool) (c : N) : bool :=
  if is_case_ignorable c then before else is_cased c.

(** The capital sigma. *)
Definition sigma : N := 931.

(** The lowercase form of a capital sigma: the final small sigma
    (U+03C2) at the end of a word, which is after a cased letter and not
    before one, case-ignorable characters aside; the small sigma
    (U+03C3) elsewhere. *)
Definition lower_sigma (before : bool) (after : list N) : string :=
  encode_cp (if before && negb (cased_next after) then 962 else 963).

Fixpoint lower_from (before : bool) (l : list (N * string)) : string :=
  match l with
  | [] => EmptyString
  | ch :: r =>
      (if (fst ch =? sigma)%N then lower_sigma before (fst <$> r)
       else lower_chunk ch)
      +:+ lower_from (cased_before before (fst ch)) r
  end.

(** [s.lower()] *)
Definition lower (s : string) : string := lower_from false (chunks s).

(** ** Blanks *)

(** [c.isspace()] *)
Definition is_space (c : N) : bool :=
  within 9 13 c || within 28 32 c || (c =? 133)%N || (c =? 160)%N
  || (c =? 5760)%N || within 8192 8202 c || within 8232 8233 c
  || (c =? 8239)%N || (c =? 8287)%N || (c =? 12288)%N.

Fixpoint lstrip_chunks (l : list (N * string)) : list (N * string) :=
  match l with
  | [] => []
  | ch :: l' => if is_space (fst ch) then lstrip_chunks l' else l
  end.

Definition rstrip_chunks (l : list (N * string)) : list (N * string) :=
  reverse (lstrip_chunks (reverse l)).

(** [s.strip()] *)
Definition strip (s : string) : string :=
  concat_bytes (snd <$> rstrip_chunks (lstrip_chunks (chunks s))).

Fixpoint lstrip_by (p : ascii -> bool) (s : string) : string :=
  match s with
  | EmptyString => EmptyString
  | String c s' => if p c then lstrip_by p s' else s
  end.

Fixpoint rstrip_by (p : ascii -> bool) (s : string) : string :=
  match s with
  | EmptyString => EmptyString
  | String c s' =>
      let r := rstrip_by p s' in
      if p c && is_empty r then EmptyString else String c r
  end.

Definition strip_by (p : ascii -> bool) (s : string) : string :=
  rstrip_by p (lstrip_by p s).

(** [s.strip("\n")] *)
Definition strip_newlines (s : string) : string :=
  strip_by (Ascii.eqb nl) s.

(** ** Substrings *)

(** [s.startswith(p)] *)
Fixpoint startswith (p s : string) : bool :=
  match p, s with
  | EmptyString, _ => true
  | String a p', String b s' => Ascii.eqb a b && startswith p' s'
  | String _ _, EmptyString => false
  end.

(** [sub in s] *)
Fixpoint str_in (sub s : string) : bool :=
  startswith sub s
  || match s with
     | EmptyString => false
     | String _ s' => str_in sub s'
     end.

(** Number of positions of [s] at which [sub] occurs. *)
Fixpoint occurrences (sub s : string) : nat :=
  ((if startswith sub s then 1 else 0)
   + match s with
     | EmptyString => 0
     | String _ s' => occurrences sub s'
     end)%nat.

Fixpoint rev_onto (s acc : string) : string :=
  match s with
  | EmptyString => acc
  | String c s' => rev_onto s' (String c acc)
  end.

Definition rev (s : string) : string := rev_onto s EmptyString.

(** [s.endswith(suffix)] *)
Definition endswith (suffix s : string) : bool :=
  startswith (rev suffix) (rev s).

Fixpoint forallb_str (p : ascii -> bool) (s : string) : bool :=
  match s with
  | EmptyString => true
  | String c s' => p c && forallb_str p s'
  end.

(** ** Lines *)

(** Line boundaries of [str.splitlines()]: LF, VT, FF, CR, FS, GS, RS,
    NEL, LINE SEPARATOR and PARAGRAPH SEPARATOR; CR LF counts as one
    boundary. *)
Definition is_linebreak (c : N) : bool :=
  within 10 13 c || within 28 30 c || (c =? 133)%N || within 8232 8233 c.

(** [splitlines_from cur l]: [cur] is the line being read. *)
Fixpoint splitlines_from (cur : string) (l : list (N * string)) : list string :=
  match l with
  | [] => if is_empty cur then [] else [cur]
  | ch :: l' =>
      if is_linebreak (fst ch) then
        match l' with
        | ch' :: l'' =>
            if ((fst ch =? 13) && (fst ch' =? 10))%N
            then cur :: splitlines_from EmptyString l''
            else cur :: splitlines_from EmptyString l'
        | [] => [cur]
        end
      else splitlines_from (cur +:+ snd ch) l'
  end.

(** [s.splitlines()] *)
Definition splitlines (s : string) : list string :=
  splitlines_from EmptyString (chunks s).

(** What reading a file in text mode makes of its bytes: a carriage
    return, with the line feed after it if there is one, is read as one
    line feed. *)
Fixpoint universal_newlines (s : string) : string :=
  match s with
  | EmptyString => EmptyString
  | String c rest =>
      if Ascii.eqb c cr then
        match rest with
        | String d _ =>
            if Ascii.eqb d nl then universal_newlines rest
            else String nl (universal_newlines rest)
        | EmptyString => char nl
        end
      else String c (universal_newlines rest)
  end.

(** Neither a carriage return nor a line feed. *)
Definition plain (c : ascii) : bool := negb (Ascii.eqb c cr) && negb (Ascii.eqb c nl).

(** A byte above ASCII. *)
Definition high (c : ascii) : bool := (128 <=? code c)%N.

(** ** Digits *)

(** The decimal digits (general category Nd), in runs of ten from zero
    to nine; the last but four holds the five runs of mathematical
    digits. *)
Definition decimal_ranges : list (N * N) :=
  [(48, 57); (1632, 1641); (1776, 1785); (1984, 1993);
   (2406, 2415); (2534, 2543); (2662, 2671); (2790, 2799);
   (2918, 2927); (3046, 3055); (3174, 3183); (3302, 3311);
   (3430, 3439); (3558, 3567); (3664, 3673); (3792, 3801);
   (3872, 3881); (4160, 4169); (4240, 4249); (6112, 6121);
   (6160, 6169); (6470, 6479); (6608, 6617); (6784, 6793);
   (6800, 6809); (6992, 7001); (7088, 7097); (7232, 7241);
   (7248, 7257); (42528, 42537); (43216, 43225); (43264, 43273);
   (43472, 43481); (43504, 43513); (43600, 43609); (44016, 44025);
   (65296, 65305); (66720, 66729); (68912, 68921); (69734, 69743);
   (69872, 69881); (69942, 69951); (70096, 70105); (70384, 70393);
   (70736, 70745); (70864, 70873); (71248, 71257); (71360, 71369);
   (71472, 71481); (71904, 71913); (72016, 72025); (72784, 72793);
   (73040, 73049); (73120, 73129); (92768, 92777); (92864, 92873);
   (93008, 93017); (120782, 120831); (123200, 123209); (123632, 123641);
   (125264, 125273); (130032, 130041)]%N.

(** The other characters for which [str.isdigit] holds: superscripts,
    subscripts, circled and parenthesised digits and the like. *)
Definition other_digit_ranges : list (N * N) :=
  [(178, 179); (185, 185); (4969, 4977); (6618, 6618);
   (8304, 8304); (8308, 8313); (8320, 8329); (9312, 9320);
   (9332, 9340); (9352, 9360); (9450, 9450); (9461, 9469);
   (9471, 9471); (10102, 10110); (10112, 10120); (10122, 10130);
   (68160, 68163); (69216, 69224); (69714, 69722); (127232, 127242)]%N.

(** The value of a decimal digit, in any script. *)
Fixpoint digit_value (c : N) (rs : list (N * N)) : option N :=
  match rs with
  | [] => None
  | (lo, hi) :: rest =>
      if within lo hi c then Some ((c - lo) mod 10)%N else digit_value c rest
  end.

(** What [\d] matches in a [str] pattern and what [int] reads: a decimal
    digit of any script. *)
Definition is_decimal (c : N) : bool := in_ranges c decimal_ranges.

(** The digits 0-9. *)
Definition is_ascii_digit (c : ascii) : bool := between 48 57 c.

(** [c.isdigit()] is wider than [is_decimal]. *)
Definition is_digit_cp (c : N) : bool :=
  is_decimal c || in_ranges c other_digit_ranges.

(** [s.isdigit()] *)
Definition isdigit (s : string) : bool :=
  negb (is_empty s) && forallb is_digit_cp (decode s).

Fixpoint value_of (acc : N) (cs : list N) : option N :=
  match cs with
  | [] => Some acc
  | c :: rest =>
      match digit_value c decimal_ranges with
      | Some d => value_of (10 * acc + d)%N rest
      | None => None
      end
  end.

(** [int(s)] on a string for which [isdigit] holds: the value of the
    numeral when every character is a decimal digit and there are at
    most 4300 of them (the interpreter's default limit), otherwise
    nothing ([ValueError]).  Signs, blanks and underscores cannot occur
    after [isdigit]. *)
Definition int_of_digits (s : string) : option Z :=
  let cs := decode s in
  if is_empty s || (4300 <? N.of_nat (length cs))%N then None
  else Z.of_N <$> value_of 0 cs.

(** [str(n)] for a natural number. *)
Definition str_of_N (n : N) : string :=
  NilEmpty.string_of_uint (N.to_uint n).

(** [format(n, "2d")]: right-aligned in a field of width 2. *)
Definition format_2d (n : N) : string :=
  let s := str_of_N n in
  if (String.length s <? 2)%nat then " " +:+ s else s.

(** ** Regular expressions

    The fragment of [re] the script uses, over code points, with
    Brzozowski derivatives as the matcher behind [re.fullmatch]. *)

Inductive regex : Type :=
| Void
| Eps
| Class (p : N -> bool)
| Cat (r1 r2 : regex)
| Alt (r1 r2 : regex)
| Star (r : regex).

(** [r+] *)
Definition Plus (r : regex) : regex := Cat r (Star r).

Fixpoint nullable (r : regex) : bool :=
  match r with
  | Void => false
  | Eps => true
  | Class _ => false
  | Cat r1 r2 => nullable r1 && nullable r2
  | Alt r1 r2 => nullable r1 || nullable r2
  | Star _ => true
  end.

Fixpoint deriv (c : N) (r : regex) : regex :=
  match r with
  | Void => Void
  | Eps => Void
  | Class p => if p c then Eps else Void
  | Cat r1 r2 =>
      if nullable r1
      then Alt (Cat (deriv c r1) r2) (deriv c r2)
      else Cat (deriv c r1) r2
  | Alt r1 r2 => Alt (deriv c r1) (deriv c r2)
  | Star r1 => Cat (deriv c r1) (Star r1)
  end.

Fixpoint matches (r : regex) (l : list N) : bool :=
  match l with
  | [] => nullable r
  | c :: l' => matches (deriv c r) l'
  end.

(** [re.fullmatch(r, s) is not None] *)
Definition fullmatch (r : regex) (s : string) : bool := matches r (decode s).

(** The language of a regular expression. *)
Inductive Matches : regex -> list N -> Prop :=
| MEps : Matches Eps []
| MClass p c : p c = true -> Matches (Class p) [c]
| MCat r1 r2 l1 l2 :
    Matches r1 l1 -> Matches r2 l2 -> Matches (Cat r1 r2) (l1 ++ l2)
| MAltL r1 r2 l : Matches r1 l -> Matches (Alt r1 r2) l
| MAltR r1 r2 l : Matches r2 l -> Matches (Alt r1 r2) l
| MStarNil r : Matches (Star r) []
| MStarApp r l1 l2 :
    Matches r l1 -> Matches (Star r) l2 -> Matches (Star r) (l1 ++ l2).

End Text.

Import Text.

(** The code point of the full stop. *)
Definition dot : N := 46%N.

(** The pattern [r"\d+\.\d+\.\d+"] of [list_available_versions] and
    [prompt_for_version].  It is a [str] pattern compiled without
    [re.ASCII], so [\d] is any decimal digit. *)
Definition version_re : regex :=
  Cat (Plus (Class is_decimal))
    (Cat (Class (N.eqb dot))
       (Cat (Plus (Class is_decimal))
          (Cat (Class (N.eqb dot))
             (Plus (Class is_decimal))))).

Definition is_version (s : string) : bool := fullmatch version_re s.

(** A decimal numeral: one or more of the digits 0-9, the text of a
    non-negative integer. *)
Definition numeral (s : string) : Prop :=
  s <> EmptyString /\ forallb_str is_ascii_digit s = true.

(** The version identifier in the words of the specification: a dotted
    triple major.minor.patch of non-negative integers. *)
Definition dotted_triple (s : string) : Prop :=
  exists major minor patch,
    s = major +:+ "." +:+ minor +:+ "." +:+ patch
    /\ numeral major /\ numeral minor /\ numeral patch.

(** What the pattern accepts: three non-empty runs of decimal digits of
    any script, with a full stop between them. *)
Definition digit_run (l : list N) : Prop :=
  l <> [] /\ forallb is_decimal l = true.

Definition dotted_digit_runs (s : string) : Prop :=
  exists major minor patch,
    decode s = major ++ [dot] ++ minor ++ [dot] ++ patch
    /\ digit_run major /\ digit_run minor /\ digit_run patch.

(** The bytes of a text as numbers. *)
Fixpoint codes (s : string) : list N :=
  match s with
  | EmptyString => []
  | String c s' => code c :: codes s'
  end.

(** The version 3.12.4 written with fullwidth digits (U+FF10 to
    U+FF19). *)
Definition fullwidth_version : string := "３.１２.４".

(* ===================================================================== *)
(** * The host: terminal, files, dict objects, child processes           *)
(* ===================================================================== *)

(** The exceptions that reach the script's handlers.  [CalledProcessError]
    is raised by [subprocess.run(check=True)]; [UnicodeDecodeError] is a
    [ValueError] in Python and is kept apart from the [ValueError] of
    [int]. *)
Inductive exn : Type :=
| KeyboardInterrupt
| EOFError
| OSError
| KeyError
| ValueError
| IndexError
| UnicodeDecodeError
| CalledProcessError.

Inductive outcome (A : Type) : Type :=
| Return (a : A)
| Raise (e : exn).
Arguments Return {A} a.
Arguments Raise {A} e.

(** What waits on standard input: complete lines (without their newline)
    and interrupts typed at a prompt.  An exhausted list is end of file. *)
Inductive tty_event : Type :=
| Line (s : string)
| CtrlC.

(** What the script writes: [print(s)], [print(prefix, e)] with the text
    of an exception left symbolic, and the prompt of [input(prompt)]. *)
Inductive out_event : Type :=
| Print (s : string)
| PrintExc (s : string) (e : exn)
| Ask (prompt : string).

(** The bytes of a regular file: well-formed UTF-8, or bytes that
    reading as UTF-8 refuses. *)
Inductive fcontent : Type :=
| Utf8 (text : string)
| NotUtf8.

(** What is at a path: a directory, in which the user may or may not
    create entries, or a regular file with its permissions and data.  A
    path is a name: two paths that differ are two places (no symbolic
    links, [..] is not interpreted). *)
Inductive node : Type :=
| Dir (writable : bool)
| File (readable writable : bool) (data : fcontent).

Abbreviation dict := (gmap string string).
Abbreviation files := (gmap string node).
Abbreviation loc := nat.

Inductive command : Type :=
| Argv (args : list string)
| Shell (line : string).

(** One call of [subprocess.run]: the command, the contents of the [env]
    dict at the time of the call, the working directory and whether the
    output is captured. *)
Record invocation : Type := Invocation {
  inv_cmd : command;
  inv_env : option dict;
  inv_cwd : option string;
  inv_capture : bool
}.

Inductive proc_result : Type :=
| Exited (status : Z) (out : string)
| Faulted (e : exn).

(** The parts of the host the script cannot change: the platform name,
    the home directory as [Path.home()] prints it, the executable search
    of [shutil.which] and the behaviour of child processes, which may
    alter the file system. *)
Record host : Type := Host {
  h_system : string;
  h_home : string;
  h_which : string -> option string -> files -> bool;
  h_exec : invocation -> files -> proc_result * files
}.

(** The mutable state.  [w_heap] holds the dict objects of the run;
    [os.environ] is the object at [environ_loc].  [w_fs] maps a path, as
    the script hands it to the operating system, to what is there. *)
Record world : Type := World {
  w_in : list tty_event;
  w_out : list out_event;
  w_fs : files;
  w_heap : gmap loc dict;
  w_procs : list invocation
}.

Definition environ_loc : loc := 0%nat.

Definition set_in (i : list tty_event) (w : world) : world :=
  World i (w_out w) (w_fs w) (w_heap w) (w_procs w).
Definition emit (e : out_event) (w : world) : world :=
  World (w_in w) (w_out w ++ [e]) (w_fs w) (w_heap w) (w_procs w).
Definition set_fs (f : files) (w : world) : world :=
  World (w_in w) (w_out w) f (w_heap w) (w_procs w).
Definition set_heap (hp : gmap loc dict) (w : world) : world :=
  World (w_in w) (w_out w) (w_fs w) hp (w_procs w).
Definition log_proc (i : invocation) (w : world) : world :=
  World (w_in w) (w_out w) (w_fs w) (w_heap w) (w_procs w ++ [i]).

(** ** The monad *)

Definition M (A : Type) : Type := world -> outcome A * world.

Definition ret {A} (a : A) : M A := fun w => (Return a, w).
Definition raise {A} (e : exn) : M A := fun w => (Raise e, w).

Definition bind {A B} (m : M A) (k : A -> M B) : M B :=
  fun w =>
    match m w with
    | (Return a, w') => k a w'
    | (Raise e, w') => (Raise e, w')
    end.

Declare Scope py_scope.
Delimit Scope py_scope with py.
Bind Scope py_scope with M.
Notation "x <- m ;; k" := (bind m (fun x => k))
  (at level 20, m at level 99, k at level 200, only parsing) : py_scope.
Notation "m ;; k" := (bind m (fun _ => k))
  (at level 100, k at level 200, right associativity, only parsing) : py_scope.
Local Open Scope py_scope.

(** [try: body / except <handles>: handler / else: orelse]; the state
    reached when the exception was raised is the one the handler sees. *)
Definition try_except {A B} (body : M A) (handles : exn -> bool)
    (handler : exn -> M B) (orelse : A -> M B) : M B :=
  fun w =>
    match body w with
    | (Return a, w') => orelse a w'
    | (Raise e, w') => if handles e then handler e w' else (Raise e, w')
    end.

Definition is_OSError (e : exn) : bool :=
  match e with OSError => true | _ => false end.
Definition is_CalledProcessError (e : exn) : bool :=
  match e with CalledProcessError => true | _ => false end.
(** [except Exception] lets [KeyboardInterrupt] through. *)
Definition is_Exception (e : exn) : bool :=
  match e with KeyboardInterrupt => false | _ => true end.

(** [while True: body], where the body answers [Some a] for [return a]
    and [None] for falling through or [continue].  Every loop of the
    script reads a line in each round, so the number of pending terminal
    events bounds the number of rounds: the case of [loop_fuel] for an
    exhausted bound is never reached, and [while_true] satisfies the
    equation of the loop for every input (see [while_true_unfold]). *)
Fixpoint loop_fuel {A} (fuel : nat) (body : M (option A)) : M A :=
  fun w =>
    match body w with
    | (Raise e, w') => (Raise e, w')
    | (Return (Some a), w') => (Return a, w')
    | (Return None, w') =>
        match fuel with
        | O => (Raise EOFError, w')
        | S fuel' => loop_fuel fuel' body w'
        end
    end.

Definition while_true {A} (body : M (option A)) : M A :=
  fun w => loop_fuel (length (w_in w)) body w.

(** ** Primitive interactions *)

Definition print (s : string) : M unit :=
  fun w => (Return tt, emit (Print s) w).

Definition print_exc (s : string) (e : exn) : M unit :=
  fun w => (Return tt, emit (PrintExc s e) w).

(** [input(prompt)] *)
Definition input (prompt : string) : M string :=
  fun w =>
    let w1 := emit (Ask prompt) w in
    match w_in w with
    | [] => (Raise EOFError, w1)
    | Line s :: rest => (Return s, set_in rest w1)
    | CtrlC :: rest => (Raise KeyboardInterrupt, set_in rest w1)
    end.

(** The contents of a dict object. *)
Definition dict_of (l : loc) (w : world) : dict :=
  default ∅ (w_heap w !! l).

(** [d.get(key)] *)
Definition dict_get (l : loc) (key : string) : M (option string) :=
  fun w => (Return (dict_of l w !! key), w).

(** [d[key]] *)
Definition dict_item (l : loc) (key : string) : M string :=
  fun w =>
    match dict_of l w !! key with
    | Some v => (Return v, w)
    | None => (Raise KeyError, w)
    end.

(** [d[key] = value]: the object is updated in place. *)
Definition dict_set (l : loc) (key value : string) : M unit :=
  fun w => (Return tt, set_heap (<[l := <[key := value]> (dict_of l w)]> (w_heap w)) w).

(** [os.environ.copy()]: a new dict object with the same items. *)
Definition environ_copy : M loc :=
  fun w =>
    let l := fresh (dom (w_heap w) ∪ {[environ_loc]}) in
    (Return l, set_heap (<[l := dict_of environ_loc w]> (w_heap w)) w).

(** ** Paths *)

Fixpoint split_from (sep : ascii) (cur s : string) : list string :=
  match s with
  | EmptyString => [rev cur]
  | String c s' =>
      if Ascii.eqb c sep
      then rev cur :: split_from sep EmptyString s'
      else split_from sep (String c cur) s'
  end.

Fixpoint join_with (sep : string) (parts : list string) : string :=
  match parts with
  | [] => EmptyString
  | [p] => p
  | p :: ps => p +:+ sep +:+ join_with sep ps
  end.

Definition path_parts (s : string) : list string :=
  filter (fun p => p <> EmptyString /\ p <> ".") (split_from "/" EmptyString s).

Definition path_root (s : string) : string :=
  if startswith "///" s then "/"
  else if startswith "//" s then "//"
  else if startswith "/" s then "/"
  else EmptyString.

(** The text of a path with the given root and components; the path
    without either is [.]. *)
Definition normal_path (root : string) (parts : list string) : string :=
  let p := root +:+ join_with "/" parts in
  if is_empty p then "." else p.

(** [str(Path(s))]: repeated and trailing slashes and [.] components
    disappear; exactly two leading slashes are kept. *)
Definition pure_path (s : string) : string :=
  normal_path (path_root s) (path_parts s).

(** [str(Path(a) / b)] for a relative [b]: the components of [b] follow
    those of [a] under the root of [a]. *)
Definition path_join (a b : string) : string :=
  normal_path (path_root a) (path_parts a ++ path_parts b).

(** The proper ancestors of a path below its root, outermost first. *)
Definition path_parents (s : string) : list string :=
  let parts := path_parts s in
  (fun n => path_root s +:+ join_with "/" (take n parts))
    <$> seq 1 (length parts - 1).

(** [str(Path(s).parent)]: the directory that holds the entry. *)
Definition path_parent (s : string) : string :=
  let parts := path_parts s in
  normal_path (path_root s) (take (length parts - 1) parts).

(** Where the ancestors of a path start: its root, or the current
    directory. *)
Definition path_anchor (s : string) : string :=
  normal_path (path_root s) [].

(** ** Files *)

(** [Path(p).is_file()] *)
Definition is_file (p : string) : M bool :=
  fun w =>
    (Return match w_fs w !! p with Some (File _ _ _) => true | _ => false end, w).

(** [Path(p).is_dir()] *)
Definition is_dir (p : string) : M bool :=
  fun w =>
    (Return match w_fs w !! p with Some (Dir _) => true | _ => false end, w).

(** [Path(p).read_text(encoding="utf-8")], also [open(p).read()]: the
    file is read in text mode, which translates the line ends. *)
Definition read_text (p : string) : M string :=
  fun w =>
    match w_fs w !! p with
    | Some (File true _ (Utf8 s)) => (Return (universal_newlines s), w)
    | Some (File true _ NotUtf8) => (Raise UnicodeDecodeError, w)
    | _ => (Raise OSError, w)
    end.

(** The user may create an entry in the directory at [d]. *)
Definition may_create_in (fs : files) (d : string) : bool :=
  match fs !! d with Some (Dir true) => true | _ => false end.

(** [with Path(p).open("a") as f: f.write(text)].  A file that is not
    there is created, which takes a directory to hold it in which the
    user may create entries. *)
Definition append_text (p text : string) : M unit :=
  fun w =>
    match w_fs w !! p with
    | None =>
        if may_create_in (w_fs w) (path_parent p)
        then (Return tt, set_fs (<[p := File true true (Utf8 text)]> (w_fs w)) w)
        else (Raise OSError, w)
    | Some (File r true (Utf8 s)) =>
        (Return tt, set_fs (<[p := File r true (Utf8 (s +:+ text))]> (w_fs w)) w)
    | Some (File r true NotUtf8) => (Return tt, w)
    | Some (File _ false _) => (Raise OSError, w)
    | Some (Dir _) => (Raise OSError, w)
    end.

Definition is_regular (n : option node) : bool :=
  match n with Some (File _ _ _) => true | _ => false end.

(** The directories of [chain], each the child of the one before and
    the first a child of [parent], are made where they are missing; a
    directory that is made lets the user create entries in it.  A
    regular file on the way, or a missing directory whose parent does
    not let the user create entries, is a failure, and then nothing has
    been made: the directories before the failing one were all there. *)
Fixpoint mkdir_chain (parent : string) (chain : list string) (fs : files)
  : option files :=
  match chain with
  | [] => Some fs
  | q :: rest =>
      match fs !! q with
      | Some (Dir _) => mkdir_chain q rest fs
      | Some (File _ _ _) => None
      | None =>
          if may_create_in fs parent
          then mkdir_chain q rest (<[q := Dir true]> fs)
          else None
      end
  end.

(** [Path(p).mkdir(parents=True, exist_ok=True)] *)
Definition mkdir_p (p : string) : M unit :=
  fun w =>
    match mkdir_chain (path_anchor p) (path_parents p ++ [p]) (w_fs w) with
    | Some fs => (Return tt, set_fs fs w)
    | None => (Raise OSError, w)
    end.

(* ===================================================================== *)
(** * The script                                                         *)
(* ===================================================================== *)

(** ["\n" + s] *)
Definition ln (s : string) : string := String nl s.

(** [s * n] *)
Fixpoint str_mul (s : string) (n : nat) : string :=
  match n with
  | O => EmptyString
  | S n' => s +:+ str_mul s n'
  end.

(** [x in {...}] and [x in [...]] for strings *)
Definition one_of (x : string) (xs : list string) : bool :=
  bool_decide (x ∈ xs).

Fixpoint print_all (lines : list string) : M unit :=
  match lines with
  | [] => ret tt
  | l :: ls => print l;; print_all ls
  end.

(** The text printed by [install_pyenv_macos] when Homebrew is missing,
    after [dedent]. *)
Definition homebrew_missing_text : string :=
"
Homebrew was not found on this system.

The script can run the official pyenv installer, which will:
- Download and install pyenv under ~/.pyenv
- Print instructions for updating your shell configuration

Command to be executed:
  curl https://pyenv.run | bash
".

(** The shell snippet of [install_pyenv_ubuntu_like], after [dedent]. *)
Definition pyenv_init_snippet : string :=
"
# pyenv configuration
export PYENV_ROOT=" +:+ char dquote +:+ "$HOME/.pyenv" +:+ char dquote +:+ "
command -v pyenv >/dev/null || export PATH=" +:+ char dquote +:+ "$PYENV_ROOT/bin:$PATH" +:+ char dquote +:+ "
eval " +:+ char dquote +:+ "$(pyenv init -)" +:+ char dquote +:+ "
if command -v pyenv-virtualenv-init >/dev/null 2>&1; then
  eval " +:+ char dquote +:+ "$(pyenv virtualenv-init -)" +:+ char dquote +:+ "
fi
".

(** The text of [print_windows_wsl_instructions], after [dedent]. *)
Definition windows_wsl_text : string :=
"
Detected Windows (non-WSL) environment.

This helper script is intended to run *inside* a Unix-like shell
(macOS, Ubuntu, or Ubuntu under Windows Subsystem for Linux - WSL).

To use it from Windows, follow these steps:

1. Enable WSL (Windows Subsystem for Linux)

   - Open PowerShell **as Administrator** and run:

       wsl --install -d Ubuntu

   - If you're on an older Windows 10 build and the above fails, try:

       dism.exe /online /enable-feature /featurename:Microsoft-Windows-Subsystem-Linux /all /norestart
       dism.exe /online /enable-feature /featurename:VirtualMachinePlatform /all /norestart

   - Restart your computer if prompted.

2. Install an Ubuntu distribution from the Microsoft Store (if it
   wasn't installed automatically by 'wsl --install').

3. Launch the Ubuntu (WSL) terminal, set up your Unix username, and
   then run this script **inside that Ubuntu shell**:

       python3 python_env_setup.py

Once you're inside Ubuntu/WSL, this script will treat it like a
regular Ubuntu system and can install pyenv and pyenv-virtualenv for you.
".

(** The closing text of [create_demo_virtualenv], after [dedent]: the
    escaped newline of the source puts its first words in column 0, so
    no indentation is removed. *)
Definition manual_steps_text (demo_dir env_name : string) : string :=
"

Manual steps you can try now (outside of this script):

              cd " +:+ demo_dir +:+ "
              pyenv activate " +:+ env_name +:+ "
              python -V
              which python
              pyenv deactivate

            When you 'cd' into " +:+ demo_dir +:+ ", pyenv will automatically select the
            '" +:+ env_name +:+ "' environment because of the .python-version file we created.
".

(** The packages of [deps] in [install_pyenv_ubuntu_like]. *)
Definition deps : list string :=
  [ "build-essential"; "curl"; "git"; "libssl-dev"; "zlib1g-dev";
    "libbz2-dev"; "libreadline-dev"; "libsqlite3-dev"; "llvm";
    "libncursesw5-dev"; "xz-utils"; "tk-dev"; "libxml2-dev";
    "libxmlsec1-dev"; "libffi-dev"; "liblzma-dev" ].

(** What [run_cmd] returns: the captured standard output, or the
    [CompletedProcess] (its return code) when nothing is captured. *)
Definition run_result (capture_output : bool) : Type :=
  if capture_output then string else Z.

Definition run_value (capture_output : bool) (status : Z) (out : string)
  : run_result capture_output :=
  match capture_output with
  | true => out
  | false => status
  end.

Section Script.

Variable h : host.

Definition print_banner : M unit :=
  print (str_mul "=" 72);;
  print " Python version & pyenv-virtualenv setup helper";;
  print (str_mul "=" 72);;
  print "".

(** [run_cmd(cmd, check=..., capture_output=..., shell=..., env=..., cwd=...)];
    [shell] is the constructor of [cmd]. *)
Definition run_cmd (cmd : command) (check capture_output : bool)
    (env : option loc) (cwd : option string) : M (run_result capture_output) :=
  fun w =>
    let inv := Invocation cmd ((fun l => dict_of l w) <$> env) cwd capture_output in
    let r := h_exec h inv (w_fs w) in
    let w' := log_proc inv (set_fs (snd r) w) in
    match fst r with
    | Faulted e => (Raise e, w')
    | Exited status out =>
        if check && negb (status =? 0)
        then (Raise CalledProcessError, w')
        else (Return (run_value capture_output status out), w')
    end.

(** One round of the [while True] loop of [ask_yes_no]: [None] is falling
    through to the next round, [Some b] is [return b]. *)
Definition ask_round (text : string) (default : option bool) : M (option bool) :=
  raw <- input text;;
  let ans := lower (strip raw) in
  match is_empty ans, default with
  | true, Some d => ret (Some d)
  | _, _ =>
      if one_of ans ["y"; "yes"] then ret (Some true)
      else if one_of ans ["n"; "no"] then ret (Some false)
      else print "Please answer 'y' or 'n'.";; ret None
  end.

Definition ask_yes_no (prompt : string) (default : option bool) : M bool :=
  let suffix :=
    match default with
    | Some true => " [Y/n]: "
    | Some false => " [y/N]: "
    | None => " [y/n]: "
    end in
  while_true (ask_round (prompt +:+ suffix) default).

(** The value is [Some r] when the [try] block of the Linux branch
    returns [r], and [None] when control leaves the block, normally or
    through [except OSError: pass]. *)
Definition detect_wsl : M (option string) :=
  try_except
    (ver <- read_text "/proc/version";;
     let ver := lower ver in
     if str_in "microsoft" ver || str_in "wsl" ver then
       isf <- is_file "/etc/os-release";;
       if isf then
         data <- read_text "/etc/os-release";;
         let data := lower data in
         if str_in "ubuntu" data then ret (Some "wsl_ubuntu")
         else ret (Some "other")
       else ret (Some "other")
     else ret None)
    is_OSError (fun _ => ret None) ret.

Definition detect_environment : M string :=
  let system := lower (h_system h) in
  if String.eqb system "darwin" then ret "macos"
  else if String.eqb system "windows" then ret "windows"
  else if String.eqb system "linux" then
    early <- detect_wsl;;
    match early with
    | Some r => ret r
    | None =>
        isf <- is_file "/etc/os-release";;
        if isf then
          data <- read_text "/etc/os-release";;
          let data := lower data in
          if str_in "ubuntu" data then ret "ubuntu" else ret "other"
        else ret "other"
    end
  else ret "other".

Definition ensure_pyenv_in_env (env : option loc) : M loc :=
  env <- match env with
         | None => environ_copy
         | Some l => ret l
         end;;
  root_var <- dict_get environ_loc "PYENV_ROOT";;
  let pyenv_root :=
    match root_var with
    | Some v => if is_empty v then path_join (h_home h) ".pyenv" else v
    | None => path_join (h_home h) ".pyenv"
    end in
  isd <- is_dir (pure_path pyenv_root);;
  (if isd then
     dict_set env "PYENV_ROOT" pyenv_root;;
     let bin_dir := path_join pyenv_root "bin" in
     path <- dict_get env "PATH";;
     if negb (str_in bin_dir (default "" path)) then
       old <- dict_item env "PATH";;
       dict_set env "PATH" (bin_dir +:+ ":" +:+ old)
     else ret tt
   else ret tt);;
  ret env.

(** [shutil.which(name, path=(env or os.environ).get("PATH")) is not None];
    an empty dict is false, and [which] falls back on the [PATH] of
    [os.environ] when it is given [None]. *)
Definition command_exists (name : string) (env : option loc) : M bool :=
  fun w =>
    let environ := dict_of environ_loc w in
    let d :=
      match env with
      | Some l => if decide (dict_of l w = ∅) then environ else dict_of l w
      | None => environ
      end in
    let path :=
      match d !! "PATH" with
      | Some p => Some p
      | None => environ !! "PATH"
      end in
    (Return (h_which h name path (w_fs w)), w).

(* ------------------------ pyenv installation ------------------------ *)

Definition install_pyenv_macos (env : loc) : M loc :=
  print (ln "Detected macOS.");;
  present <- command_exists "pyenv" (Some env);;
  if present then
    print "pyenv already appears to be installed.";;
    ret env
  else
    print (ln "pyenv is not installed.");;
    yes <- ask_yes_no "Install pyenv using Homebrew or the official installer?" (Some true);;
    if negb yes then
      print "Skipping pyenv installation at your request.";;
      ret env
    else
      brew <- command_exists "brew" (Some env);;
      (if brew then
         print (ln "Installing pyenv and pyenv-virtualenv with Homebrew (you may be prompted for your password)...");;
         try_except
           (run_cmd (Argv ["brew"; "update"]) true false (Some env) None;;
            run_cmd (Argv ["brew"; "install"; "pyenv"; "pyenv-virtualenv"])
              true false (Some env) None)
           is_CalledProcessError
           (fun e => print_exc "Homebrew installation failed: " e)
           (fun _ => print (ln "pyenv and pyenv-virtualenv installed via Homebrew."))
       else
         print homebrew_missing_text;;
         run_it <- ask_yes_no "Run the official pyenv installer now?" (Some true);;
         if run_it then
           try_except
             (run_cmd (Shell "curl https://pyenv.run | bash") true false (Some env) None)
             is_CalledProcessError
             (fun e => print_exc "pyenv installer failed: " e)
             (fun _ => print (ln "pyenv installer completed."))
         else print "Skipping pyenv installation.");;
      ensure_pyenv_in_env (Some env).

(** The startup file chosen from [SHELL]. *)
Definition shell_rc : M string :=
  sh <- dict_get environ_loc "SHELL";;
  let shell := default "" sh in
  if endswith "zsh" shell
  then ret (path_join (h_home h) ".zshrc")
  else ret (path_join (h_home h) ".bashrc").

(** What is written through the file opened for appending. *)
Definition appended_text (content snippet : string) : string :=
  (if endswith (char nl) content then "" else char nl)
  +:+ ln (strip_newlines snippet) +:+ char nl.

Definition append_to_shell_rc_if_missing (snippet : string) : M unit :=
  rc <- shell_rc;;
  (* first [try]: [None] stands for the two [return]s *)
  content <- try_except
    (isf <- is_file rc;;
     if isf then
       content <- read_text rc;;
       if str_in "pyenv init" content then ret None else ret (Some content)
     else ret (Some ""))
    is_OSError (fun _ => ret None) ret;;
  match content with
  | None => ret tt
  | Some content =>
      try_except
        (append_text rc (appended_text content snippet);;
         print ("Appended pyenv init snippet to " +:+ rc))
        is_OSError
        (fun e => print_exc ("Could not update " +:+ rc +:+ ": ") e)
        ret
  end.

Definition install_pyenv_ubuntu_like (env : loc) (is_wsl : bool) : M loc :=
  present <- command_exists "pyenv" (Some env);;
  if present then
    print "pyenv already appears to be installed.";;
    ensure_pyenv_in_env (Some env)
  else
    print (ln "pyenv is not installed.");;
    yes <- ask_yes_no "Install pyenv using git + apt (requires sudo)?" (Some true);;
    if negb yes then
      print "Skipping pyenv installation at your request.";;
      ret env
    else
      print (ln "Installing build dependencies via apt (you may be prompted for your password)...");;
      try_except
        (run_cmd (Argv ["sudo"; "apt"; "update"]) true false (Some env) None;;
         run_cmd (Argv (["sudo"; "apt"; "install"; "-y"] ++ deps)) true false (Some env) None)
        is_CalledProcessError
        (fun e => print_exc "apt installation failed: " e)
        (fun _ => ret tt);;
      let pyenv_root := path_join (h_home h) ".pyenv" in
      have_root <- is_dir pyenv_root;;
      (if have_root then
         print (pyenv_root +:+ " already exists; skipping git clone.")
       else
         print (ln "Cloning pyenv into ~/.pyenv...");;
         try_except
           (run_cmd (Argv ["git"; "clone"; "https://github.com/pyenv/pyenv.git"; pyenv_root])
              true false (Some env) None)
           is_CalledProcessError
           (fun e => print_exc "Git clone for pyenv failed: " e)
           (fun _ => ret tt));;
      let plugins_dir := path_join pyenv_root "plugins" in
      let virtualenv_dir := path_join plugins_dir "pyenv-virtualenv" in
      plugin <- ask_yes_no "Install pyenv-virtualenv plugin as well?" (Some true);;
      (if plugin then
         mkdir_p plugins_dir;;
         have_plugin <- is_dir virtualenv_dir;;
         if have_plugin then
           print "pyenv-virtualenv plugin directory already exists; skipping clone."
         else
           print "Cloning pyenv-virtualenv plugin...";;
           try_except
             (run_cmd
                (Argv ["git"; "clone";
                       "https://github.com/pyenv/pyenv-virtualenv.git";
                       virtualenv_dir])
                true false (Some env) None)
             is_CalledProcessError
             (fun e => print_exc "Git clone for pyenv-virtualenv failed: " e)
             (fun _ => ret tt)
       else ret tt);;
      append_to_shell_rc_if_missing pyenv_init_snippet;;
      env <- ensure_pyenv_in_env (Some env);;
      print (ln "pyenv installation steps finished. You may need to restart your shell or run 'exec $SHELL' for pyenv to be fully available in new terminals.");;
      (if is_wsl then
         print "Detected Ubuntu under WSL. Make sure you always run this script *inside* your WSL/Ubuntu terminal (not in regular cmd.exe/PowerShell)."
       else ret tt);;
      ret env.

Definition ensure_pyenv_and_virtualenv (env_name : string) (env : loc) : M loc :=
  env <- (if String.eqb env_name "macos" then install_pyenv_macos env
          else if one_of env_name ["ubuntu"; "wsl_ubuntu"] then
            install_pyenv_ubuntu_like env (String.eqb env_name "wsl_ubuntu")
          else
            print "Unsupported environment for automatic pyenv installation.";;
            ret env);;
  env <- ensure_pyenv_in_env (Some env);;
  present <- command_exists "pyenv" (Some env);;
  if negb present then
    print "pyenv still not found in PATH. Please install/configure it manually and re-run this script.";;
    ret env
  else
    present <- command_exists "pyenv" (Some env);;
    if negb present then ret env
    else
      has_virtualenv <- try_except
        (run_cmd (Argv ["pyenv"; "virtualenv"; "--help"]) true true (Some env) None)
        is_CalledProcessError (fun _ => ret false) (fun _ => ret true);;
      (if negb has_virtualenv then
         print (ln "pyenv-virtualenv does not appear to be available.");;
         brew <- (if String.eqb env_name "macos"
                  then command_exists "brew" (Some env) else ret false);;
         if brew then
           yes <- ask_yes_no "Install pyenv-virtualenv with Homebrew now?" (Some true);;
           if yes then
             try_except
               (run_cmd (Argv ["brew"; "install"; "pyenv-virtualenv"])
                  true false (Some env) None)
               is_CalledProcessError
               (fun e => print_exc "Failed to install pyenv-virtualenv via Homebrew: " e)
               (fun _ => ret tt)
           else ret tt
         else if one_of env_name ["ubuntu"; "wsl_ubuntu"] then
           print ("If you previously declined the plugin installation, you can install it later with:"
                  +:+ ln "  git clone https://github.com/pyenv/pyenv-virtualenv.git ~/.pyenv/plugins/pyenv-virtualenv"
                  +:+ char nl)
         else ret tt
       else ret tt);;
      ret env.

(* ----------------- version selection & installation ----------------- *)

(** The lines of [out] that are version identifiers, in order. *)
Definition parse_versions (out : string) : list string :=
  filter (fun v => is_version v = true) (strip <$> splitlines out).

Definition list_available_versions (env : loc) : M (list string) :=
  print (ln "Retrieving available CPython versions from pyenv (this may take a few seconds)...");;
  try_except
    (run_cmd (Argv ["pyenv"; "install"; "--list"]) true true (Some env) None)
    is_CalledProcessError
    (fun e => print_exc "Failed to list versions from pyenv: " e;; ret [])
    (fun out =>
       let versions := parse_versions out in
       (if bool_decide (versions = []) then
          print "No CPython versions found in pyenv output."
        else ret tt);;
       ret versions).

(** [versions[-15:]] *)
Definition last15 (versions : list string) : list string :=
  drop (length versions - 15) versions.

(** The lines [f"  {i:2d}) {v}"] for [i, v] in [enumerate(latest, start=1)]. *)
Definition menu_lines (latest : list string) : list string :=
  imap (fun i v => "  " +:+ format_2d (N.of_nat (S i)) +:+ ") " +:+ v) latest.

(** One round of the [while True] loop of [prompt_for_version]: [None]
    is [continue], [Some r] is [return r]. *)
Definition prompt_round (versions latest : list string)
  : M (option (option string)) :=
  raw <- input "Your choice (or 'q' to quit): ";;
  let choice := strip raw in
  if is_empty choice then ret None
  else if one_of (lower choice) ["q"; "quit"; "exit"] then ret (Some None)
  else if isdigit choice then
    match int_of_digits choice with
    | None => raise ValueError
    | Some n =>
        let idx := n - 1 in
        if (0 <=? idx) && (idx <? Z.of_nat (length latest)) then
          match latest !! Z.to_nat idx with
          | Some v => ret (Some (Some v))
          | None => raise IndexError
          end
        else
          print "Please enter a number from the list above.";;
          ret None
    end
  else if is_version choice then
    if negb (one_of choice versions) then
      yes <- ask_yes_no
               ("Version " +:+ choice +:+ " was not in the recent list, but pyenv may still support it. Try installing it?")
               (Some true);;
      if yes then ret (Some (Some choice)) else ret None
    else ret (Some (Some choice))
  else
    print "Please choose a valid number or a version like '3.12.4'.";;
    ret None.

Definition prompt_for_version (env : loc) : M (option string) :=
  versions <- list_available_versions env;;
  if bool_decide (versions = []) then ret None
  else
    let latest := last15 versions in
    print (ln "Select a Python version to install:");;
    print_all (menu_lines latest);;
    print (ln "You can choose by number, or type an exact version (e.g. 3.12.4).");;
    while_true (prompt_round versions latest).

(** [{line.strip() for line in out.splitlines() if line.strip()}] *)
Definition bare_listing (out : string) : gset string :=
  list_to_set (filter (fun l => is_empty l = false) (strip <$> splitlines out)).

Definition ensure_version_installed (version : string) (env : loc) : M bool :=
  print (ln "Checking if Python " +:+ version +:+ " is already installed via pyenv...");;
  out <- try_except
    (run_cmd (Argv ["pyenv"; "versions"; "--bare"]) true true (Some env) None)
    is_CalledProcessError (fun _ => ret "") ret;;
  let installed := bare_listing out in
  if bool_decide (version ∈ installed) then
    print ("Python " +:+ version +:+ " is already installed.");;
    ret true
  else
    print ("Python " +:+ version +:+ " is not installed. Starting installation (this may take a while)...");;
    try_except
      (run_cmd (Argv ["pyenv"; "install"; version]) true false (Some env) None)
      is_CalledProcessError
      (fun e =>
         print_exc ("pyenv failed to install Python " +:+ version +:+ ": ") e;;
         ret false)
      (fun _ =>
         print ("Python " +:+ version +:+ " installed successfully via pyenv.");;
         ret true).

Definition maybe_set_global_version (version : string) (env : loc) : M unit :=
  yes <- ask_yes_no
           ("Do you want to set Python " +:+ version +:+ " as your *global* default pyenv version?")
           (Some false);;
  if yes then
    try_except
      (run_cmd (Argv ["pyenv"; "global"; version]) true false (Some env) None;;
       print ("Global pyenv version set to " +:+ version +:+ ". New shells will use this version (unless overridden by a local version)."))
      is_CalledProcessError
      (fun e => print_exc "Failed to set global pyenv version: " e)
      ret
  else ret tt.

(* --------------- demo project with pyenv-virtualenv ---------------- *)

Definition create_demo_virtualenv (version : string) (env : loc) : M unit :=
  print (ln "Setting up a demo project using pyenv-virtualenv...");;
  available <- try_except
    (run_cmd (Argv ["pyenv"; "virtualenv"; "--help"]) true true (Some env) None)
    is_CalledProcessError
    (fun _ =>
       print "pyenv-virtualenv does not appear to be installed or configured. Skipping the demo virtualenv setup.";;
       ret false)
    (fun _ => ret true);;
  if negb available then ret tt
  else
    let demo_dir := path_join (h_home h) "pyenv_virtualenv_demo" in
    let env_name := "demo-env" in
    mkdir_p demo_dir;;
    print ("Demo directory: " +:+ demo_dir);;
    print ("Virtualenv name: " +:+ env_name);;
    existing_envs <- try_except
      (run_cmd (Argv ["pyenv"; "virtualenvs"; "--bare"]) true true (Some env) None)
      is_CalledProcessError (fun _ => ret ∅) (fun out => ret (bare_listing out));;
    ready <-
      (if bool_decide (env_name ∈ existing_envs) then
         print ("Virtualenv '" +:+ env_name +:+ "' already exists; reusing it.");;
         ret true
       else
         print ("Creating virtualenv '" +:+ env_name +:+ "' for Python " +:+ version +:+ "...");;
         try_except
           (run_cmd (Argv ["pyenv"; "virtualenv"; version; env_name])
              true false (Some env) None)
           is_CalledProcessError
           (fun e =>
              print_exc "Failed to create virtualenv via pyenv-virtualenv: " e;;
              ret false)
           (fun _ => ret true));;
    if negb ready then ret tt
    else
      try_except
        (run_cmd (Argv ["pyenv"; "local"; env_name]) true false (Some env) (Some demo_dir);;
         print ("Set local pyenv version for " +:+ demo_dir +:+ " to '" +:+ env_name
                +:+ "'. Any shell started in that directory will use this environment."))
        is_CalledProcessError
        (fun e => print_exc "Failed to set local pyenv version in demo directory: " e)
        ret;;
      print (ln "Now demonstrating how activation works in a *subshell* (your current shell will not be modified):"
             +:+ char nl);;
      let demo_cmd :=
        "cd '" +:+ demo_dir +:+ "' && pyenv activate " +:+ env_name
        +:+ " && echo 'Inside demo-env:' && python -V && which python && pyenv deactivate" in
      try_except
        (run_cmd (Argv ["bash"; "-lc"; demo_cmd]) true false (Some env) None)
        is_Exception
        (fun e => print_exc "Subshell demonstration failed: " e)
        (fun _ => ret tt);;
      print (manual_steps_text demo_dir env_name).

(* ---------------------- WSL / Windows guidance ---------------------- *)

Definition print_windows_wsl_instructions : M unit :=
  print windows_wsl_text.

(* ------------------------- main entry point ------------------------- *)

Definition main : M Z :=
  print_banner;;
  env_name <- detect_environment;;
  raw_env <- environ_copy;;
  if String.eqb env_name "windows" then
    print_windows_wsl_instructions;;
    ret 0
  else if String.eqb env_name "other" then
    print "This script currently supports macOS and Ubuntu (including Ubuntu under WSL).";;
    print "Your environment was detected as 'other'. Exiting.";;
    ret 1
  else
    (if String.eqb env_name "macos" then print "Detected macOS."
     else if String.eqb env_name "ubuntu" then print "Detected Ubuntu."
     else if String.eqb env_name "wsl_ubuntu" then
       print "Detected Ubuntu running under Windows Subsystem for Linux (WSL)."
     else ret tt);;
    env <- ensure_pyenv_and_virtualenv env_name raw_env;;
    present <- command_exists "pyenv" (Some env);;
    if negb present then ret 1
    else
      version <- prompt_for_version env;;
      match version with
      | None | Some EmptyString =>
          print "No version selected. Exiting.";;
          ret 0
      | Some version =>
          installed <- ensure_version_installed version env;;
          if negb installed then
            print "Could not install the requested Python version. Exiting.";;
            ret 1
          else
            maybe_set_global_version version env;;
            demo <- ask_yes_no "Create a demo project using pyenv-virtualenv?" (Some true);;
            (if demo then create_demo_virtualenv version env
             else print "Skipping demo virtualenv creation.");;
            print (ln "All done. You can re-run this script at any time to install other versions.");;
            ret 0
      end.

(** The [__main__] guard: the exit status of the process.  [SystemExit]
    carries the value of [main]; an interrupt is reported and turned
    into status 1; any other exception that leaves [main] ends the
    interpreter with a traceback and status 1. *)
Definition script (w : world) : Z * world :=
  match main w with
  | (Return status, w') => (status, w')
  | (Raise KeyboardInterrupt, w') => (1, emit (Print (ln "Interrupted by user.")) w')
  | (Raise _, w') => (1, w')
  end.

End Script.

(* ===================================================================== *)
(** * Vocabulary of the specification and sample hosts                   *)
(* ===================================================================== *)

(** The WSL/Microsoft marker of [/proc/version] and the Ubuntu marker of
    [/etc/os-release], as [detect_environment] tests them. *)
Definition has_wsl_marker (proc_version : string) : bool :=
  str_in "microsoft" (lower proc_version) || str_in "wsl" (lower proc_version).

Definition has_ubuntu_marker (os_release : string) : bool :=
  str_in "ubuntu" (lower os_release).

(** The closed enumeration of environment classes. *)
Definition environment_classes : list string :=
  ["macos"; "ubuntu"; "wsl_ubuntu"; "windows"; "other"].

(** A readable text file. *)
Definition text_file (s : string) : node := File true true (Utf8 s).

(** A Linux host on which nothing is installed and every command
    succeeds silently. *)
Definition linux_host : host :=
  Host "Linux" "/home/u" (fun _ _ _ => false) (fun _ fs => (Exited 0 "", fs)).

Definition sample_environ : dict :=
  {[ "PATH" := "/usr/bin"; "SHELL" := "/bin/bash" ]}.

Definition world_with (stdin : list tty_event) (fs : files) : world :=
  World stdin [] fs {[ environ_loc := sample_environ ]} [].

Definition ubuntu_files : files :=
  {[ "/proc/version" := text_file "Linux version 6.5.0-generic (gcc 12.3.0)";
     "/etc/os-release" := text_file "NAME=Ubuntu
ID=ubuntu" ]}.

(** The release file exists but may not be read (mode 000). *)
Definition locked_release_files : files :=
  {[ "/proc/version" := text_file "Linux version 6.5.0-generic (gcc 12.3.0)";
     "/etc/os-release" := File false false (Utf8 "ID=ubuntu") ]}.

(** ** Relations between the world before and after a computation *)

(** [m] changes the world only along [R], and every value it returns
    satisfies [Q]. *)
Definition keeps {A} (R : world -> world -> Prop) (m : M A) (Q : A -> Prop) : Prop :=
  forall w, R w (snd (m w)) /\ (forall a, fst (m w) = Return a -> Q a).

(** No terminal event is put back. *)
Definition stdin_shrinks (w w' : world) : Prop :=
  (length (w_in w') <= length (w_in w))%nat.

(** The object [os.environ] is left as it was. *)
Definition same_environ (w w' : world) : Prop :=
  w_heap w' !! environ_loc = w_heap w !! environ_loc.

Definition any {A} : A -> Prop := fun _ => True.

(** At most the dict object [l] is updated; no other object is created,
    changed or dropped. *)
Definition only_changes (l : loc) (w w' : world) : Prop :=
  forall l', l' <> l -> w_heap w' !! l' = w_heap w !! l'.

(** The root directory [ensure_pyenv_in_env] looks for:
    [os.environ.get("PYENV_ROOT") or str(Path.home() / ".pyenv")]. *)
Definition pyenv_root_of (h : host) (w : world) : string :=
  match dict_of environ_loc w !! "PYENV_ROOT" with
  | Some v => if is_empty v then path_join (h_home h) ".pyenv" else v
  | None => path_join (h_home h) ".pyenv"
  end.

(** A host after a manual installation: [~/.pyenv] exists, and object 1
    is the copy of [os.environ] that [main] holds as [raw_env]. *)
Definition pyenv_world : world :=
  World [] [] {[ "/home/u/.pyenv" := Dir true ]}
    {[ environ_loc := sample_environ; 1%nat := sample_environ ]} [].

(** The startup file [append_to_shell_rc_if_missing] edits. *)
Definition rc_path (h : host) (w : world) : string :=
  if endswith "zsh" (default "" (dict_of environ_loc w !! "SHELL"))
  then path_join (h_home h) ".zshrc"
  else path_join (h_home h) ".bashrc".

(** The initialization marker. *)
Definition init_marker : string := "pyenv init".

(** A home directory with a [.bashrc] that does not mention pyenv. *)
Definition bashrc_world : world :=
  world_with [] {[ "/home/u/.bashrc" := text_file "alias ll='ls -l'" ]}.

(** A home directory without startup files, in which the user may create
    files. *)
Definition fresh_home_world : world :=
  world_with [] {[ "/home/u" := Dir true ]}.

(** The query [pyenv versions --bare] as [ensure_version_installed]
    issues it from [w]. *)
Definition versions_bare_call (env : loc) (w : world) : invocation :=
  Invocation (Argv ["pyenv"; "versions"; "--bare"]) (Some (dict_of env w)) None true.

(** The set of installed versions the script derives from the answer to
    that query: the bare listing of a successful run, nothing when the
    query fails with a non-zero status; no set at all when the call
    raises something the script does not catch. *)
Definition installed_set (r : proc_result) : option (gset string) :=
  match r with
  | Exited status out => Some (if status =? 0 then bare_listing out else ∅)
  | Faulted e => if is_CalledProcessError e then Some ∅ else None
  end.

(** An invocation of the install subcommand for [version]. *)
Definition is_install_of (version : string) (i : invocation) : Prop :=
  inv_cmd i = Argv ["pyenv"; "install"; version].

(** The query [pyenv install --list] as [list_available_versions] issues
    it from [w]. *)
Definition listing_call (env : loc) (w : world) : invocation :=
  Invocation (Argv ["pyenv"; "install"; "--list"]) (Some (dict_of env w)) None true.

Definition retrieving_text : string :=
  ln "Retrieving available CPython versions from pyenv (this may take a few seconds)...".
Definition select_text : string := ln "Select a Python version to install:".
Definition hint_text : string :=
  ln "You can choose by number, or type an exact version (e.g. 3.12.4).".
Definition choice_prompt : string := "Your choice (or 'q' to quit): ".
Definition out_of_range_text : string := "Please enter a number from the list above.".


(** The world in which the picker asks for the first time: the listing
    has run and the menu for [versions] is on the screen. *)
Definition menu_world (h : host) (env : loc) (w : world) (versions : list string) : world :=
  foldl (fun u l => emit (Print l) u)
    (log_proc (listing_call env w)
       (set_fs (snd (h_exec h (listing_call env w) (w_fs w)))
          (emit (Print retrieving_text) w)))
    ([select_text] ++ menu_lines (last15 versions) ++ [hint_text]).

(** The world after one line has been read at a prompt. *)
Definition after_line (prompt : string) (rest : list tty_event) (u : world) : world :=
  set_in rest (emit (Ask prompt) u).


(** What [pyenv install --list] prints on the sample host: seventeen
    CPython releases among other lines. *)
Definition sample_listing : string :=
"Available versions:
  2.7.18
  3.5.10
  3.6.15
  3.7.17
  3.8.19
  3.9.19
  3.10.13
  3.10.14
  3.11.7
  3.11.8
  3.11.9
  3.12.0
  3.12.1
  3.12.2
  3.12.3
  3.12.4
  3.13.0
  3.14-dev
  pypy3.10-7.3.16
".

(** A host with pyenv: [pyenv versions --bare] lists 3.11.9 and 3.12.4,
    [pyenv install --list] prints [sample_listing]. *)
Definition pyenv_host : host :=
  Host "Linux" "/home/u" (fun name _ _ => String.eqb name "pyenv")
    (fun i fs =>
       match inv_cmd i with
       | Argv ["pyenv"; "versions"; "--bare"] => (Exited 0 "3.11.9
3.12.4
", fs)
       | Argv ["pyenv"; "install"; "--list"] => (Exited 0 sample_listing, fs)
       | _ => (Exited 0 "", fs)
       end).

(** The hint [ask_yes_no] puts after its question. *)
Definition ask_suffix (d : option bool) : string :=
  match d with
  | Some true => " [Y/n]: "
  | Some false => " [y/N]: "
  | None => " [y/n]: "
  end.

(** No constraint on how the world changes. *)
Definition anything (w w' : world) : Prop := True.

(** Every entry is a well-formed version identifier. *)
Definition well_formed (versions : list string) : Prop :=
  Forall (fun v => is_version v = true) versions.

(** ** The stages of [main]

    [main] is one sequence of statements; the exit-code policy speaks
    about how far a run gets.  The stages below name consecutive blocks
    of [main]: [startup] (banner, detection, copy of the environment),
    [setup] (the "Detected ..." line and the installation flow) and
    [wrap_up] (global default, demo project, closing line). *)

Definition startup (h : host) : M (string * loc) :=
  print_banner;;
  env_name <- detect_environment h;;
  raw_env <- environ_copy;;
  ret (env_name, raw_env).

Definition setup (h : host) (env_name : string) (raw_env : loc) : M loc :=
  (if String.eqb env_name "macos" then print "Detected macOS."
   else if String.eqb env_name "ubuntu" then print "Detected Ubuntu."
   else if String.eqb env_name "wsl_ubuntu" then
     print "Detected Ubuntu running under Windows Subsystem for Linux (WSL)."
   else ret tt);;
  ensure_pyenv_and_virtualenv h env_name raw_env.

Definition wrap_up (h : host) (version : string) (env : loc) : M unit :=
  maybe_set_global_version h version env;;
  demo <- ask_yes_no "Create a demo project using pyenv-virtualenv?" (Some true);;
  (if demo then create_demo_virtualenv h version env
   else print "Skipping demo virtualenv creation.");;
  print (ln "All done. You can re-run this script at any time to install other versions.").

(** [main], stage by stage. *)
Definition main_staged (h : host) : M Z :=
  p <- startup h;;
  if String.eqb (fst p) "windows" then
    print_windows_wsl_instructions;;
    ret 0
  else if String.eqb (fst p) "other" then
    print "This script currently supports macOS and Ubuntu (including Ubuntu under WSL).";;
    print "Your environment was detected as 'other'. Exiting.";;
    ret 1
  else
    env <- setup h (fst p) (snd p);;
    present <- command_exists h "pyenv" (Some env);;
    if negb present then ret 1
    else
      version <- prompt_for_version h env;;
      match version with
      | None | Some EmptyString =>
          print "No version selected. Exiting.";;
          ret 0
      | Some version =>
          installed <- ensure_version_installed h version env;;
          if negb installed then
            print "Could not install the requested Python version. Exiting.";;
            ret 1
          else
            wrap_up h version env;;
            ret 0
      end.

(** No child process is started. *)
Definition no_process (w w' : world) : Prop := w_procs w' = w_procs w.

(** A Windows host, and a terminal on which the user interrupts the
    first question. *)
Definition windows_host : host :=
  Host "Windows" "C:/Users/u" (fun _ _ _ => false) (fun _ fs => (Exited 0 "", fs)).

(* ===================================================================== *)
(** * Vocabulary for the properties of the remaining functions           *)
(* ===================================================================== *)

(** What [ask_yes_no] makes of one line: [Some b] when the round returns
    [b], [None] when the line is not understood. *)
Definition recognised (default : option bool) (raw : string) : option bool :=
  let ans := lower (strip raw) in
  match is_empty ans, default with
  | true, Some d => Some d
  | _, _ =>
      if one_of ans ["y"; "yes"] then Some true
      else if one_of ans ["n"; "no"] then Some false
      else None
  end.

(** A terminal event that [ask_yes_no] takes for a yes. *)
Definition consents (default : option bool) (ev : tty_event) : Prop :=
  match ev with
  | Line raw => recognised default raw = Some true
  | CtrlC => False
  end.

Definition answer_hint : string := "Please answer 'y' or 'n'.".

(** Every exception [m] can end in satisfies [ok]. *)
Definition raises_only {A} (ok : exn -> Prop) (m : M A) : Prop :=
  forall w e, fst (m w) = Raise e -> ok e.

(** Only the terminal is used: files, dict objects and the process log
    stay as they are. *)
Definition terminal_only (w w' : world) : Prop :=
  w_fs w' = w_fs w /\ w_heap w' = w_heap w /\ w_procs w' = w_procs w.

(** The output of [k] rounds of [ask_yes_no] that were not understood. *)
Fixpoint hints (text : string) (k : nat) : list out_event :=
  match k with
  | O => []
  | S k' => Ask text :: Print answer_hint :: hints text k'
  end.

(** End of input or an interrupt at a prompt. *)
Definition terminal_failure (e : exn) : Prop :=
  e = EOFError \/ e = KeyboardInterrupt.

(** Anything but the error of a child process that exits with a non-zero
    status. *)
Definition not_process_error (e : exn) : Prop := e <> CalledProcessError.

(** What [open(p).read()] finds at a path. *)
Definition readable_text (n : option node) (s : string) : Prop :=
  exists wr, n = Some (File true wr (Utf8 s)).

(** Opening the path for reading fails with an [OSError]: nothing is
    there, it is a directory, or reading is not permitted. *)
Definition cannot_open (n : option node) : Prop :=
  match n with
  | Some (File true _ _) => False
  | _ => True
  end.

(** The [PATH] entry [ensure_pyenv_in_env] leaves behind for the old
    value [p]: the [bin] directory of the root is put in front unless it
    occurs in [p] already. *)
Definition path_with_bin (bin p : string) : string :=
  if str_in bin p then p else bin +:+ ":" +:+ p.

(** No line still waiting on the terminal would be taken for a yes. *)
Definition no_consent (default : option bool) (w : world) : Prop :=
  Forall (fun ev => ~ consents default ev) (w_in w).

(** Neither a file nor the process log has changed. *)
Definition system_untouched (w w' : world) : Prop :=
  w_fs w' = w_fs w /\ w_procs w' = w_procs w.

(** What can end the picker's loop early: the terminal, or [int] on a
    line of digits it cannot read. *)
Definition prompt_failure (e : exn) : Prop :=
  terminal_failure e \/ e = ValueError.

(** The superscript two, a digit for [str.isdigit] and not for [int]. *)
Definition superscript_two : string := "²".

Definition invalid_choice_text : string :=
  "Please choose a valid number or a version like '3.12.4'.".

(** The call [pyenv install <version>] as [ensure_version_installed]
    issues it from [w]. *)
Definition install_call (version : string) (env : loc) (w : world) : invocation :=
  Invocation (Argv ["pyenv"; "install"; version]) (Some (dict_of env w)) None false.

(** The probe [pyenv virtualenv --help] as [create_demo_virtualenv]
    issues it from [w], and the demo directory. *)
Definition probe_call (env : loc) (w : world) : invocation :=
  Invocation (Argv ["pyenv"; "virtualenv"; "--help"]) (Some (dict_of env w)) None true.

Definition demo_dir_of (h : host) : string :=
  path_join (h_home h) "pyenv_virtualenv_demo".

(** A regular file sits at the path or at one of its ancestors, so that
    [mkdir(parents=True, exist_ok=True)] fails. *)
Definition file_in_the_way (fs : files) (p : string) : bool :=
  existsb (fun q => is_regular (fs !! q)) (path_parents p ++ [p]).

(** The paths the script itself may write: the two startup files, the
    plugin directory of pyenv and the demo directory, the last two with
    their ancestors. *)
Definition own_paths (h : host) : list string :=
  [path_join (h_home h) ".zshrc"; path_join (h_home h) ".bashrc"]
  ++ (path_parents (path_join (path_join (h_home h) ".pyenv") "plugins")
      ++ [path_join (path_join (h_home h) ".pyenv") "plugins"])
  ++ (path_parents (path_join (h_home h) "pyenv_virtualenv_demo")
      ++ [path_join (h_home h) "pyenv_virtualenv_demo"]).

(** Whatever changed in the file system is at one of those paths. *)
Definition writes_confined (h : host) (w w' : world) : Prop :=
  forall p, p ∉ own_paths h -> w_fs w' !! p = w_fs w !! p.

(** The child processes of the host leave the files alone. *)
Definition inert (h : host) : Prop :=
  forall inv fs, snd (h_exec h inv fs) = fs.

(* ===================================================================== *)
(** * Properties                                                         *)
(* ===================================================================== *)


(** ** Strings *)

(** Appending is unfolded by [simpl] in the proofs below. *)
#[local] Arguments String.append !s1 s2 : simpl nomatch.

Lemma app_empty_r (s : string) : s +:+ "" = s.
Proof. induction s as [|c s IH]; simpl; [reflexivity | now rewrite IH]. Qed.

Lemma app_assoc_str (a b c : string) : (a +:+ b) +:+ c = a +:+ b +:+ c.
Proof. induction a as [|x a IH]; simpl; [reflexivity | now rewrite IH]. Qed.

Lemma app_eq_empty (a b : string) : a +:+ b = "" -> a = "" /\ b = "".
Proof. destruct a; simpl; [auto | discriminate]. Qed.

Lemma app_eq_cons (a b s : string) (c : ascii) :
  a +:+ b = String c s ->
  (a = "" /\ b = String c s) \/ (exists a', a = String c a' /\ s = a' +:+ b).
Proof.
  destruct a as [|x a]; simpl; intros H.
  - left. auto.
  - right. injection H as -> <-. eauto.
Qed.

Lemma forallb_str_app (p : ascii -> bool) (a b : string) :
  forallb_str p (a +:+ b) = forallb_str p a && forallb_str p b.
Proof.
  induction a as [|c a IH]; simpl; [reflexivity|].
  rewrite IH. now rewrite andb_assoc.
Qed.

Lemma is_empty_true (s : string) : is_empty s = true <-> s = "".
Proof. destruct s; simpl; split; congruence. Qed.

Lemma is_empty_false (s : string) : is_empty s = false <-> s <> "".
Proof. destruct s; simpl; split; congruence. Qed.

(** *** The first byte of a lowered text *)

Lemma code_byte (n : N) : (n < 256)%N -> code (ascii_of_N n) = n.
Proof. intros H. unfold code. now apply N_ascii_embedding. Qed.

Lemma two_bound (b c1 : ascii) (cp : N) : two b c1 = Some cp -> (128 <= cp)%N.
Proof.
  unfold two, between. destruct (_ && _) eqn:E; [|discriminate].
  intros [= <-]. apply andb_true_iff in E as [E _].
  apply andb_true_iff in E as [E _]. apply N.leb_le in E. lia.
Qed.

Lemma three_bound (b c1 c2 : ascii) (cp : N) :
  three b c1 c2 = Some cp -> (128 <= cp)%N.
Proof.
  unfold three. cbv zeta. destruct (_ && _) eqn:E; [|discriminate].
  intros [= <-]. apply andb_true_iff in E as [E _].
  apply andb_true_iff in E as [_ E]. apply N.leb_le in E. lia.
Qed.

Lemma four_bound (b c1 c2 c3 : ascii) (cp : N) :
  four b c1 c2 c3 = Some cp -> (128 <= cp)%N.
Proof.
  unfold four, within. cbv zeta. destruct (_ && _) eqn:E; [|discriminate].
  intros [= <-]. apply andb_true_iff in E as [_ E].
  apply andb_true_iff in E as [E _]. apply N.leb_le in E. lia.
Qed.

(** The first character of a text: an ASCII byte is a character of its
    own; any other first byte opens a character above ASCII. *)
Lemma chunks_head (b : ascii) (s : string) :
  exists cp bytes rest,
    chunks (String b s) = (cp, String b bytes) :: rest
    /\ (if (code b <? 128)%N then cp = code b else (128 <= cp)%N).
Proof.
  cbn [chunks]. destruct (code b <? 128)%N eqn:Hb; [unfold char; eauto|].
  assert (Hbad : (128 <= escaped b)%N) by (unfold escaped; lia).
  destruct s as [|c1 s2]; [unfold char; eauto|].
  destruct (two b c1) as [cp|] eqn:H2;
    [apply two_bound in H2; unfold char; eauto|].
  destruct s2 as [|c2 s3]; [unfold char; eauto|].
  destruct (three b c1 c2) as [cp|] eqn:H3;
    [apply three_bound in H3; unfold char; eauto|].
  destruct s3 as [|c3 s4]; [unfold char; eauto|].
  destruct (four b c1 c2 c3) as [cp|] eqn:H4;
    [apply four_bound in H4|]; unfold char; eauto.
Qed.

Lemma lower_target_image (runs : list (N * N * N * N)) (c t : N) :
  forallb (fun r => match r with
                    | (lo, hi, _, target) =>
                        (128 <=? target)%N && (target + (hi - lo) <=? 1114111)%N
                    end) runs = true ->
  lower_target c runs = Some t -> (128 <= t <= 1114111)%N.
Proof.
  induction runs as [|[[[lo hi] step] target] runs IH]; [discriminate|].
  cbn [forallb lower_target]. intros Hall.
  apply andb_true_iff in Hall as [Hr Hall].
  apply andb_true_iff in Hr as [H1 H2].
  apply N.leb_le in H1, H2.
  destruct (within lo hi c && _) eqn:E; [|now apply IH].
  intros [= <-]. apply andb_true_iff in E as [E _].
  unfold within in E. apply andb_true_iff in E as [E1 E2].
  apply N.leb_le in E1, E2. lia.
Qed.

Lemma encode_head (t : N) :
  (128 <= t <= 1114111)%N ->
  exists x r, encode_cp t = String x r /\ (128 <= code x)%N.
Proof.
  intros [Hlo Hhi]. unfold encode_cp.
  destruct (t <? 128)%N eqn:E1; [apply N.ltb_lt in E1; lia|].
  destruct (t <? 2048)%N eqn:E2; [|destruct (t <? 65536)%N eqn:E3].
  - apply N.ltb_lt in E2. eexists _, _. split; [reflexivity|].
    assert (H : (t / 64 < 32)%N) by (apply N.Div0.div_lt_upper_bound; lia).
    revert H. generalize (t / 64)%N. intros q H. rewrite code_byte; lia.
  - apply N.ltb_lt in E3. eexists _, _. split; [reflexivity|].
    assert (H : (t / 4096 < 16)%N) by (apply N.Div0.div_lt_upper_bound; lia).
    revert H. generalize (t / 4096)%N. intros q H. rewrite code_byte; lia.
  - eexists _, _. split; [reflexivity|].
    assert (H : (t / 262144 < 5)%N) by (apply N.Div0.div_lt_upper_bound; lia).
    revert H. generalize (t / 262144)%N. intros q H. rewrite code_byte; lia.
Qed.

Lemma lower_sigma_head (before : bool) (after : list N) :
  exists x t, lower_sigma before after = String x t /\ (128 <= code x)%N.
Proof.
  unfold lower_sigma. destruct (before && negb (cased_next after));
    eexists _, _; (split; [reflexivity | vm_compute; discriminate]).
Qed.

(** The first byte of a lowered text: the lowered first byte when that
    is ASCII; otherwise a byte above ASCII, or the i or k that the two
    special characters leave. *)
Lemma lower_from_head (before : bool) (b : ascii) (s : string) :
  exists x t,
    lower_from before (chunks (String b s)) = String x t
    /\ (if (code b <? 128)%N
        then x = low b
        else (128 <= code x)%N \/ x = "i"%char \/ x = "k"%char).
Proof.
  destruct (chunks_head b s) as (cp & bytes & rest & Hc & Hcp).
  rewrite Hc. cbn [lower_from fst].
  destruct (code b <? 128)%N eqn:Hb.
  - subst cp. apply N.ltb_lt in Hb.
    replace (code b =? sigma)%N with false
      by (symmetry; apply N.eqb_neq; unfold sigma; lia).
    apply N.ltb_lt in Hb. cbn [lower_chunk]. rewrite Hb.
    unfold char. cbn [String.append]. eauto.
  - destruct (cp =? sigma)%N.
    { destruct (lower_sigma_head before (fst <$> rest)) as (x & t & -> & Hx).
      cbn [String.append]. eauto. }
    assert (Hn : (cp <? 128)%N = false) by (apply N.ltb_ge; exact Hcp).
    cbn [lower_chunk]. rewrite Hn.
    destruct (cp =? 304)%N; [eexists _, _; split; [reflexivity | auto]|].
    destruct (cp =? 8490)%N; [eexists _, _; split; [reflexivity | auto]|].
    destruct (lower_target cp lower_runs) as [t|] eqn:Ht.
    + apply lower_target_image in Ht; [|vm_compute; reflexivity].
      destruct (encode_head t Ht) as (x & r & -> & Hx).
      cbn [String.append]. eauto.
    + cbn [String.append]. eexists _, _. split; [reflexivity|].
      left. apply N.ltb_ge in Hb. exact Hb.
Qed.

Lemma lower_head (b : ascii) (s : string) :
  exists x t,
    lower (String b s) = String x t
    /\ (if (code b <? 128)%N
        then x = low b
        else (128 <= code x)%N \/ x = "i"%char \/ x = "k"%char).
Proof. apply lower_from_head. Qed.

(** *** Reading in text mode *)

Lemma high_plain (c : ascii) : high c = true -> plain c = true.
Proof.
  unfold high, plain. intros H. apply N.leb_le in H.
  destruct (Ascii.eqb_spec c cr) as [->|_]; [vm_compute in H; now contradiction H|].
  destruct (Ascii.eqb_spec c nl) as [->|_]; [vm_compute in H; now contradiction H|].
  reflexivity.
Qed.

Lemma forallb_str_impl (p q : ascii -> bool) (s : string) :
  (forall c, p c = true -> q c = true) ->
  forallb_str p s = true -> forallb_str q s = true.
Proof.
  intros Hpq. induction s as [|c s IH]; [reflexivity|]. cbn [forallb_str].
  intros H. apply andb_true_iff in H as [H1 H2].
  now rewrite (Hpq c H1), IH.
Qed.

Lemma universal_newlines_cons (c : ascii) (s : string) :
  Ascii.eqb c cr = false ->
  universal_newlines (String c s) = String c (universal_newlines s).
Proof. intros H. cbn [universal_newlines]. now rewrite H. Qed.

Lemma universal_newlines_head (c : ascii) (s : string) :
  exists t, universal_newlines (String c s)
            = String (if Ascii.eqb c cr then nl else c) t.
Proof.
  cbn [universal_newlines]. destruct (Ascii.eqb c cr); [|eauto].
  destruct s as [|d s]; [unfold char; eauto|].
  destruct (Ascii.eqb d nl) eqn:Hd; [|eauto].
  apply Ascii.eqb_eq in Hd as ->. cbn [universal_newlines].
  change (Ascii.eqb nl cr) with false. cbv iota. eauto.
Qed.

Lemma universal_newlines_app (pre rest : string) :
  forallb_str plain pre = true ->
  universal_newlines (pre +:+ rest) = pre +:+ universal_newlines rest.
Proof.
  induction pre as [|c pre IH]; [reflexivity|]. cbn [forallb_str]. intros H.
  apply andb_true_iff in H as [Hc Hpre].
  change (String c pre +:+ rest) with (String c (pre +:+ rest)).
  unfold plain in Hc. apply andb_true_iff in Hc as [Hc _].
  apply negb_true_iff in Hc.
  rewrite universal_newlines_cons by exact Hc. rewrite (IH Hpre). reflexivity.
Qed.

Lemma startswith_universal_newlines (m t : string) :
  forallb_str plain m = true ->
  startswith m (universal_newlines t) = startswith m t.
Proof.
  revert t. induction m as [|a m IH]; intros t H; [reflexivity|].
  cbn [forallb_str] in H. apply andb_true_iff in H as [Ha Hm].
  unfold plain in Ha. apply andb_true_iff in Ha as [Hcr Hnl].
  apply negb_true_iff in Hcr, Hnl.
  destruct t as [|d t]; [reflexivity|].
  destruct (Ascii.eqb d cr) eqn:Hd.
  - destruct (universal_newlines_head d t) as [t' Ht]. rewrite Ht, Hd.
    apply Ascii.eqb_eq in Hd as ->. cbn [startswith]. now rewrite Hcr, Hnl.
  - rewrite universal_newlines_cons by exact Hd. cbn [startswith].
    now rewrite IH.
Qed.

(** A text without line ends occurs in what is read exactly when it
    occurs in the bytes of the file. *)
Lemma str_in_universal_newlines (m s : string) :
  is_empty m = false ->
  forallb_str plain m = true ->
  str_in m (universal_newlines s) = str_in m s.
Proof.
  intros Hne Hm. induction s as [|d t IH]; [reflexivity|].
  destruct (Ascii.eqb d cr) eqn:Hd.
  - assert (Hno : forall x u, (x = cr \/ x = nl) -> startswith m (String x u) = false).
    { destruct m as [|a m]; [discriminate Hne|]. cbn [forallb_str] in Hm.
      apply andb_true_iff in Hm as [Ha _]. unfold plain in Ha.
      apply andb_true_iff in Ha as [Hcr Hnl]. apply negb_true_iff in Hcr, Hnl.
      intros x u [-> | ->]; cbn [startswith]; now rewrite ?Hcr, ?Hnl. }
    apply Ascii.eqb_eq in Hd as ->.
    cbn [str_in]. rewrite (Hno cr t) by now left. cbn [orb].
    cbn [universal_newlines]. change (Ascii.eqb cr cr) with true. cbv iota.
    destruct t as [|e t];
      [unfold char; cbn [str_in]; now rewrite (Hno nl "") by now right|].
    destruct (Ascii.eqb e nl); [exact IH|].
    cbn [str_in]. rewrite (Hno nl _) by now right. exact IH.
  - rewrite universal_newlines_cons by exact Hd.
    cbn [str_in]. rewrite IH. f_equal.
    rewrite <- (universal_newlines_cons d t Hd).
    now apply startswith_universal_newlines.
Qed.

(** *** Letter case and line ends *)

Lemma lower_from_cons_ascii (before : bool) (b : ascii) (s : string) :
  (code b <? 128)%N = true ->
  lower_from before (chunks (String b s))
  = String (low b) (lower_from (cased_before before (code b)) (chunks s)).
Proof.
  intros Hb. cbn [chunks]. rewrite Hb. cbn [lower_from fst].
  replace (code b =? sigma)%N with false
    by (symmetry; apply N.eqb_neq; apply N.ltb_lt in Hb; unfold sigma; lia).
  cbn [lower_chunk]. rewrite Hb. reflexivity.
Qed.

Lemma decode_cons_ascii (b : ascii) (s : string) :
  (code b <? 128)%N = true -> decode (String b s) = code b :: decode s.
Proof. intros Hb. unfold decode. cbn [chunks]. now rewrite Hb. Qed.

(** A line end is no letter and belongs to no word. *)
Lemma cased_before_cr (before : bool) : cased_before before (code cr) = false.
Proof. reflexivity. Qed.

Lemma cased_before_nl (before : bool) : cased_before before (code nl) = false.
Proof. reflexivity. Qed.

Lemma low_line_end (b : ascii) :
  Ascii.eqb (low b) cr = Ascii.eqb b cr /\ Ascii.eqb (low b) nl = Ascii.eqb b nl.
Proof. destruct b as [[] [] [] [] [] [] [] []]; vm_compute; split; reflexivity. Qed.

Lemma cont_high (c : ascii) : is_cont c = true -> high c = true.
Proof.
  unfold is_cont, between, high. intros H. now apply andb_true_iff in H as [H _].
Qed.

Lemma cont_not_cr (c : ascii) : is_cont c = true -> Ascii.eqb c cr = false.
Proof.
  intros H. apply cont_high, high_plain in H. unfold plain in H.
  apply andb_true_iff in H as [H _]. now apply negb_true_iff in H.
Qed.

Lemma universal_newlines_cont (c : ascii) (s : string) :
  is_cont c = true ->
  universal_newlines (String c s) = String c (universal_newlines s).
Proof. intros H. apply universal_newlines_cons. now apply cont_not_cr. Qed.

(** What follows a byte that continues nothing stays such a byte when
    the line ends are translated. *)
Lemma universal_newlines_stop (c : ascii) (s : string) :
  is_cont c = false ->
  exists c' t, universal_newlines (String c s) = String c' t /\ is_cont c' = false.
Proof.
  intros H. destruct (universal_newlines_head c s) as [t Ht].
  eexists _, t. split; [exact Ht|]. now destruct (Ascii.eqb c cr).
Qed.

Lemma two_stop (b c1 : ascii) : is_cont c1 = false -> two b c1 = None.
Proof. intros H. unfold two. now rewrite H, andb_false_r. Qed.

Lemma three_stop1 (b c1 c2 : ascii) : is_cont c1 = false -> three b c1 c2 = None.
Proof. intros H. unfold three. cbv zeta. now rewrite H, andb_false_r. Qed.

Lemma three_stop2 (b c1 c2 : ascii) : is_cont c2 = false -> three b c1 c2 = None.
Proof. intros H. unfold three. cbv zeta. now rewrite H, andb_false_r. Qed.

Lemma four_stop1 (b c1 c2 c3 : ascii) : is_cont c1 = false -> four b c1 c2 c3 = None.
Proof. intros H. unfold four. cbv zeta. now rewrite H, andb_false_r. Qed.

Lemma four_stop2 (b c1 c2 c3 : ascii) : is_cont c2 = false -> four b c1 c2 c3 = None.
Proof. intros H. unfold four. cbv zeta. now rewrite H, andb_false_r. Qed.

Lemma four_stop3 (b c1 c2 c3 : ascii) : is_cont c3 = false -> four b c1 c2 c3 = None.
Proof. intros H. unfold four. cbv zeta. now rewrite H, andb_false_r. Qed.

(** A byte above ASCII that the bytes after it do not complete is a
    character of its own. *)
Lemma chunks_stop1 (b c1 : ascii) (s2 : string) :
  (code b <? 128)%N = false -> is_cont c1 = false ->
  chunks (String b (String c1 s2)) = (escaped b, char b) :: chunks (String c1 s2).
Proof.
  intros Hb H1. cbn [chunks]. rewrite Hb, (two_stop b c1 H1).
  destruct s2 as [|c2 s3]; [reflexivity|]. rewrite (three_stop1 b c1 c2 H1).
  destruct s3 as [|c3 s4]; [reflexivity|]. now rewrite (four_stop1 b c1 c2 c3 H1).
Qed.

Lemma chunks_stop2 (b c1 c2 : ascii) (s3 : string) :
  (code b <? 128)%N = false -> two b c1 = None -> is_cont c2 = false ->
  chunks (String b (String c1 (String c2 s3)))
  = (escaped b, char b) :: chunks (String c1 (String c2 s3)).
Proof.
  intros Hb H1 H2. cbn [chunks]. rewrite Hb, H1, (three_stop2 b c1 c2 H2).
  destruct s3 as [|c3 s4]; [reflexivity|]. now rewrite (four_stop2 b c1 c2 c3 H2).
Qed.

Lemma chunks_stop3 (b c1 c2 c3 : ascii) (s4 : string) :
  (code b <? 128)%N = false -> two b c1 = None -> three b c1 c2 = None ->
  is_cont c3 = false ->
  chunks (String b (String c1 (String c2 (String c3 s4))))
  = (escaped b, char b) :: chunks (String c1 (String c2 (String c3 s4))).
Proof.
  intros Hb H1 H2 H3. cbn [chunks].
  now rewrite Hb, H1, H2, (four_stop3 b c1 c2 c3 H3).
Qed.

(** The character that a byte above ASCII begins is the same before and
    after the line ends are translated, and so is what follows it. *)
Lemma chunks_lead (b : ascii) (s : string) :
  (code b <? 128)%N = false ->
  exists cp pre rest,
    chunks (String b s) = (cp, pre) :: chunks rest
    /\ chunks (String b (universal_newlines s))
       = (cp, pre) :: chunks (universal_newlines rest)
    /\ (128 <= cp)%N
    /\ forallb_str high pre = true
    /\ (String.length rest <= String.length s)%nat.
Proof.
  intros Hb.
  assert (Hh : high b = true) by (unfold high; apply N.leb_le; now apply N.ltb_ge).
  assert (Hbad : (128 <= escaped b)%N) by (unfold escaped; lia).
  assert (Hpre : forallb_str high (char b) = true)
    by (unfold char; cbn [forallb_str]; now rewrite Hh).
  destruct s as [|c1 s2].
  { exists (escaped b), (char b), "". cbn [chunks universal_newlines].
    rewrite Hb. repeat split; (assumption || lia). }
  destruct (is_cont c1) eqn:H1; cycle 1.
  { exists (escaped b), (char b), (String c1 s2).
    destruct (universal_newlines_stop c1 s2 H1) as (c1' & t & Hu & H1').
    rewrite Hu, (chunks_stop1 b c1 s2 Hb H1), (chunks_stop1 b c1' t Hb H1').
    repeat split; (assumption || lia). }
  rewrite (universal_newlines_cont c1 s2 H1).
  destruct (two b c1) as [cp|] eqn:T2.
  { exists cp, (String b (char c1)), s2. cbn [chunks]. rewrite Hb, T2.
    repeat split; [now apply two_bound in T2 | | cbn [String.length]; lia].
    unfold char. cbn [forallb_str]. now rewrite Hh, (cont_high c1 H1). }
  destruct s2 as [|c2 s3].
  { exists (escaped b), (char b), (String c1 "").
    rewrite (universal_newlines_cont c1 "" H1). cbn [chunks universal_newlines].
    rewrite Hb, T2. repeat split; (assumption || lia). }
  destruct (is_cont c2) eqn:H2; cycle 1.
  { exists (escaped b), (char b), (String c1 (String c2 s3)).
    rewrite (universal_newlines_cont c1 _ H1).
    destruct (universal_newlines_stop c2 s3 H2) as (c2' & t & Hu & H2').
    rewrite Hu, (chunks_stop2 b c1 c2 s3 Hb T2 H2), (chunks_stop2 b c1 c2' t Hb T2 H2').
    repeat split; (assumption || lia). }
  rewrite (universal_newlines_cont c2 s3 H2).
  destruct (three b c1 c2) as [cp|] eqn:T3.
  { exists cp, (String b (String c1 (char c2))), s3. cbn [chunks]. rewrite Hb, T2, T3.
    repeat split; [now apply three_bound in T3 | | cbn [String.length]; lia].
    unfold char. cbn [forallb_str].
    now rewrite Hh, (cont_high c1 H1), (cont_high c2 H2). }
  destruct s3 as [|c3 s4].
  { exists (escaped b), (char b), (String c1 (String c2 "")).
    rewrite (universal_newlines_cont c1 _ H1), (universal_newlines_cont c2 "" H2).
    cbn [chunks universal_newlines].
    rewrite Hb, T2, T3. repeat split; (assumption || lia). }
  destruct (is_cont c3) eqn:H3; cycle 1.
  { exists (escaped b), (char b), (String c1 (String c2 (String c3 s4))).
    rewrite (universal_newlines_cont c1 _ H1), (universal_newlines_cont c2 _ H2).
    destruct (universal_newlines_stop c3 s4 H3) as (c3' & t & Hu & H3').
    rewrite Hu, (chunks_stop3 b c1 c2 c3 s4 Hb T2 T3 H3),
      (chunks_stop3 b c1 c2 c3' t Hb T2 T3 H3').
    repeat split; (assumption || lia). }
  rewrite (universal_newlines_cont c3 s4 H3).
  destruct (four b c1 c2 c3) as [cp|] eqn:T4.
  - exists cp, (String b (String c1 (String c2 (char c3)))), s4.
    cbn [chunks]. rewrite Hb, T2, T3, T4.
    repeat split; [now apply four_bound in T4 | | cbn [String.length]; lia].
    unfold char. cbn [forallb_str].
    now rewrite Hh, (cont_high c1 H1), (cont_high c2 H2), (cont_high c3 H3).
  - exists (escaped b), (char b), (String c1 (String c2 (String c3 s4))).
    rewrite (universal_newlines_cont c1 _ H1), (universal_newlines_cont c2 _ H2),
      (universal_newlines_cont c3 _ H3).
    cbn [chunks]. rewrite Hb, T2, T3, T4. repeat split; (assumption || lia).
Qed.

Lemma encode_high (t : N) :
  (128 <= t <= 1114111)%N -> forallb_str high (encode_cp t) = true.
Proof.
  intros [Hlo Hhi].
  assert (Hc : forall x, high (ascii_of_N (128 + x mod 64)) = true).
  { intros x. unfold high. apply N.leb_le.
    assert (H : (x mod 64 < 64)%N) by (apply N.mod_lt; discriminate).
    revert H. generalize (x mod 64)%N. intros r H. rewrite code_byte; lia. }
  unfold encode_cp.
  destruct (t <? 128)%N eqn:E1; [apply N.ltb_lt in E1; lia|].
  destruct (t <? 2048)%N eqn:E2; [|destruct (t <? 65536)%N eqn:E3];
    unfold char; cbn [forallb_str]; rewrite !Hc, ?andb_true_r; unfold high;
    apply N.leb_le.
  - apply N.ltb_lt in E2.
    assert (H : (t / 64 < 32)%N) by (apply N.Div0.div_lt_upper_bound; lia).
    revert H. generalize (t / 64)%N. intros q H. rewrite code_byte; lia.
  - apply N.ltb_lt in E3.
    assert (H : (t / 4096 < 16)%N) by (apply N.Div0.div_lt_upper_bound; lia).
    revert H. generalize (t / 4096)%N. intros q H. rewrite code_byte; lia.
  - assert (H : (t / 262144 < 5)%N) by (apply N.Div0.div_lt_upper_bound; lia).
    revert H. generalize (t / 262144)%N. intros q H. rewrite code_byte; lia.
Qed.

(** Lowering a character above ASCII gives no line end. *)
Lemma lower_chunk_plain (cp : N) (pre : string) :
  (128 <= cp)%N -> forallb_str high pre = true ->
  forallb_str plain (lower_chunk (cp, pre)) = true.
Proof.
  intros Hcp Hpre. cbn [lower_chunk].
  replace (cp <? 128)%N with false by (symmetry; now apply N.ltb_ge).
  destruct (cp =? 304)%N; [vm_compute; reflexivity|].
  destruct (cp =? 8490)%N; [vm_compute; reflexivity|].
  destruct (lower_target cp lower_runs) as [t|] eqn:Ht.
  - apply lower_target_image in Ht; [|vm_compute; reflexivity].
    apply (forallb_str_impl high); [exact high_plain | now apply encode_high].
  - now apply (forallb_str_impl high); [exact high_plain|].
Qed.

Lemma lower_sigma_plain (before : bool) (after : list N) :
  forallb_str plain (lower_sigma before after) = true.
Proof. unfold lower_sigma. now destruct (before && negb (cased_next after)). Qed.

Lemma universal_newlines_cr_nl (s : string) :
  universal_newlines (String cr (String nl s)) = universal_newlines (String nl s).
Proof. reflexivity. Qed.

Lemma universal_newlines_cr (d : ascii) (s : string) :
  Ascii.eqb d nl = false ->
  universal_newlines (String cr (String d s))
  = String nl (universal_newlines (String d s)).
Proof.
  intros H. change (universal_newlines (String cr (String d s)))
    with (if Ascii.eqb d nl then universal_newlines (String d s)
          else String nl (universal_newlines (String d s))).
  now rewrite H.
Qed.

(** Whether a cased letter comes next does not depend on how the line
    ends are written. *)
Lemma cased_next_universal_newlines_upto (n : nat) (s : string) :
  (String.length s <= n)%nat ->
  cased_next (decode (universal_newlines s)) = cased_next (decode s).
Proof.
  revert s. induction n as [|n IH]; intros s Hn.
  { destruct s; [reflexivity | cbn [String.length] in Hn; lia]. }
  destruct s as [|b s]; [reflexivity|]. cbn [String.length] in Hn.
  destruct (code b <? 128)%N eqn:Hb.
  - destruct (Ascii.eqb b cr) eqn:Hcr.
    + apply Ascii.eqb_eq in Hcr as ->.
      destruct (universal_newlines_head cr s) as [t Ht]. rewrite Ht.
      change (Ascii.eqb cr cr) with true. cbv iota.
      now rewrite !decode_cons_ascii by reflexivity.
    + rewrite (universal_newlines_cons b s Hcr).
      rewrite !(decode_cons_ascii b _ Hb). cbn [cased_next].
      rewrite IH by lia. reflexivity.
  - assert (Hcr : Ascii.eqb b cr = false).
    { apply Ascii.eqb_neq. intros ->. discriminate Hb. }
    rewrite (universal_newlines_cons b s Hcr).
    destruct (chunks_lead b s Hb) as (cp & pre & rest & H1 & H2 & Hcp & Hpre & Hlen).
    unfold decode. rewrite H1, H2. cbn [fmap list_fmap fst cased_next].
    fold (decode (universal_newlines rest)). fold (decode rest).
    rewrite IH by lia. reflexivity.
Qed.

Lemma lower_sigma_universal_newlines (before : bool) (s : string) :
  lower_sigma before (decode (universal_newlines s)) = lower_sigma before (decode s).
Proof.
  unfold lower_sigma.
  now rewrite (cased_next_universal_newlines_upto (String.length s)).
Qed.

Lemma lower_from_universal_newlines_upto (n : nat) (s : string) (before : bool) :
  (String.length s <= n)%nat ->
  lower_from before (chunks (universal_newlines s))
  = universal_newlines (lower_from before (chunks s)).
Proof.
  revert s before. induction n as [|n IH]; intros s before Hn.
  { destruct s; [reflexivity | cbn [String.length] in Hn; lia]. }
  destruct s as [|b s]; [reflexivity|]. cbn [String.length] in Hn.
  destruct (code b <? 128)%N eqn:Hb.
  - destruct (low_line_end b) as [Hlcr Hlnl].
    destruct (Ascii.eqb b cr) eqn:Hcr.
    + apply Ascii.eqb_eq in Hcr as ->.
      rewrite (lower_from_cons_ascii before cr s eq_refl).
      change (low cr) with cr. rewrite cased_before_cr.
      destruct s as [|d s]; [reflexivity|].
      destruct (Ascii.eqb d nl) eqn:Hd.
      * apply Ascii.eqb_eq in Hd as ->.
        rewrite universal_newlines_cr_nl.
        rewrite IH by (cbn [String.length] in *; lia).
        rewrite (lower_from_cons_ascii before nl s eq_refl),
          (lower_from_cons_ascii false nl s eq_refl).
        change (low nl) with nl. rewrite !cased_before_nl.
        now rewrite universal_newlines_cr_nl.
      * rewrite (universal_newlines_cr d s Hd).
        rewrite (lower_from_cons_ascii before nl _ eq_refl). change (low nl) with nl.
        rewrite cased_before_nl.
        destruct (lower_from_head false d s) as (x & t & Hl & Hx).
        assert (Hxn : Ascii.eqb x nl = false).
        { destruct (code d <? 128)%N.
          - subst x. destruct (low_line_end d) as [_ ->]. exact Hd.
          - destruct Hx as [Hx|[-> | ->]]; [|reflexivity..].
            apply Ascii.eqb_neq. intros ->. vm_compute in Hx. now contradiction Hx. }
        rewrite Hl, (universal_newlines_cr x t Hxn), <- Hl.
        f_equal. apply IH. cbn [String.length] in *. lia.
    + rewrite (universal_newlines_cons b s Hcr).
      rewrite !(lower_from_cons_ascii before b _ Hb).
      rewrite universal_newlines_cons by now rewrite Hlcr.
      f_equal. apply IH. lia.
  - assert (Hcr : Ascii.eqb b cr = false).
    { apply Ascii.eqb_neq. intros ->. discriminate Hb. }
    rewrite (universal_newlines_cons b s Hcr).
    destruct (chunks_lead b s Hb) as (cp & pre & rest & H1 & H2 & Hcp & Hpre & Hlen).
    rewrite H1, H2. cbn [lower_from fst].
    fold (decode (universal_newlines rest)). fold (decode rest).
    rewrite lower_sigma_universal_newlines.
    rewrite universal_newlines_app.
    + f_equal. apply IH. lia.
    + destruct (cp =? sigma)%N;
        [apply lower_sigma_plain | now apply lower_chunk_plain].
Qed.

(** Lowering and the translation of line ends commute. *)
Lemma lower_universal_newlines (s : string) :
  lower (universal_newlines s) = universal_newlines (lower s).
Proof. now apply (lower_from_universal_newlines_upto (String.length s)). Qed.

(** A text without line ends occurs in the lowered text that was read
    exactly when it occurs in the lowered bytes of the file. *)
Lemma marker_universal_newlines (m s : string) :
  is_empty m = false ->
  forallb_str plain m = true ->
  str_in m (lower (universal_newlines s)) = str_in m (lower s).
Proof.
  intros Hne Hm. rewrite lower_universal_newlines.
  now apply str_in_universal_newlines.
Qed.

(** The markers that the script looks for are found in what is read
    exactly when they are in the bytes of the file. *)
Lemma has_wsl_marker_read (s : string) :
  has_wsl_marker (universal_newlines s) = has_wsl_marker s.
Proof.
  unfold has_wsl_marker.
  now rewrite !marker_universal_newlines by reflexivity.
Qed.

Lemma has_ubuntu_marker_read (s : string) :
  has_ubuntu_marker (universal_newlines s) = has_ubuntu_marker s.
Proof.
  unfold has_ubuntu_marker.
  now rewrite marker_universal_newlines by reflexivity.
Qed.

Lemma init_marker_read (s : string) :
  str_in init_marker (universal_newlines s) = str_in init_marker s.
Proof. now apply str_in_universal_newlines. Qed.

(** ** Regular expressions: the matcher decides the language *)

Lemma list_app_eq_cons {A} (a b l : list A) (c : A) :
  a ++ b = c :: l ->
  (a = [] /\ b = c :: l) \/ (exists a', a = c :: a' /\ l = a' ++ b).
Proof.
  destruct a as [|x a]; simpl; intros H.
  - left. auto.
  - right. injection H as -> <-. eauto.
Qed.

Lemma nullable_spec (r : regex) : nullable r = true <-> Matches r [].
Proof.
  induction r as [| |p|r1 IH1 r2 IH2|r1 IH1 r2 IH2|r IH]; simpl.
  - split; [discriminate | inversion 1].
  - split; [constructor | reflexivity].
  - split; [discriminate | inversion 1].
  - rewrite andb_true_iff, IH1, IH2. split.
    + intros [H1 H2]. apply (MCat _ _ [] []); assumption.
    + inversion 1 as [| |? ? l1 l2 H1 H2 E1 E2| | | |]; subst.
      apply app_eq_nil in E2 as [-> ->]. auto.
  - rewrite orb_true_iff, IH1, IH2. split.
    + intros [H|H]; [apply MAltL | apply MAltR]; assumption.
    + inversion 1; subst; auto.
  - split; [constructor | reflexivity].
Qed.

Lemma star_cons_inv (r : regex) (c : N) (l : list N) :
  Matches (Star r) (c :: l) ->
  exists l1 l2, l = l1 ++ l2 /\ Matches r (c :: l1) /\ Matches (Star r) l2.
Proof.
  intros H. remember (Star r) as r' eqn:Er. remember (c :: l) as t eqn:Et.
  revert l Et. induction H as [| | | | | |r0 l1 l2 H1 _ H2 IH2]; try discriminate.
  injection Er as ->. intros l Et.
  apply list_app_eq_cons in Et as [[-> ->]|(a' & -> & ->)].
  - apply IH2; reflexivity.
  - exists a', l2. auto.
Qed.

Lemma deriv_spec (r : regex) (c : N) (l : list N) :
  Matches (deriv c r) l <-> Matches r (c :: l).
Proof.
  revert l.
  induction r as [| |p|r1 IH1 r2 IH2|r1 IH1 r2 IH2|r IH]; simpl; intros l.
  - split; inversion 1.
  - split; inversion 1.
  - destruct (p c) eqn:Hp; split.
    + inversion 1; subst. now apply (MClass p c).
    + inversion 1; subst. constructor.
    + inversion 1.
    + inversion 1; subst. congruence.
  - assert (Hcat : Matches (Cat (deriv c r1) r2) l ->
                   Matches (Cat r1 r2) (c :: l)).
    { inversion 1 as [| |? ? l1 l2 H1 H2| | | |]; subst.
      apply IH1 in H1. apply (MCat _ _ (c :: l1) l2); assumption. }
    assert (Hinv : Matches (Cat r1 r2) (c :: l) ->
                   Matches (Cat (deriv c r1) r2) l
                   \/ (Matches r1 [] /\ Matches (deriv c r2) l)).
    { inversion 1 as [| |? ? l1 l2 H1 H2 E1 E2| | | |]; subst.
      apply list_app_eq_cons in E2 as [[-> ->]|(a' & -> & ->)].
      - right. split; [assumption | now apply IH2].
      - left. apply MCat; [now apply IH1 | assumption]. }
    destruct (nullable r1) eqn:Hn; split.
    + inversion 1; subst; [now apply Hcat|].
      apply nullable_spec in Hn.
      apply (MCat _ _ [] (c :: l)); [assumption | now apply IH2].
    + intros H. apply Hinv in H as [H|[_ H]]; [now apply MAltL | now apply MAltR].
    + apply Hcat.
    + intros H. apply Hinv in H as [H|[H _]]; [assumption|].
      apply nullable_spec in H. congruence.
  - split.
    + inversion 1; subst; [apply MAltL; now apply IH1 | apply MAltR; now apply IH2].
    + inversion 1; subst; [apply MAltL; now apply IH1 | apply MAltR; now apply IH2].
  - split.
    + inversion 1 as [| |? ? l1 l2 H1 H2| | | |]; subst.
      apply IH in H1. apply (MStarApp _ (c :: l1) l2); assumption.
    + intros H. apply star_cons_inv in H as (l1 & l2 & -> & H1 & H2).
      apply MCat; [now apply IH | assumption].
Qed.

Lemma matches_spec (r : regex) (l : list N) :
  matches r l = true <-> Matches r l.
Proof.
  revert r. induction l as [|c l IH]; intros r; simpl.
  - apply nullable_spec.
  - rewrite IH. apply deriv_spec.
Qed.

Lemma fullmatch_spec (r : regex) (s : string) :
  fullmatch r s = true <-> Matches r (decode s).
Proof. apply matches_spec. Qed.

Lemma star_class_spec (p : N -> bool) (l : list N) :
  Matches (Star (Class p)) l <-> forallb p l = true.
Proof.
  split.
  - intros H. remember (Star (Class p)) as r eqn:Er.
    induction H as [| | | | | |r0 l1 l2 H1 _ H2 IH2]; try discriminate.
    + reflexivity.
    + injection Er as ->. inversion H1; subst. simpl.
      rewrite IH2 by reflexivity. now rewrite andb_true_r.
  - induction l as [|c l IH]; simpl; intros H.
    + constructor.
    + apply andb_true_iff in H as [Hc Hs].
      apply (MStarApp _ [c] l); [now constructor | auto].
Qed.

Lemma plus_class_spec (p : N -> bool) (l : list N) :
  Matches (Plus (Class p)) l <-> l <> [] /\ forallb p l = true.
Proof.
  unfold Plus. split.
  - inversion 1 as [| |? ? l1 l2 H1 H2| | | |]; subst.
    inversion H1; subst. apply star_class_spec in H2. simpl.
    split; [discriminate|]. now rewrite H2, andb_true_r.
  - intros [Hne H]. destruct l as [|c l]; [congruence|].
    simpl in H. apply andb_true_iff in H as [Hc Hs].
    apply (MCat _ _ [c] l); [now constructor | now apply star_class_spec].
Qed.

Lemma dot_class_spec (l : list N) :
  Matches (Class (N.eqb dot)) l <-> l = [dot].
Proof.
  split.
  - inversion 1 as [|p c Hc| | | | |]; subst.
    apply N.eqb_eq in Hc. now subst.
  - intros ->. now apply (MClass _ dot).
Qed.

Lemma version_re_language (l : list N) :
  Matches version_re l <->
  exists major minor patch,
    l = major ++ [dot] ++ minor ++ [dot] ++ patch
    /\ digit_run major /\ digit_run minor /\ digit_run patch.
Proof.
  unfold version_re. split.
  - inversion 1 as [| |? ? a l1 Ha H1| | | |]; subst.
    inversion H1 as [| |? ? d1 l2 Hd1 H2| | | |]; subst.
    inversion H2 as [| |? ? b l3 Hb H3| | | |]; subst.
    inversion H3 as [| |? ? d2 c Hd2 Hc| | | |]; subst.
    apply dot_class_spec in Hd1, Hd2. subst.
    apply plus_class_spec in Ha, Hb, Hc.
    exists a, b, c. unfold digit_run. auto.
  - intros (a & b & c & -> & Ha & Hb & Hc).
    repeat apply MCat; try (now apply plus_class_spec); now apply dot_class_spec.
Qed.

Lemma version_re_spec (s : string) :
  Matches version_re (decode s) <-> dotted_digit_runs s.
Proof. apply version_re_language. Qed.

Lemma version_pattern_shape (s : string) : is_version s = true -> dotted_digit_runs s.
Proof. unfold is_version. rewrite fullmatch_spec. apply version_re_spec. Qed.

(** The code points of a text of ASCII characters are its bytes. *)
Lemma decode_ascii_app (a r : string) :
  forallb_str (fun c => (code c <? 128)%N) a = true ->
  decode (a +:+ r) = codes a ++ decode r.
Proof.
  induction a as [|c a IH]; intros H; [reflexivity|].
  simpl in H. apply andb_true_iff in H as [Hc Ha].
  change (String c a +:+ r) with (String c (a +:+ r)).
  unfold decode in *. cbn [chunks codes]. rewrite Hc. cbn [fmap list_fmap fst].
  rewrite (IH Ha). reflexivity.
Qed.

Lemma ascii_digit_decimal (c : ascii) :
  is_ascii_digit c = true -> (code c <? 128)%N = true /\ is_decimal (code c) = true.
Proof.
  unfold is_ascii_digit, between. intros H. split.
  - apply andb_true_iff in H as [_ H]. apply N.leb_le in H. apply N.ltb_lt. lia.
  - unfold is_decimal, in_ranges, decimal_ranges. cbn [existsb fst snd].
    unfold within at 1. now rewrite H.
Qed.

Lemma numeral_digit_run (a : string) :
  numeral a ->
  forallb_str (fun c => (code c <? 128)%N) a = true /\ digit_run (codes a).
Proof.
  intros [Hne Ha]. unfold digit_run.
  assert (H : forallb_str (fun c => (code c <? 128)%N) a = true
              /\ forallb is_decimal (codes a) = true).
  { clear Hne. induction a as [|c a IH]; [now split|].
    simpl in Ha. apply andb_true_iff in Ha as [Hc Ha].
    destruct (ascii_digit_decimal c Hc) as [H1 H2].
    destruct (IH Ha) as [H3 H4]. simpl. now rewrite H1, H2, H3, H4. }
  destruct H as [H1 H2]. split; [assumption|]. split; [|assumption].
  destruct a; [congruence | discriminate].
Qed.

(** A dotted triple of numerals in the digits 0-9 is one of the strings
    the pattern accepts. *)
Lemma dotted_triple_digit_runs (s : string) :
  dotted_triple s -> dotted_digit_runs s.
Proof.
  intros (a & b & c & -> & Ha & Hb & Hc).
  apply numeral_digit_run in Ha as [Ha1 Ha2], Hb as [Hb1 Hb2], Hc as [Hc1 Hc2].
  exists (codes a), (codes b), (codes c).
  split; [|split; [exact Ha2 | split; [exact Hb2 | exact Hc2]]].
  rewrite (decode_ascii_app a _ Ha1).
  rewrite (decode_ascii_app "." (b +:+ "." +:+ c) eq_refl).
  rewrite (decode_ascii_app b _ Hb1).
  rewrite (decode_ascii_app "." c eq_refl).
  pose proof (decode_ascii_app c "" Hc1) as Hc3.
  rewrite app_empty_r in Hc3. rewrite Hc3. simpl. now rewrite app_nil_r.
Qed.

(** A version written with fullwidth digits is no dotted triple of
    numerals in the digits 0-9. *)
Lemma fullwidth_not_dotted_triple : ~ dotted_triple fullwidth_version.
Proof.
  intros (a & b & c & E & [Ha1 Ha2] & _).
  destruct a as [|x a]; [congruence|].
  change (String x a +:+ "." +:+ b +:+ "." +:+ c)
    with (String x (a +:+ "." +:+ b +:+ "." +:+ c)) in E.
  unfold fullwidth_version in E. injection E as <- _.
  discriminate Ha2.
Qed.

(** [C9, as stated] The matcher does not accept exactly the dotted
    triples of non-negative integers: it accepts the version 3.12.4
    written with fullwidth digits, which is none. *)
Lemma fullwidth_version_accepted :
  is_version fullwidth_version = true /\ ~ dotted_triple fullwidth_version.
Proof. split; [reflexivity | apply fullwidth_not_dotted_triple]. Qed.

(** [C9, amended] The version-pattern matcher accepts exactly the strings
    made of three non-empty runs of decimal digits with a full stop
    between them, a decimal digit being one of any script.  Every dotted
    triple of non-negative integers written with 0-9 is among them: it
    accepts 3.12.4 and 0.0.1; and it rejects 3.12, 3.12.4.5 and
    latest. *)
Theorem version_pattern_exact :
  (forall s, is_version s = true <-> dotted_digit_runs s)
  /\ (forall s, dotted_triple s -> is_version s = true)
  /\ is_version "3.12.4" = true
  /\ is_version "0.0.1" = true
  /\ is_version "3.12" = false
  /\ is_version "3.12.4.5" = false
  /\ is_version "latest" = false.
Proof.
  assert (H : forall s, is_version s = true <-> dotted_digit_runs s).
  { intros s. unfold is_version. rewrite fullmatch_spec. apply version_re_spec. }
  split; [exact H|]. split; [|repeat split; reflexivity].
  intros s Hs. apply H. now apply dotted_triple_digit_runs.
Qed.

Lemma version_pattern_exact_witness : is_version "10.0.12" = true.
Proof.
  apply (proj1 (proj2 version_pattern_exact)).
  exists "10", "0", "12". repeat split; (discriminate || reflexivity).
Defined.


(** ** Environment detection *)

Section Detection.

Variable h : host.
Variable w : world.
Variables proc_version os_release : string.
Variables pw rw : bool.

Hypothesis Hlinux : lower (h_system h) = "linux".
Hypothesis Hproc : w_fs w !! "/proc/version" = Some (File true pw (Utf8 proc_version)).
Hypothesis Hrel : w_fs w !! "/etc/os-release" = Some (File true rw (Utf8 os_release)).

Lemma detect_environment_on_text :
  detect_environment h w =
    (Return (if has_wsl_marker proc_version
             then if has_ubuntu_marker os_release then "wsl_ubuntu" else "other"
             else if has_ubuntu_marker os_release then "ubuntu" else "other"), w).
Proof using Hlinux Hproc Hrel.
  pose proof (has_wsl_marker_read proc_version) as Hp.
  pose proof (has_ubuntu_marker_read os_release) as Hr.
  unfold has_wsl_marker, has_ubuntu_marker in *.
  unfold detect_environment, detect_wsl, try_except, bind, read_text, is_file, ret.
  rewrite Hlinux. simpl. rewrite Hproc, Hp.
  destruct (str_in "microsoft" (lower proc_version) || str_in "wsl" (lower proc_version));
    simpl; repeat (rewrite Hrel; simpl); rewrite ?Hr;
    destruct (str_in "ubuntu" (lower os_release)); reflexivity.
Qed.

End Detection.

(** [C1] On a Linux host with readable [/proc/version] and
    [/etc/os-release]: the Ubuntu marker without a WSL/Microsoft marker
    gives "ubuntu"; both markers give "wsl_ubuntu"; a WSL/Microsoft marker
    without the Ubuntu marker gives "other". *)
Theorem detect_environment_policy (h : host) (w : world)
    (proc_version os_release : string) (pw rw : bool) :
  lower (h_system h) = "linux" ->
  w_fs w !! "/proc/version" = Some (File true pw (Utf8 proc_version)) ->
  w_fs w !! "/etc/os-release" = Some (File true rw (Utf8 os_release)) ->
  (has_ubuntu_marker os_release = true -> has_wsl_marker proc_version = false ->
   detect_environment h w = (Return "ubuntu", w))
  /\ (has_wsl_marker proc_version = true -> has_ubuntu_marker os_release = true ->
      detect_environment h w = (Return "wsl_ubuntu", w))
  /\ (has_wsl_marker proc_version = true -> has_ubuntu_marker os_release = false ->
      detect_environment h w = (Return "other", w)).
Proof.
  intros Hl Hp Hr.
  rewrite (detect_environment_on_text h w proc_version os_release pw rw Hl Hp Hr).
  repeat split; intros -> ->; reflexivity.
Qed.

Lemma detect_environment_policy_witness :
  detect_environment linux_host (world_with [] ubuntu_files)
  = (Return "ubuntu", world_with [] ubuntu_files).
Proof.
  apply (detect_environment_policy linux_host (world_with [] ubuntu_files)
           "Linux version 6.5.0-generic (gcc 12.3.0)" "NAME=Ubuntu
ID=ubuntu" true true); reflexivity.
Defined.

(** Whatever the two files hold, as long as each is either absent or
    readable text, detection returns a member of the enumeration. *)
Lemma detect_environment_in_classes (h : host) (w : world) :
  (forall p, p = "/proc/version" \/ p = "/etc/os-release" ->
     w_fs w !! p = None \/ exists wr s, w_fs w !! p = Some (File true wr (Utf8 s))) ->
  exists c, detect_environment h w = (Return c, w) /\ c ∈ environment_classes.
Proof.
  intros Hfiles.
  assert (Hin : forall c, one_of c environment_classes = true ->
                  exists c', (Return c, w) = (Return c', w) /\ c' ∈ environment_classes).
  { intros c Hc. exists c. split; [reflexivity|].
    unfold one_of in Hc. now apply bool_decide_eq_true in Hc. }
  unfold detect_environment, detect_wsl, try_except, bind, read_text, is_file, ret.
  destruct (String.eqb (lower (h_system h)) "darwin"); [now apply Hin|].
  destruct (String.eqb (lower (h_system h)) "windows"); [now apply Hin|].
  destruct (String.eqb (lower (h_system h)) "linux"); [|now apply Hin].
  destruct (Hfiles "/proc/version" (or_introl eq_refl)) as [Hp|(pw & pv & Hp)];
    destruct (Hfiles "/etc/os-release" (or_intror eq_refl)) as [Hr|(rw & rv & Hr)];
    rewrite Hp;
    repeat first
      [ rewrite Hr
      | progress simpl
      | match goal with |- context [if ?b then _ else _] => destruct b end ];
    now apply Hin.
Qed.

(** When the release file exists but cannot be read, detection raises on
    every Linux host, whatever [/proc/version] holds. *)
Lemma detect_environment_locked_release (h : host) (w : world) (rw : bool) (d : fcontent) :
  lower (h_system h) = "linux" ->
  w_fs w !! "/etc/os-release" = Some (File false rw d) ->
  exists e, detect_environment h w = (Raise e, w).
Proof.
  intros Hl Hr.
  unfold detect_environment, detect_wsl, try_except, bind, read_text, is_file, ret.
  rewrite Hl. simpl.
  destruct (w_fs w !! "/proc/version") as [[|[] pw [pv|]]|];
    repeat first
      [ rewrite Hr
      | progress simpl
      | match goal with |- context [if ?b then _ else _] => destruct b end ];
    eauto.
Qed.

(** [C2] The failing input: a Linux host whose [/etc/os-release] is a
    regular file that may not be read.  Detection does not degrade to
    "other": the [PermissionError] of the second read leaves
    [detect_environment]. *)
Theorem detect_environment_locked_release_raises :
  detect_environment linux_host (world_with [] locked_release_files)
  = (Raise OSError, world_with [] locked_release_files).
Proof. reflexivity. Qed.

(** ** Reasoning rules for the monad *)

Section Rules.

Context (R : world -> world -> Prop) `{!PreOrder R}.

Lemma keeps_weaken {A} (m : M A) (Q Q' : A -> Prop) :
  keeps R m Q -> (forall a, Q a -> Q' a) -> keeps R m Q'.
Proof. intros Hm HQ w. destruct (Hm w) as [H1 H2]. split; auto. Qed.

Lemma keeps_ret {A} (a : A) (Q : A -> Prop) : Q a -> keeps R (ret a) Q.
Proof. intros HQ w. split; [reflexivity|]. simpl. now intros ? [= <-]. Qed.

Lemma keeps_raise {A} (e : exn) (Q : A -> Prop) : keeps R (raise e) Q.
Proof. intros w. split; [reflexivity|]. simpl. discriminate. Qed.

Lemma keeps_bind {A B} (m : M A) (k : A -> M B) (P : A -> Prop) (Q : B -> Prop) :
  keeps R m P -> (forall a, P a -> keeps R (k a) Q) -> keeps R (bind m k) Q.
Proof.
  intros Hm Hk w. unfold bind. destruct (Hm w) as [H1 H2].
  destruct (m w) as [[a|e] w1]; simpl in *.
  - destruct (Hk a (H2 a eq_refl) w1) as [H3 H4].
    split; [etransitivity; eassumption | assumption].
  - split; [assumption | discriminate].
Qed.

Lemma keeps_try_except {A B} (body : M A) (handles : exn -> bool)
    (handler : exn -> M B) (orelse : A -> M B) (P : A -> Prop) (Q : B -> Prop) :
  keeps R body P ->
  (forall e, keeps R (handler e) Q) ->
  (forall a, P a -> keeps R (orelse a) Q) ->
  keeps R (try_except body handles handler orelse) Q.
Proof.
  intros Hb Hh Ho w. unfold try_except. destruct (Hb w) as [H1 H2].
  destruct (body w) as [[a|e] w1]; simpl in *.
  - destruct (Ho a (H2 a eq_refl) w1) as [H3 H4].
    split; [etransitivity; eassumption | assumption].
  - destruct (handles e).
    + destruct (Hh e w1) as [H3 H4].
      split; [etransitivity; eassumption | assumption].
    + split; [assumption | discriminate].
Qed.

Lemma keeps_loop_fuel {A} (body : M (option A)) (Q : A -> Prop) (fuel : nat) :
  keeps R body (fun r => forall a, r = Some a -> Q a) ->
  keeps R (loop_fuel fuel body) Q.
Proof.
  intros Hb. induction fuel as [|fuel IH]; intros w; simpl;
    destruct (Hb w) as [H1 H2]; destruct (body w) as [[[a|]|e] w1]; simpl in *.
  - split; [assumption|]. intros ? [= <-]. now apply (H2 (Some a)).
  - split; [assumption | discriminate].
  - split; [assumption | discriminate].
  - split; [assumption|]. intros ? [= <-]. now apply (H2 (Some a)).
  - destruct (IH w1) as [H3 H4]. split; [etransitivity; eassumption | assumption].
  - split; [assumption | discriminate].
Qed.

Lemma keeps_while_true {A} (body : M (option A)) (Q : A -> Prop) :
  keeps R body (fun r => forall a, r = Some a -> Q a) ->
  keeps R (while_true body) Q.
Proof. intros Hb w. unfold while_true. now apply keeps_loop_fuel. Qed.

End Rules.

(** ** The loop equation *)

Section Loops.

Context {A : Type} (body : M (option A)).

(** Every round that continues has read at least one terminal event. *)
Hypothesis body_reads :
  forall w w', body w = (Return None, w') -> (length (w_in w') < length (w_in w))%nat.

Lemma loop_fuel_enough (n m : nat) (w : world) :
  (length (w_in w) <= n)%nat -> (length (w_in w) <= m)%nat ->
  loop_fuel n body w = loop_fuel m body w.
Proof using body_reads.
  revert m w. induction n as [|n IH]; intros m w Hn Hm;
    destruct m as [|m]; simpl; destruct (body w) as [[[a|]|e] w1] eqn:Hb;
    try reflexivity; apply body_reads in Hb; try lia.
  apply IH; lia.
Qed.

(** [while True: body] runs the body and, when it continues, starts
    over: the bound on the rounds is never the reason to stop. *)
Lemma while_true_unfold (w : world) :
  while_true body w =
    match body w with
    | (Return (Some a), w') => (Return a, w')
    | (Return None, w') => while_true body w'
    | (Raise e, w') => (Raise e, w')
    end.
Proof using body_reads.
  unfold while_true.
  destruct (length (w_in w)) as [|n] eqn:Hlen; simpl;
    destruct (body w) as [[[a|]|e] w1] eqn:Hb; try reflexivity;
    apply body_reads in Hb; try lia.
  apply loop_fuel_enough; lia.
Qed.

End Loops.

(** ** Which dict objects a computation touches *)

#[local] Instance stdin_shrinks_preorder : PreOrder stdin_shrinks.
Proof.
  split; unfold stdin_shrinks.
  - intros w. lia.
  - intros a b c Hab Hbc. lia.
Qed.

#[local] Instance only_changes_preorder (l : loc) : PreOrder (only_changes l).
Proof.
  split; unfold only_changes.
  - intros w l' _. reflexivity.
  - intros a b c Hab Hbc l' Hl. rewrite Hbc, Hab by assumption. reflexivity.
Qed.

#[local] Instance same_environ_preorder : PreOrder same_environ.
Proof.
  split; unfold same_environ.
  - intros w. reflexivity.
  - intros a b c Hab Hbc. congruence.
Qed.

Lemma keeps_mono {A} (R R' : world -> world -> Prop) (m : M A) (Q : A -> Prop) :
  (forall w w', R w w' -> R' w w') -> keeps R m Q -> keeps R' m Q.
Proof. intros HR Hm w. destruct (Hm w) as [H1 H2]. split; auto. Qed.

Lemma only_changes_same_environ (l : loc) (w w' : world) :
  l <> environ_loc -> only_changes l w w' -> same_environ w w'.
Proof. intros Hl H. apply H. congruence. Qed.

Create HintDb frame.

(** A computation that leaves the heap alone. *)
Lemma heap_kept {A} (l : loc) (m : M A) :
  (forall w, w_heap (snd (m w)) = w_heap w) -> keeps (only_changes l) m any.
Proof.
  intros H w. split; [|intros; exact I].
  intros l' _. now rewrite H.
Qed.

Ltac heap_kept :=
  apply heap_kept; intros w; cbv beta zeta delta
    [print print_exc input is_file is_dir read_text append_text mkdir_p
     dict_get dict_item command_exists run_cmd];
  repeat match goal with
    | |- context [match ?x with _ => _ end] => destruct x
    end; reflexivity.

Section Frame.

Variable h : host.
Variable env : loc.

Lemma print_frame s : keeps (only_changes env) (print s) any.
Proof. heap_kept. Qed.
Lemma print_exc_frame s e : keeps (only_changes env) (print_exc s e) any.
Proof. heap_kept. Qed.
Lemma input_frame s : keeps (only_changes env) (input s) any.
Proof. heap_kept. Qed.
Lemma is_file_frame p : keeps (only_changes env) (is_file p) any.
Proof. heap_kept. Qed.
Lemma is_dir_frame p : keeps (only_changes env) (is_dir p) any.
Proof. heap_kept. Qed.
Lemma read_text_frame p : keeps (only_changes env) (read_text p) any.
Proof. heap_kept. Qed.
Lemma append_text_frame p t : keeps (only_changes env) (append_text p t) any.
Proof. heap_kept. Qed.
Lemma mkdir_p_frame p : keeps (only_changes env) (mkdir_p p) any.
Proof. heap_kept. Qed.
Lemma dict_get_frame l k : keeps (only_changes env) (dict_get l k) any.
Proof. heap_kept. Qed.
Lemma dict_item_frame l k : keeps (only_changes env) (dict_item l k) any.
Proof. heap_kept. Qed.
Lemma command_exists_frame n e : keeps (only_changes env) (command_exists h n e) any.
Proof. heap_kept. Qed.
Lemma run_cmd_frame c chk cap e cwd :
  keeps (only_changes env) (run_cmd h c chk cap e cwd) any.
Proof. heap_kept. Qed.

Lemma dict_set_frame k v : keeps (only_changes env) (dict_set env k v) any.
Proof.
  intros w. split; [|intros; exact I].
  intros l' Hl. simpl. now rewrite lookup_insert_ne.
Qed.

End Frame.

#[local] Hint Resolve print_frame print_exc_frame input_frame is_file_frame
  is_dir_frame read_text_frame append_text_frame mkdir_p_frame dict_get_frame
  dict_item_frame command_exists_frame run_cmd_frame dict_set_frame : frame.

Lemma keeps_any_ret {A} (R : world -> world -> Prop) `{!PreOrder R} (a : A) :
  keeps R (ret a) any.
Proof. now apply keeps_ret. Qed.

(** One step of a frame proof: follow the structure of the program. *)
Ltac frame_post :=
  try solve [ exact I | reflexivity | assumption | intros; exact I
            | intros ? [= <-]; first [exact I | reflexivity | assumption] ].

Ltac frame_any :=
  lazymatch goal with
  | |- @keeps ?A _ _ ?Q => tryif is_evar Q then unify Q (@any A) else idtac
  end.

Ltac frame :=
  cbv beta zeta iota;
  lazymatch goal with
  | |- keeps ?R (bind _ _) _ =>
      eapply (keeps_bind R);
      [ frame
      | let a := fresh "a" in let Ha := fresh "Ha" in
        intros a Ha; cbv beta in Ha;
        try match type of Ha with ?x = _ => is_var x; subst x end;
        frame ]
  | |- keeps ?R (try_except _ _ _ _) _ =>
      eapply (keeps_try_except R); [ frame | intros ?; frame | intros ? ?; frame ]
  | |- keeps ?R (ret _) _ => frame_any; apply (keeps_ret R); frame_post
  | |- keeps ?R (raise _) _ => frame_any; apply (keeps_raise R)
  | |- keeps ?R (while_true _) _ => frame_any; apply (keeps_while_true R); frame
  | |- keeps _ (match ?x with _ => _ end) _ => frame_any; destruct x eqn:?; frame
  | |- _ => try solve [eauto 2 with frame nocore]
  end.

Section FrameScript.

Variable h : host.
Variable env : loc.

Lemma print_all_frame ls : keeps (only_changes env) (print_all ls) any.
Proof. induction ls as [|l ls IH]; simpl; frame. Qed.

Lemma ask_yes_no_frame p d : keeps (only_changes env) (ask_yes_no p d) any.
Proof. unfold ask_yes_no, ask_round. frame. Qed.

Lemma ensure_pyenv_in_env_frame :
  keeps (only_changes env) (ensure_pyenv_in_env h (Some env)) (fun r => r = env).
Proof.
  unfold ensure_pyenv_in_env.
  apply (keeps_bind _) with (P := fun r => r = env);
    [now apply (keeps_ret _) | intros ? ->].
  frame.
Qed.

#[local] Hint Resolve print_all_frame ask_yes_no_frame ensure_pyenv_in_env_frame : frame.

Lemma shell_rc_frame : keeps (only_changes env) (shell_rc h) any.
Proof. unfold shell_rc. frame. Qed.
#[local] Hint Resolve shell_rc_frame : frame.

Lemma append_to_shell_rc_if_missing_frame s :
  keeps (only_changes env) (append_to_shell_rc_if_missing h s) any.
Proof. unfold append_to_shell_rc_if_missing. frame. Qed.
#[local] Hint Resolve append_to_shell_rc_if_missing_frame : frame.

Lemma install_pyenv_macos_frame :
  keeps (only_changes env) (install_pyenv_macos h env) (fun r => r = env).
Proof. unfold install_pyenv_macos. frame. Qed.

Lemma install_pyenv_ubuntu_like_frame is_wsl :
  keeps (only_changes env) (install_pyenv_ubuntu_like h env is_wsl) (fun r => r = env).
Proof.
  unfold install_pyenv_ubuntu_like. frame.
Qed.
#[local] Hint Resolve install_pyenv_macos_frame install_pyenv_ubuntu_like_frame : frame.

Lemma ensure_pyenv_and_virtualenv_frame env_name :
  keeps (only_changes env) (ensure_pyenv_and_virtualenv h env_name env) (fun r => r = env).
Proof.
  unfold ensure_pyenv_and_virtualenv.
  apply (keeps_bind _) with (P := fun r => r = env); [frame | intros ? ->].
  frame.
Qed.

Lemma list_available_versions_frame :
  keeps (only_changes env) (list_available_versions h env) any.
Proof. unfold list_available_versions. frame. Qed.
#[local] Hint Resolve ensure_pyenv_and_virtualenv_frame list_available_versions_frame : frame.

Lemma prompt_round_frame versions latest :
  keeps (only_changes env) (prompt_round versions latest) any.
Proof. unfold prompt_round. frame. Qed.
#[local] Hint Resolve prompt_round_frame : frame.

Lemma prompt_for_version_frame :
  keeps (only_changes env) (prompt_for_version h env) any.
Proof.
  unfold prompt_for_version. frame.
  eapply keeps_weaken; [apply prompt_round_frame | frame_post].
Qed.

Lemma ensure_version_installed_frame version :
  keeps (only_changes env) (ensure_version_installed h version env) any.
Proof. unfold ensure_version_installed. frame. Qed.

Lemma maybe_set_global_version_frame version :
  keeps (only_changes env) (maybe_set_global_version h version env) any.
Proof. unfold maybe_set_global_version. frame. Qed.

Lemma create_demo_virtualenv_frame version :
  keeps (only_changes env) (create_demo_virtualenv h version env) any.
Proof. unfold create_demo_virtualenv. frame. Qed.

Lemma detect_environment_frame : keeps (only_changes env) (detect_environment h) any.
Proof. unfold detect_environment, detect_wsl. frame. Qed.

Lemma print_banner_frame : keeps (only_changes env) print_banner any.
Proof. unfold print_banner. frame. Qed.

End FrameScript.

#[local] Hint Resolve print_all_frame ask_yes_no_frame ensure_pyenv_in_env_frame
  shell_rc_frame append_to_shell_rc_if_missing_frame install_pyenv_macos_frame
  install_pyenv_ubuntu_like_frame ensure_pyenv_and_virtualenv_frame
  list_available_versions_frame prompt_round_frame prompt_for_version_frame
  ensure_version_installed_frame maybe_set_global_version_frame
  create_demo_virtualenv_frame detect_environment_frame print_banner_frame : frame.

(** ** The environment mapping *)

Lemma environ_copy_fresh :
  keeps same_environ environ_copy (fun r => r <> environ_loc).
Proof.
  intros w. unfold environ_copy. simpl.
  set (l := fresh (dom (w_heap w) ∪ {[environ_loc]})).
  assert (Hl : l ∉ dom (w_heap w) ∪ {[environ_loc]}) by apply is_fresh.
  assert (l <> environ_loc) by set_solver.
  split.
  - unfold same_environ. simpl. now rewrite lookup_insert_ne.
  - now intros ? [= <-].
Qed.

(** [os.environ.copy()] leaves every existing object as it was. *)
Lemma environ_copy_new (w : world) (l : loc) :
  is_Some (w_heap w !! l) ->
  w_heap (snd (environ_copy w)) !! l = w_heap w !! l.
Proof.
  intros Hl. unfold environ_copy. simpl.
  set (l' := fresh (dom (w_heap w) ∪ {[environ_loc]})).
  assert (Hl' : l' ∉ dom (w_heap w) ∪ {[environ_loc]}) by apply is_fresh.
  apply elem_of_dom in Hl.
  rewrite lookup_insert_ne; [reflexivity | set_solver].
Qed.

Lemma keeps_environ {A} (m : M A) (Q : A -> Prop) :
  (forall env, keeps (only_changes env) m Q) -> keeps same_environ m Q.
Proof.
  intros H. apply (keeps_mono (only_changes (S environ_loc))); [|apply H].
  intros w w'. now apply only_changes_same_environ.
Qed.

Lemma main_same_environ (h : host) : keeps same_environ (main h) any.
Proof.
  unfold main.
  apply (keeps_bind _) with (P := any);
    [apply keeps_environ; intros; apply print_banner_frame | intros _ _].
  apply (keeps_bind _) with (P := any);
    [apply keeps_environ; intros; apply detect_environment_frame | intros env_name _].
  apply (keeps_bind _) with (P := fun r => r <> environ_loc);
    [apply environ_copy_fresh | intros raw_env Hraw].
  apply (keeps_mono (only_changes raw_env));
    [intros w w'; now apply only_changes_same_environ|].
  unfold print_windows_wsl_instructions. frame.
Qed.

Lemma script_same_environ (h : host) (w : world) :
  same_environ w (snd (script h w)).
Proof.
  unfold script. destruct (main_same_environ h w) as [H _].
  destruct (main h w) as [[status|[]] w']; exact H.
Qed.

Lemma ensure_pyenv_in_env_sets_root (h : host) (env : loc) (w : world) (wr : bool) :
  w_fs w !! pure_path (pyenv_root_of h w) = Some (Dir wr) ->
  dict_of env (snd (ensure_pyenv_in_env h (Some env) w)) !! "PYENV_ROOT"
  = Some (pyenv_root_of h w).
Proof.
  intros Hdir. unfold ensure_pyenv_in_env, bind, ret, dict_get, is_dir. simpl.
  fold (pyenv_root_of h w). rewrite Hdir. simpl.
  unfold dict_item, dict_set, dict_of. simpl.
  destruct (negb _);
    repeat first [ rewrite lookup_insert_eq
                 | rewrite lookup_insert_ne by discriminate
                 | progress simpl
                 | match goal with
                   | |- context [match ?x with Some _ => _ | None => _ end] =>
                       destruct x
                   end ];
    reflexivity.
Qed.

(** [C6, as stated] If the dict were passed by copy, the caller's object
    would be unchanged after the call.  It is not: after
    [ensure_pyenv_in_env(raw_env)], whose result is dropped here, the
    caller's [raw_env] has gained [PYENV_ROOT] and a longer [PATH]. *)
Lemma env_mutation_reaches_caller :
  let w' := snd (ensure_pyenv_in_env linux_host (Some 1%nat) pyenv_world) in
  dict_of 1%nat pyenv_world !! "PYENV_ROOT" = None
  /\ dict_of 1%nat w' !! "PYENV_ROOT" = Some "/home/u/.pyenv"
  /\ dict_of 1%nat w' !! "PATH" = Some "/home/u/.pyenv/bin:/usr/bin".
Proof. vm_compute. repeat split; reflexivity. Qed.

(** [C6, amended] The copy of [os.environ] made at startup is handed to
    the sub-operations by reference.  [ensure_pyenv_in_env] given a dict
    other than [os.environ] returns that same object, may update it in
    place (the new [PYENV_ROOT] is visible through the caller's
    reference) and touches no other object; given no dict it works on a
    fresh copy.  The object [os.environ] itself is never changed, neither
    by [ensure_pyenv_in_env] nor by a whole run of the script. *)
Theorem env_passed_by_reference (h : host) (w : world) (env : loc) :
  env <> environ_loc ->
  let r := ensure_pyenv_in_env h (Some env) w in
  (forall a, fst r = Return a -> a = env)
  /\ only_changes env w (snd r)
  /\ same_environ w (snd r)
  /\ (forall wr, w_fs w !! pure_path (pyenv_root_of h w) = Some (Dir wr) ->
      dict_of env (snd r) !! "PYENV_ROOT" = Some (pyenv_root_of h w))
  /\ same_environ w (snd (ensure_pyenv_in_env h None w))
  /\ same_environ w (snd (script h w)).
Proof.
  intros Henv r. destruct (ensure_pyenv_in_env_frame h env w) as [Hframe Hret].
  split; [exact Hret|]. split; [exact Hframe|].
  split; [now apply (only_changes_same_environ env)|].
  split; [apply ensure_pyenv_in_env_sets_root|].
  split; [|apply script_same_environ].
  unfold ensure_pyenv_in_env.
  assert (Hnone : keeps same_environ
            (bind environ_copy (fun env0 => ensure_pyenv_in_env h (Some env0))) any).
  { apply (keeps_bind _) with (P := fun r => r <> environ_loc);
      [apply environ_copy_fresh | intros l Hl].
    apply (keeps_mono (only_changes l));
      [intros ? ?; now apply only_changes_same_environ|].
    eapply keeps_weaken; [apply ensure_pyenv_in_env_frame | intros; exact I]. }
  destruct (Hnone w) as [H _]. revert H.
  unfold ensure_pyenv_in_env, bind, ret. simpl.
  now destruct (environ_copy w) as [[l|e] w1].
Qed.

Lemma env_passed_by_reference_witness :
  same_environ pyenv_world (snd (script linux_host pyenv_world)).
Proof.
  apply (env_passed_by_reference linux_host pyenv_world 1%nat). discriminate.
Defined.

(** ** Appending the initialization snippet *)

Lemma startswith_app_sep (sub u t : string) (x : ascii) :
  forallb_str (fun c => negb (Ascii.eqb c x)) sub = true ->
  startswith sub (u +:+ String x t) = startswith sub u.
Proof.
  revert u. induction sub as [|p sub IH]; intros u Hsub; [now destruct u|].
  simpl in Hsub. apply andb_true_iff in Hsub as [Hp Hsub].
  destruct u as [|y u]; simpl.
  - apply negb_true_iff in Hp. now rewrite Hp.
  - now rewrite IH.
Qed.

Lemma occurrences_app_sep (sub a t : string) (x : ascii) :
  sub <> "" ->
  forallb_str (fun c => negb (Ascii.eqb c x)) sub = true ->
  occurrences sub (a +:+ String x t)
  = (occurrences sub a + occurrences sub (String x t))%nat.
Proof.
  intros Hne Hsub. remember (occurrences sub (String x t)) as k eqn:Hk.
  induction a as [|y a IH].
  - subst k. destruct sub; [congruence | reflexivity].
  - change (String y a +:+ String x t) with (String y (a +:+ String x t)).
    cbn [occurrences]. rewrite IH.
    change (String y (a +:+ String x t)) with (String y a +:+ String x t).
    rewrite startswith_app_sep by assumption.
    destruct (startswith sub (String y a)); lia.
Qed.

Lemma str_in_occurrences (sub s : string) :
  str_in sub s = false <-> occurrences sub s = 0%nat.
Proof.
  induction s as [|c s IH]; cbn [str_in occurrences].
  - destruct (startswith sub ""); simpl; split; (discriminate || reflexivity).
  - destruct (startswith sub (String c s)); simpl; [|exact IH].
    split; discriminate.
Qed.

Lemma str_in_app_r (sub a b : string) :
  str_in sub b = true -> str_in sub (a +:+ b) = true.
Proof.
  intros H. induction a as [|c a IH]; [exact H|].
  change (String c a +:+ b) with (String c (a +:+ b)).
  cbn [str_in]. rewrite IH. apply orb_true_r.
Qed.

Lemma appended_text_starts_newline (content snippet : string) :
  exists t, appended_text content snippet = String nl t.
Proof. unfold appended_text, ln, char. destruct (endswith _ content); simpl; eauto. Qed.

Lemma appended_snippet_once (content : string) :
  occurrences init_marker (appended_text content pyenv_init_snippet) = 1%nat.
Proof. unfold appended_text. destruct (endswith _ content); vm_compute; reflexivity. Qed.

Lemma appended_snippet_marked (content : string) :
  str_in init_marker (appended_text content pyenv_init_snippet) = true.
Proof. unfold appended_text. destruct (endswith _ content); vm_compute; reflexivity. Qed.

Lemma shell_rc_value (h : host) (w : world) :
  shell_rc h w = (Return (rc_path h w), w).
Proof.
  unfold shell_rc, rc_path, bind, dict_get, ret.
  now destruct (endswith "zsh" _).
Qed.

(** What one application does to the file system and to the dicts. *)
Lemma append_to_shell_rc_effect (h : host) (snippet : string) (w : world) :
  let rc := rc_path h w in
  let w1 := snd (append_to_shell_rc_if_missing h snippet w) in
  w_heap w1 = w_heap w
  /\ w_fs w1 =
       match w_fs w !! rc with
       | None =>
           if may_create_in (w_fs w) (path_parent rc)
           then <[rc := File true true (Utf8 (appended_text "" snippet))]> (w_fs w)
           else w_fs w
       | Some (File true true (Utf8 c)) =>
           if str_in init_marker c then w_fs w
           else <[rc := File true true
                          (Utf8 (c +:+ appended_text (universal_newlines c) snippet))]>
                  (w_fs w)
       | _ => w_fs w
       end.
Proof.
  intros rc w1. subst w1.
  unfold append_to_shell_rc_if_missing, bind. rewrite shell_rc_value. fold rc.
  unfold try_except, bind, is_file, read_text, append_text, print, print_exc, ret.
  destruct (w_fs w !! rc) as [[|[] [] [c|]]|] eqn:Hrc; simpl;
    rewrite ?Hrc; simpl; try (split; reflexivity).
  - fold init_marker. rewrite (init_marker_read c).
    destruct (str_in init_marker c); simpl; rewrite ?Hrc; simpl; split; reflexivity.
  - fold init_marker. rewrite (init_marker_read c).
    destruct (str_in init_marker c); simpl; rewrite ?Hrc; simpl; split; reflexivity.
  - destruct (may_create_in (w_fs w) (path_parent rc)); simpl; split; reflexivity.
Qed.

(** [C7] Appending the pyenv snippet is idempotent.  A second
    application never changes the file system.  A startup file that
    already holds the marker is left as it is.  A marker-free startup
    file that can be read and written, and a startup file that is made
    because none was there (which takes a home directory in which the
    user may create it), hold the marker exactly once after the first
    application and are unchanged by the second.  Where no file is there
    and none can be made, nothing changes. *)
Theorem append_snippet_idempotent (h : host) (w : world) :
  let rc := rc_path h w in
  let w1 := snd (append_to_shell_rc_if_missing h pyenv_init_snippet w) in
  let w2 := snd (append_to_shell_rc_if_missing h pyenv_init_snippet w1) in
  w_fs w2 = w_fs w1
  /\ (forall r wr c, w_fs w !! rc = Some (File r wr (Utf8 c)) ->
        str_in init_marker c = true -> w_fs w1 = w_fs w)
  /\ (forall c, (w_fs w !! rc = None
                /\ may_create_in (w_fs w) (path_parent rc) = true /\ c = "")
              \/ (w_fs w !! rc = Some (File true true (Utf8 c))
                  /\ str_in init_marker c = false) ->
        exists c1, w_fs w1 !! rc = Some (File true true (Utf8 c1))
                   /\ occurrences init_marker c1 = 1%nat
                   /\ w_fs w2 !! rc = Some (File true true (Utf8 c1)))
  /\ (w_fs w !! rc = None -> may_create_in (w_fs w) (path_parent rc) = false ->
      w_fs w1 = w_fs w).
Proof.
  intros rc w1 w2.
  destruct (append_to_shell_rc_effect h pyenv_init_snippet w) as [Hheap1 Hfs1].
  destruct (append_to_shell_rc_effect h pyenv_init_snippet w1) as [_ Hfs2].
  fold w1 in Hheap1, Hfs1. fold w2 in Hfs2. fold rc in Hfs1.
  assert (Hrc : rc_path h w1 = rc).
  { unfold rc, rc_path, dict_of. now rewrite Hheap1. }
  rewrite Hrc in Hfs2.
  assert (Hsecond : w_fs w2 = w_fs w1).
  { rewrite Hfs2.
    destruct (w_fs w !! rc) as [[|[] [] [c|]]|] eqn:Hw;
      rewrite Hfs1; rewrite ?Hw; try reflexivity.
    - destruct (str_in init_marker c) eqn:Hc.
      + now rewrite Hw, Hc.
      + rewrite lookup_insert_eq.
        now rewrite str_in_app_r by apply appended_snippet_marked.
    - destruct (may_create_in (w_fs w) (path_parent rc)) eqn:Hmay.
      + rewrite lookup_insert_eq. now rewrite appended_snippet_marked.
      + now rewrite Hw, Hmay. }
  split; [exact Hsecond|]. split; [|split].
  - intros r wr c Hw Hc. rewrite Hfs1, Hw.
    destruct r, wr; try reflexivity. now rewrite Hc.
  - intros c [(Hw & Hmay & ->)|[Hw Hc]].
    + exists (appended_text "" pyenv_init_snippet).
      rewrite Hsecond, Hfs1, Hw, Hmay, lookup_insert_eq.
      split; [reflexivity|]. split; [apply appended_snippet_once | reflexivity].
    + exists (c +:+ appended_text (universal_newlines c) pyenv_init_snippet).
      rewrite Hsecond, Hfs1, Hw, Hc, lookup_insert_eq.
      split; [reflexivity|]. split; [|reflexivity].
      destruct (appended_text_starts_newline (universal_newlines c) pyenv_init_snippet)
        as [t Ht].
      pose proof (appended_snippet_once (universal_newlines c)) as Honce.
      rewrite Ht in Honce |- *.
      rewrite occurrences_app_sep, Honce; [|discriminate | reflexivity].
      apply str_in_occurrences in Hc. rewrite Hc. reflexivity.
  - intros Hw Hmay. now rewrite Hfs1, Hw, Hmay.
Qed.

Lemma append_snippet_idempotent_witness :
  (exists c1,
     w_fs (snd (append_to_shell_rc_if_missing linux_host pyenv_init_snippet bashrc_world))
       !! "/home/u/.bashrc" = Some (File true true (Utf8 c1))
     /\ occurrences init_marker c1 = 1%nat)
  /\ (exists c1,
        w_fs (snd (append_to_shell_rc_if_missing linux_host pyenv_init_snippet
                     fresh_home_world))
          !! "/home/u/.bashrc" = Some (File true true (Utf8 c1))
        /\ occurrences init_marker c1 = 1%nat).
Proof.
  split.
  - destruct (append_snippet_idempotent linux_host bashrc_world) as (_ & _ & H & _).
    destruct (H "alias ll='ls -l'") as (c1 & H1 & H2 & _).
    + right. split; reflexivity.
    + exists c1. split; assumption.
  - destruct (append_snippet_idempotent linux_host fresh_home_world) as (_ & _ & H & _).
    destruct (H "") as (c1 & H1 & H2 & _).
    + left. repeat split; reflexivity.
    + exists c1. split; assumption.
Defined.

(** ** Installing a version *)

Lemma bare_listing_empty : bare_listing "" = ∅.
Proof. reflexivity. Qed.

(** [C8] If the version is in the bare listing of installed versions,
    [ensure_version_installed] returns [True] after that one query: no
    install subcommand is started.  Conversely, whenever the call starts
    [pyenv install <version>], the version was absent from the listing. *)
Theorem ensure_version_installed_short_circuit
    (h : host) (version : string) (env : loc) (w : world) :
  let query := versions_bare_call env w in
  let listing := installed_set (fst (h_exec h query (w_fs w))) in
  let r := ensure_version_installed h version env w in
  (forall s, listing = Some s -> version ∈ s ->
     fst r = Return true /\ w_procs (snd r) = w_procs w ++ [query])
  /\ exists new, w_procs (snd r) = w_procs w ++ new
       /\ ((exists i, i ∈ new /\ is_install_of version i) ->
           exists s, listing = Some s /\ version ∉ s).
Proof.
  intros query listing r. subst query listing r.
  unfold ensure_version_installed, bind, try_except, print, print_exc, ret, run_cmd,
    versions_bare_call, dict_of.
  cbn -[bare_listing "=?"].
  destruct (h_exec h _ (w_fs w)) as [[status out|e] fs1];
    cbn -[bare_listing "=?"];
    [ destruct (status =? 0) eqn:Hst | destruct (is_CalledProcessError e) eqn:He ];
    cbn -[bare_listing "=?"];
    try (destruct (bool_decide _) eqn:Hin;
         [apply bool_decide_eq_true in Hin | apply bool_decide_eq_false in Hin];
         cbn -[bare_listing "=?"]);
    try (destruct (h_exec h _ _) as [[st o|e2] f2]; cbn -[bare_listing "=?"];
         [destruct (st =? 0) | destruct (is_CalledProcessError e2)];
         cbn -[bare_listing "=?"]);
    rewrite ?bare_listing_empty in *;
    (split;
     [ intros s [= <-] Hs; first [ now split | contradiction | set_solver ]
     | eexists; split;
       [ first [ reflexivity | rewrite <- app_assoc; reflexivity ]
       | intros (i & Hi & Hinst);
         first [ apply list_elem_of_singleton in Hi; rewrite Hi in Hinst;
                 discriminate Hinst
               | eexists; split; [reflexivity | first [assumption | set_solver]] ] ] ]).
Qed.

Lemma ensure_version_installed_short_circuit_witness :
  fst (ensure_version_installed pyenv_host "3.12.4" 0%nat (world_with [] ∅))
  = Return true
  /\ w_procs (snd (ensure_version_installed pyenv_host "3.12.4" 0%nat (world_with [] ∅)))
     = [versions_bare_call 0%nat (world_with [] ∅)].
Proof.
  destruct (ensure_version_installed_short_circuit
              pyenv_host "3.12.4" 0%nat (world_with [] ∅)) as [H _].
  apply (H (bare_listing "3.11.9
3.12.4
")).
  - reflexivity.
  - vm_compute. reflexivity.
Defined.

(** ** Prompts: reading lines *)

Lemma print_stdin s : keeps stdin_shrinks (print s) any.
Proof. intros w. split; [unfold stdin_shrinks; simpl; lia | intros; exact I]. Qed.

Lemma input_stdin s : keeps stdin_shrinks (input s) any.
Proof.
  intros w. split; [|intros; exact I].
  unfold stdin_shrinks, input.
  destruct (w_in w) as [|[raw|] rest] eqn:Hin; simpl; rewrite ?Hin; simpl; lia.
Qed.

#[local] Hint Resolve print_stdin input_stdin : frame.

Lemma ask_round_reads (text : string) (d : option bool) (w w' : world) :
  ask_round text d w = (Return None, w') ->
  (length (w_in w') < length (w_in w))%nat.
Proof.
  unfold ask_round, bind, input, print, ret.
  destruct (w_in w) as [|[raw|] rest] eqn:Hin; simpl; try discriminate.
  destruct (is_empty (lower (strip raw))), d as [d|];
    repeat match goal with
      | |- context [if ?b then _ else _] => destruct b
      end; simpl; intros [= <-]; simpl; lia.
Qed.

(** [ask_yes_no] asks once and, on an answer it does not understand,
    asks again. *)
Lemma ask_yes_no_unfold (prompt : string) (d : option bool) (w : world) :
  ask_yes_no prompt d w =
    match ask_round (prompt +:+ ask_suffix d) d w with
    | (Return (Some b), w') => (Return b, w')
    | (Return None, w') => ask_yes_no prompt d w'
    | (Raise e, w') => (Raise e, w')
    end.
Proof.
  unfold ask_yes_no. fold (ask_suffix d).
  apply while_true_unfold. apply ask_round_reads.
Qed.

Lemma ask_yes_no_stdin (prompt : string) (d : option bool) :
  keeps stdin_shrinks (ask_yes_no prompt d) any.
Proof. unfold ask_yes_no, ask_round. frame. Qed.

Lemma prompt_round_reads (versions latest : list string) (w w' : world) :
  prompt_round versions latest w = (Return None, w') ->
  (length (w_in w') < length (w_in w))%nat.
Proof.
  unfold prompt_round, bind, input, print, ret, raise.
  destruct (w_in w) as [|[raw|] rest] eqn:Hin; simpl; try discriminate.
  repeat match goal with
    | |- context [if ?b then _ else _] => destruct b; simpl
    | |- context [match int_of_digits ?s with _ => _ end] =>
        destruct (int_of_digits s); simpl
    | |- context [match ?l !! ?i with _ => _ end] => destruct (l !! i); simpl
    end;
    try discriminate; try (intros [= <-]; simpl; lia).
  all: match goal with
       | |- context [ask_yes_no ?p ?d ?u] =>
           destruct (ask_yes_no_stdin p d u) as [Hs _];
           destruct (ask_yes_no p d u) as [[[]|e] u']; simpl in *;
           try discriminate; intros [= <-];
           unfold stdin_shrinks in Hs; simpl in Hs; lia
       end.
Qed.

(** The picker asks once and, after a rejected line, asks again. *)
Lemma prompt_loop_unfold (versions latest : list string) (w : world) :
  while_true (prompt_round versions latest) w =
    match prompt_round versions latest w with
    | (Return (Some r), w') => (Return r, w')
    | (Return None, w') => while_true (prompt_round versions latest) w'
    | (Raise e, w') => (Raise e, w')
    end.
Proof. apply while_true_unfold. apply prompt_round_reads. Qed.

(** ** The picker returns version identifiers only *)

#[local] Instance anything_preorder : PreOrder anything.
Proof. split; [intros w | intros a b c _ _]; exact I. Qed.

Lemma run_anything {A} (m : M A) : keeps anything m any.
Proof. intros w. split; [exact I | intros; exact I]. Qed.

Lemma parse_versions_well_formed (out : string) : well_formed (parse_versions out).
Proof.
  unfold well_formed, parse_versions. apply Forall_forall.
  intros v Hv. now apply list_elem_of_filter in Hv as [Hv _].
Qed.

Lemma last15_well_formed (versions : list string) :
  well_formed versions -> well_formed (last15 versions).
Proof. unfold well_formed, last15. apply Forall_drop. Qed.

Lemma list_available_versions_well_formed (h : host) (env : loc) :
  keeps anything (list_available_versions h env) well_formed.
Proof.
  unfold list_available_versions.
  apply (keeps_bind _) with (P := any); [apply run_anything | intros _ _].
  apply (keeps_try_except _) with (P := any); [apply run_anything | |].
  - intros e. apply (keeps_bind _) with (P := any); [apply run_anything | intros _ _].
    apply (keeps_ret _). constructor.
  - intros out _. cbv zeta.
    apply (keeps_bind _) with (P := any); [apply run_anything | intros _ _].
    apply (keeps_ret _). apply parse_versions_well_formed.
Qed.

Lemma prompt_round_well_formed (versions latest : list string) :
  well_formed latest ->
  keeps anything (prompt_round versions latest)
    (fun r => forall a, r = Some a -> forall v, a = Some v -> is_version v = true).
Proof.
  intros Hlatest w. split; [exact I|].
  unfold well_formed in Hlatest. rewrite Forall_lookup in Hlatest.
  unfold prompt_round, bind, input, print, ret, raise.
  destruct (w_in w) as [|[raw|] rest]; simpl; try discriminate.
  repeat match goal with
    | |- context [if ?b then _ else _] => destruct b eqn:?; simpl
    | |- context [match int_of_digits ?s with _ => _ end] =>
        destruct (int_of_digits s); simpl
    | |- context [match ?l !! ?i with _ => _ end] => destruct (l !! i) eqn:?; simpl
    | |- context [ask_yes_no ?p ?d ?u] =>
        destruct (ask_yes_no p d u) as [[[]|?] ?]; simpl
    end;
    try discriminate; intros r [= <-] a Ha;
    first [ discriminate Ha | injection Ha as <- ]; intros v Hv;
    first [ discriminate Hv
          | injection Hv as <-; first [assumption | eapply Hlatest; eassumption] ].
Qed.

Lemma prompt_for_version_selection (h : host) (env : loc) :
  keeps anything (prompt_for_version h env)
    (fun r => forall v, r = Some v -> is_version v = true).
Proof.
  unfold prompt_for_version.
  apply (keeps_bind _) with (P := well_formed);
    [apply list_available_versions_well_formed | intros versions Hv].
  destruct (bool_decide (versions = [])); [now apply (keeps_ret _)|].
  cbv zeta.
  apply (keeps_bind _) with (P := any); [apply run_anything | intros _ _].
  apply (keeps_bind _) with (P := any); [apply run_anything | intros _ _].
  apply (keeps_bind _) with (P := any); [apply run_anything | intros _ _].
  apply (keeps_while_true _).
  apply prompt_round_well_formed. now apply last15_well_formed.
Qed.

(** [C10, as stated] The picker returns a version written in fullwidth
    digits when it is typed and confirmed: the returned text is no
    dotted triple of numerals in the digits 0 to 9. *)
Lemma fullwidth_version_is_returned :
  fst (prompt_for_version pyenv_host 0%nat
         (world_with [Line fullwidth_version; Line "y"] ∅))
  = Return (Some fullwidth_version)
  /\ ~ dotted_triple fullwidth_version.
Proof.
  split; [vm_compute; reflexivity | exact fullwidth_not_dotted_triple].
Qed.

(** [C10, amended] Whenever [prompt_for_version] returns a selection,
    the returned text matches the pattern of the code, whether it was
    chosen by menu index or typed literally: it is three non-empty runs
    of decimal digits, of any script, with a full stop between them. *)
Theorem prompt_for_version_well_formed (h : host) (env : loc) (w : world) (v : string) :
  fst (prompt_for_version h env w) = Return (Some v) ->
  is_version v = true /\ dotted_digit_runs v.
Proof.
  intros Hr. destruct (prompt_for_version_selection h env w) as [_ Hpost].
  assert (Hv : is_version v = true) by now apply (Hpost (Some v)).
  split; [exact Hv | now apply version_pattern_shape].
Qed.

Lemma prompt_for_version_well_formed_witness :
  is_version "3.12.4" = true /\ dotted_digit_runs "3.12.4".
Proof.
  apply (prompt_for_version_well_formed pyenv_host 0%nat (world_with [Line "14"] ∅)).
  vm_compute. reflexivity.
Defined.

(** ** The menu *)

Lemma last15_length (versions : list string) :
  length (last15 versions) = (length versions `min` 15)%nat.
Proof. unfold last15. rewrite length_drop. lia. Qed.

Lemma last15_lookup (versions : list string) (i : nat) :
  last15 versions !! i = versions !! (length versions - 15 + i)%nat.
Proof. unfold last15. apply lookup_drop. Qed.

Lemma menu_lines_length (latest : list string) :
  length (menu_lines latest) = length latest.
Proof. unfold menu_lines. apply length_imap. Qed.

Lemma menu_lines_lookup (latest : list string) (i : nat) (v : string) :
  latest !! i = Some v ->
  menu_lines latest !! i
  = Some ("  " +:+ format_2d (N.of_nat (S i)) +:+ ") " +:+ v).
Proof. intros H. unfold menu_lines. rewrite list_lookup_imap, H. reflexivity. Qed.

Lemma print_all_run (ls : list string) (w : world) :
  print_all ls w = (Return tt, foldl (fun u l => emit (Print l) u) w ls).
Proof.
  revert w. induction ls as [|l ls IH]; intros w; [reflexivity|].
  simpl. unfold bind, print. simpl. apply IH.
Qed.

Lemma foldl_emit_out (ls : list string) (w : world) :
  w_out (foldl (fun u l => emit (Print l) u) w ls) = w_out w ++ (Print <$> ls).
Proof.
  revert w. induction ls as [|l ls IH]; intros w; simpl.
  - now rewrite app_nil_r.
  - rewrite IH. simpl. now rewrite <- app_assoc.
Qed.

Lemma foldl_emit_in (ls : list string) (w : world) :
  w_in (foldl (fun u l => emit (Print l) u) w ls) = w_in w.
Proof. revert w. induction ls as [|l ls IH]; intros w; simpl; [|rewrite IH]; reflexivity. Qed.

Lemma foldl_emit_app (ls1 ls2 : list string) (w : world) :
  foldl (fun u l => emit (Print l) u) w (ls1 ++ ls2)
  = foldl (fun u l => emit (Print l) u) (foldl (fun u l => emit (Print l) u) w ls1) ls2.
Proof. revert w. induction ls1 as [|l ls1 IH]; intros w; simpl; [|rewrite IH]; reflexivity. Qed.

(** With a successful, non-empty listing the picker shows the menu and
    enters its loop. *)
Lemma prompt_for_version_menu (h : host) (env : loc) (w : world) (out : string) :
  fst (h_exec h (listing_call env w) (w_fs w)) = Exited 0 out ->
  parse_versions out <> [] ->
  prompt_for_version h env w
  = while_true (prompt_round (parse_versions out) (last15 (parse_versions out)))
      (menu_world h env w (parse_versions out)).
Proof.
  intros Hq Hne.
  unfold prompt_for_version, list_available_versions, bind at 1 2, try_except, print, run_cmd.
  cbn [fmap option_fmap option_map]. cbv zeta.
  fold retrieving_text.
  change (dict_of env (emit (Print retrieving_text) w)) with (dict_of env w).
  change (w_fs (emit (Print retrieving_text) w)) with (w_fs w).
  fold (listing_call env w).
  rewrite Hq. cbn [andb negb Z.eqb run_value].
  rewrite bool_decide_eq_false_2 by assumption.
  unfold bind at 1. unfold ret at 1 2.
  rewrite bool_decide_eq_false_2 by assumption.
  unfold bind, print. rewrite print_all_run.
  unfold menu_world. simpl. rewrite foldl_emit_app. reflexivity.
Qed.

(** With a successful listing that holds no version the picker prints
    the notice of the listing and returns without a selection. *)
Lemma prompt_for_version_empty (h : host) (env : loc) (w : world) (out : string) :
  fst (h_exec h (listing_call env w) (w_fs w)) = Exited 0 out ->
  parse_versions out = [] ->
  prompt_for_version h env w
  = (Return None,
     emit (Print "No CPython versions found in pyenv output.")
       (log_proc (listing_call env w)
          (set_fs (snd (h_exec h (listing_call env w) (w_fs w)))
             (emit (Print retrieving_text) w)))).
Proof.
  intros Hq He.
  unfold prompt_for_version, list_available_versions, bind at 1 2, try_except, print, run_cmd.
  cbn [fmap option_fmap option_map]. cbv zeta.
  fold retrieving_text.
  change (dict_of env (emit (Print retrieving_text) w)) with (dict_of env w).
  change (w_fs (emit (Print retrieving_text) w)) with (w_fs w).
  fold (listing_call env w).
  rewrite Hq. cbn [andb negb Z.eqb run_value].
  rewrite bool_decide_eq_true_2 by assumption.
  unfold bind at 1. unfold ret at 1.
  rewrite bool_decide_eq_true_2 by assumption.
  reflexivity.
Qed.

Lemma menu_world_out (h : host) (env : loc) (w : world) (versions : list string) :
  w_out (menu_world h env w versions)
  = w_out w ++ [Print retrieving_text; Print select_text]
      ++ (Print <$> menu_lines (last15 versions)) ++ [Print hint_text].
Proof.
  unfold menu_world. rewrite foldl_emit_out. simpl.
  rewrite fmap_app. simpl. now rewrite <- app_assoc.
Qed.

Lemma menu_world_in (h : host) (env : loc) (w : world) (versions : list string) :
  w_in (menu_world h env w versions) = w_in w.
Proof. unfold menu_world. now rewrite foldl_emit_in. Qed.


Lemma one_of_false (x : string) (xs : list string) : one_of x xs = false <-> x ∉ xs.
Proof. unfold one_of. apply bool_decide_eq_false. Qed.

(** A round in which a number was typed. *)
Lemma prompt_round_number (versions latest : list string) (raw : string) (n : Z)
    (u : world) (rest : list tty_event) :
  w_in u = Line raw :: rest ->
  is_empty (strip raw) = false ->
  one_of (lower (strip raw)) ["q"; "quit"; "exit"] = false ->
  isdigit (strip raw) = true ->
  int_of_digits (strip raw) = Some n ->
  prompt_round versions latest u =
    if (0 <=? n - 1) && (n - 1 <? Z.of_nat (length latest))
    then match latest !! Z.to_nat (n - 1) with
         | Some v => (Return (Some (Some v)), after_line choice_prompt rest u)
         | None => (Raise IndexError, after_line choice_prompt rest u)
         end
    else (Return None, emit (Print out_of_range_text) (after_line choice_prompt rest u)).
Proof.
  intros Hin H1 H2 H3 H4. unfold prompt_round, bind, input.
  rewrite Hin. cbv beta iota zeta. rewrite H1, H2, H3, H4.
  destruct ((0 <=? n - 1) && (n - 1 <? Z.of_nat (length latest))); [|reflexivity].
  now destruct (latest !! Z.to_nat (n - 1)).
Qed.

(** The decimal text of a small number is read back as that number. *)
Lemma small_numeral (k : nat) :
  (k <= 16)%nat ->
  let s := str_of_N (N.of_nat k) in
  strip s = s /\ is_empty s = false
  /\ one_of (lower s) ["q"; "quit"; "exit"] = false
  /\ isdigit s = true /\ int_of_digits s = Some (Z.of_nat k).
Proof.
  intros Hk.
  do 17 (destruct k as [|k]; [vm_compute; repeat split; reflexivity|]). lia.
Qed.

Lemma prompt_round_index (versions latest : list string) (k : nat)
    (u : world) (rest : list tty_event) :
  (k <= 16)%nat ->
  w_in u = Line (str_of_N (N.of_nat k)) :: rest ->
  prompt_round versions latest u =
    if (0 <=? Z.of_nat k - 1) && (Z.of_nat k - 1 <? Z.of_nat (length latest))
    then match latest !! Z.to_nat (Z.of_nat k - 1) with
         | Some v => (Return (Some (Some v)), after_line choice_prompt rest u)
         | None => (Raise IndexError, after_line choice_prompt rest u)
         end
    else (Return None, emit (Print out_of_range_text) (after_line choice_prompt rest u)).
Proof.
  intros Hk Hin. pose proof (small_numeral k Hk) as H. cbv zeta in H.
  destruct H as (Hs & H1 & H2 & H3 & H4).
  apply (prompt_round_number versions latest (str_of_N (N.of_nat k)));
    rewrite ?Hs; assumption.
Qed.

(** [C4, as stated] With an empty list (N = 0) nothing is displayed and
    nothing is read: the input 0 is still pending when the picker has
    returned, so it was not rejected and asked for again. *)
Lemma empty_list_reads_nothing :
  let r := prompt_for_version linux_host 0%nat (world_with [Line "0"] ∅) in
  parse_versions "" = []
  /\ fst r = Return None
  /\ w_in (snd r) = [Line "0"]
  /\ w_out (snd r)
     = [Print retrieving_text; Print "No CPython versions found in pyenv output."].
Proof. vm_compute. repeat split; reflexivity. Qed.

(** [C4, amended] For a successfully fetched list of N well-formed
    entries.  When N = 0, [prompt_for_version] prints the notice of the
    listing, shows no menu and returns no selection, and the input is as
    it was: nothing has been read.  When N >= 1, it prints a menu of
    exactly min(N, 15) lines numbered from 1 that shows the last
    min(N, 15) entries, and then asks.  Typing k with
    1 <= k <= min(N, 15) returns the k-th displayed entry; typing 0 or
    min(N, 15)+1 prints the out-of-range notice and asks again, without
    returning or raising. *)
Theorem menu_selection (h : host) (env : loc) (w : world) (out : string) :
  fst (h_exec h (listing_call env w) (w_fs w)) = Exited 0 out ->
  let versions := parse_versions out in
  let latest := last15 versions in
  let n := length versions in
  let shown := (n `min` 15)%nat in
  let ask := while_true (prompt_round versions latest) in
  (versions = [] ->
   fst (prompt_for_version h env w) = Return None
   /\ w_in (snd (prompt_for_version h env w)) = w_in w
   /\ w_out (snd (prompt_for_version h env w))
      = w_out w ++ [Print retrieving_text;
                    Print "No CPython versions found in pyenv output."])
  /\ (versions <> [] ->
      prompt_for_version h env w = ask (menu_world h env w versions)
      /\ w_in (menu_world h env w versions) = w_in w
      /\ w_out (menu_world h env w versions)
         = w_out w ++ [Print retrieving_text; Print select_text]
             ++ (Print <$> menu_lines latest) ++ [Print hint_text]
      /\ length (menu_lines latest) = shown
      /\ (forall k, (1 <= k <= shown)%nat ->
            exists v,
              versions !! (n - shown + (k - 1))%nat = Some v
              /\ menu_lines latest !! (k - 1)%nat
                 = Some ("  " +:+ format_2d (N.of_nat k) +:+ ") " +:+ v)
              /\ forall u rest,
                   w_in u = Line (str_of_N (N.of_nat k)) :: rest ->
                   ask u = (Return (Some v), after_line choice_prompt rest u))
      /\ (forall k u rest,
            k = 0%nat \/ k = S shown ->
            w_in u = Line (str_of_N (N.of_nat k)) :: rest ->
            ask u = ask (emit (Print out_of_range_text)
                           (after_line choice_prompt rest u)))).
Proof.
  intros Hq versions latest n shown ask.
  assert (Hlen : length latest = shown) by apply last15_length.
  split.
  { intros He. rewrite (prompt_for_version_empty h env w out Hq He).
    cbn [fst snd emit log_proc set_fs w_in w_out].
    repeat split. now rewrite <- app_assoc. }
  intros Hne.
  split; [now apply prompt_for_version_menu|].
  split; [apply menu_world_in|].
  split; [apply menu_world_out|].
  split; [now rewrite menu_lines_length|].
  split.
  - intros k Hk.
    destruct (lookup_lt_is_Some_2 latest (k - 1)) as [v Hv]; [lia|].
    exists v. split; [|split].
    + unfold latest in Hv. rewrite last15_lookup in Hv.
      rewrite <- Hv. f_equal. subst shown n. lia.
    + rewrite (menu_lines_lookup latest (k - 1) v Hv).
      replace (S (k - 1)) with k by lia. reflexivity.
    + intros u rest Hin. unfold ask. rewrite prompt_loop_unfold.
      rewrite (prompt_round_index versions latest k u rest) by (assumption || lia).
      replace ((0 <=? Z.of_nat k - 1) && (Z.of_nat k - 1 <? Z.of_nat (length latest)))
        with true by (symmetry; apply andb_true_iff; split; lia).
      replace (Z.to_nat (Z.of_nat k - 1)) with (k - 1)%nat by lia.
      now rewrite Hv.
  - intros k u rest Hk Hin. unfold ask at 1. rewrite prompt_loop_unfold.
    rewrite (prompt_round_index versions latest k u rest) by (assumption || lia).
    replace ((0 <=? Z.of_nat k - 1) && (Z.of_nat k - 1 <? Z.of_nat (length latest)))
      with false; [reflexivity|].
    symmetry. apply andb_false_iff.
    destruct Hk as [->| ->]; [left; apply Z.leb_gt | right; apply Z.ltb_ge]; lia.
Qed.

Lemma menu_selection_witness :
  (prompt_for_version pyenv_host 0%nat (world_with [Line "15"] ∅)
   = while_true
       (prompt_round (parse_versions sample_listing)
          (last15 (parse_versions sample_listing)))
       (menu_world pyenv_host 0%nat (world_with [Line "15"] ∅)
          (parse_versions sample_listing)))
  /\ w_in (snd (prompt_for_version linux_host 0%nat (world_with [Line "0"] ∅)))
     = [Line "0"].
Proof.
  split.
  - refine (proj1 (proj2 (menu_selection pyenv_host 0%nat (world_with [Line "15"] ∅)
                            sample_listing _) _)).
    + reflexivity.
    + vm_compute. discriminate.
  - refine (proj1 (proj2 (proj1 (menu_selection linux_host 0%nat
                                   (world_with [Line "0"] ∅) "" _) _))).
    + reflexivity.
    + reflexivity.
Defined.

(** ** Typing a version *)

(** *** Digits and the words that quit *)

Lemma in_ranges_above (c : N) (rs : list (N * N)) :
  forallb (fun r => (128 <=? fst r)%N) rs = true ->
  (c < 128)%N -> in_ranges c rs = false.
Proof.
  unfold in_ranges. induction rs as [|[lo hi] rs IH]; [reflexivity|].
  cbn [forallb existsb fst snd]. intros H Hc.
  apply andb_true_iff in H as [H1 H2]. apply N.leb_le in H1.
  rewrite (IH H2 Hc). unfold within.
  replace (lo <=? c)%N with false by (symmetry; apply N.leb_gt; lia).
  reflexivity.
Qed.

(** Among the ASCII characters the digits are 0 to 9. *)
Lemma ascii_digit_cp (c : N) :
  (c < 128)%N -> is_digit_cp c = true -> (48 <= c <= 57)%N.
Proof.
  intros Hc. unfold is_digit_cp, is_decimal.
  rewrite (in_ranges_above c other_digit_ranges) by (vm_compute; reflexivity || exact Hc).
  rewrite orb_false_r.
  change decimal_ranges with ((48, 57)%N :: tl decimal_ranges).
  unfold in_ranges at 1. cbn [existsb fst snd]. fold (in_ranges c (tl decimal_ranges)).
  rewrite (in_ranges_above c (tl decimal_ranges)) by (vm_compute; reflexivity || exact Hc).
  rewrite orb_false_r. unfold within. intros H.
  apply andb_true_iff in H as [H1 H2]. apply N.leb_le in H1, H2. lia.
Qed.

Lemma decode_head (b : ascii) (s : string) (c : N) (l : list N) :
  decode (String b s) = c :: l ->
  if (code b <? 128)%N then c = code b else (128 <= c)%N.
Proof.
  destruct (chunks_head b s) as (cp & bytes & rest & Hc & Hcp).
  unfold decode. rewrite Hc. cbn [fmap list_fmap fst]. now intros [= <- _].
Qed.

(** A text that begins with a digit is none of the words that quit,
    whatever the letter case. *)
Lemma digit_head_not_quit (s : string) (c : N) (l : list N) :
  decode s = c :: l ->
  is_digit_cp c = true ->
  one_of (lower s) ["q"; "quit"; "exit"] = false.
Proof.
  intros Hs Hc. destruct s as [|b s]; [discriminate Hs|].
  apply decode_head in Hs.
  destruct (lower_head b s) as (x & t & Hl & Hx). rewrite Hl.
  assert (Hq : x <> "q"%char /\ x <> "e"%char).
  { destruct (code b <? 128)%N eqn:Hb.
    - subst c. apply N.ltb_lt in Hb.
      pose proof (ascii_digit_cp (code b) Hb Hc) as Hd. unfold low in Hx.
      replace (within 65 90 (code b)) with false in Hx
        by (symmetry; unfold within; apply andb_false_iff; left; apply N.leb_gt; lia).
      subst x. unfold code in *. rewrite ascii_N_embedding.
      split; intros ->; vm_compute in Hd; destruct Hd as [H1 H2];
        (now contradiction H1) || (now contradiction H2).
    - destruct Hx as [Hx|[-> | ->]]; [|split; discriminate..].
      split; intros ->; vm_compute in Hx; now contradiction Hx. }
  destruct Hq as [Hq He]. apply one_of_false.
  intros Hin. repeat (apply elem_of_cons in Hin as [Hin|Hin]);
    try (injection Hin as Hc' _; congruence).
  now apply elem_of_nil in Hin.
Qed.



Lemma ask_round_line (text : string) (d : option bool) (ans : string)
    (u : world) (rest : list tty_event) :
  w_in u = Line ans :: rest ->
  ask_round text d u =
    (match is_empty (lower (strip ans)), d with
     | true, Some b => ret (Some b)
     | _, _ =>
         if one_of (lower (strip ans)) ["y"; "yes"] then ret (Some true)
         else if one_of (lower (strip ans)) ["n"; "no"] then ret (Some false)
         else bind (print "Please answer 'y' or 'n'.") (fun _ => ret None)
     end) (after_line text rest u).
Proof. intros Hin. unfold ask_round, bind at 1, input. now rewrite Hin. Qed.




(** ** Exit codes *)

Ltac run_stage :=
  match goal with
  | |- context [match ?x with pair _ _ => _ end] =>
      destruct x as [[?|?] ?]; try reflexivity
  | |- context [if ?b then _ else _] => destruct b; try reflexivity
  | |- context [match ?x with Some _ => _ | None => _ end] =>
      destruct x; try reflexivity
  | |- context [match ?x with EmptyString => _ | String _ _ => _ end] =>
      destruct x; try reflexivity
  end.

Lemma main_stages (h : host) (w : world) : main h w = main_staged h w.
Proof.
  unfold main, main_staged, startup, setup, wrap_up, bind, ret.
  repeat (cbv beta iota; cbn [fst snd]; run_stage).
Qed.

#[local] Instance no_process_preorder : PreOrder no_process.
Proof.
  split; unfold no_process; [intros w; reflexivity | intros a b c Hab Hbc; congruence].
Qed.

Lemma procs_kept {A} (m : M A) :
  (forall w, w_procs (snd (m w)) = w_procs w) -> keeps no_process m any.
Proof. intros H w. split; [apply H | intros; exact I]. Qed.

Ltac procs_kept :=
  apply procs_kept; intros w; cbv beta zeta delta
    [print is_file read_text environ_copy];
  repeat match goal with
    | |- context [match ?x with _ => _ end] => destruct x
    end; reflexivity.

Lemma print_no_process s : keeps no_process (print s) any.
Proof. procs_kept. Qed.
Lemma is_file_no_process p : keeps no_process (is_file p) any.
Proof. procs_kept. Qed.
Lemma read_text_no_process p : keeps no_process (read_text p) any.
Proof. procs_kept. Qed.
Lemma environ_copy_no_process : keeps no_process environ_copy any.
Proof. procs_kept. Qed.

#[local] Hint Resolve print_no_process is_file_no_process read_text_no_process
  environ_copy_no_process : frame.


(** [main] returns 0 or 1. *)
Lemma main_status (h : host) : keeps anything (main h) (fun c => c = 0 \/ c = 1).
Proof.
  unfold main.
  repeat first
    [ apply (keeps_bind _) with (P := any); [apply run_anything | intros ? _]
    | apply (keeps_ret _); auto
    | match goal with
      | |- keeps _ (match ?x with _ => _ end) _ => destruct x
      end ].
Qed.

Lemma command_exists_pure (h : host) (name : string) (env : option loc) (w : world) :
  exists b, command_exists h name env w = (Return b, w).
Proof. unfold command_exists. eauto. Qed.




(* ===================================================================== *)
(** * Further properties                                                 *)
(* ===================================================================== *)

(** ** Yes/no questions *)

Lemma ask_round_recognised (text : string) (d : option bool) (raw : string)
    (u : world) (rest : list tty_event) :
  w_in u = Line raw :: rest ->
  ask_round text d u =
    match recognised d raw with
    | Some b => (Return (Some b), after_line text rest u)
    | None => (Return None, emit (Print answer_hint) (after_line text rest u))
    end.
Proof.
  intros Hin. rewrite (ask_round_line text d raw u rest Hin). unfold recognised.
  destruct (is_empty (lower (strip raw))), d as [d|];
    repeat match goal with
      | |- context [if ?b then _ else _] => destruct b
      end; reflexivity.
Qed.

(** [ask_yes_no] skips the lines it does not understand, printing the
    hint once for each, and returns what the first understood line
    says; only the terminal is involved. *)
Theorem ask_yes_no_first_answer (prompt : string) (d : option bool)
    (junk : list string) (good : string) (b : bool)
    (rest : list tty_event) (u : world) :
  Forall (fun raw => recognised d raw = None) junk ->
  recognised d good = Some b ->
  w_in u = (Line <$> junk) ++ Line good :: rest ->
  let text := prompt +:+ ask_suffix d in
  let r := ask_yes_no prompt d u in
  fst r = Return b
  /\ w_in (snd r) = rest
  /\ w_out (snd r) = w_out u ++ hints text (length junk) ++ [Ask text]
  /\ terminal_only u (snd r).
Proof.
  intros Hjunk Hgood. revert u.
  induction Hjunk as [|raw junk Hraw _ IH]; intros u Hin text r; subst r text.
  - rewrite ask_yes_no_unfold, (ask_round_recognised _ _ good u rest Hin), Hgood.
    simpl. repeat split; reflexivity.
  - change ((Line <$> raw :: junk) ++ Line good :: rest)
      with (Line raw :: ((Line <$> junk) ++ Line good :: rest)) in Hin.
    set (tail := (Line <$> junk) ++ Line good :: rest) in *.
    rewrite ask_yes_no_unfold, (ask_round_recognised _ _ raw u tail Hin), Hraw.
    destruct (IH (emit (Print answer_hint)
                   (after_line (prompt +:+ ask_suffix d) tail u)) eq_refl)
      as (Hr & Hi & Ho & Hf & Hh & Hp).
    rewrite Hr, Hi, Ho. simpl. rewrite <- !app_assoc. simpl.
    repeat split; assumption.
Qed.

Lemma ask_yes_no_first_answer_witness :
  fst (ask_yes_no "Proceed?" (Some true)
         (world_with [Line "maybe"; Line " YES "; Line "n"] ∅)) = Return true.
Proof.
  apply (ask_yes_no_first_answer "Proceed?" (Some true) ["maybe"] " YES " true
           [Line "n"] (world_with [Line "maybe"; Line " YES "; Line "n"] ∅)).
  - repeat constructor.
  - reflexivity.
  - reflexivity.
Defined.

(** ** Which exceptions a computation can end in *)

Lemma raises_only_weaken {A} (ok ok' : exn -> Prop) (m : M A) :
  raises_only ok m -> (forall e, ok e -> ok' e) -> raises_only ok' m.
Proof. intros H Hok w e He. eauto. Qed.

Lemma raises_only_ret {A} (ok : exn -> Prop) (a : A) : raises_only ok (ret a).
Proof. intros w e. discriminate. Qed.

Lemma raises_only_raise {A} (ok : exn -> Prop) (e : exn) :
  ok e -> raises_only ok (@raise A e).
Proof. intros He w e'. simpl. now intros [= <-]. Qed.

Lemma raises_only_bind {A B} (ok : exn -> Prop) (m : M A) (k : A -> M B) :
  raises_only ok m -> (forall a, raises_only ok (k a)) -> raises_only ok (bind m k).
Proof.
  intros Hm Hk w e. unfold bind. specialize (Hm w).
  destruct (m w) as [[a|e'] w1]; simpl in *.
  - apply Hk.
  - intros [= <-]. now apply Hm.
Qed.

(** The body may raise what the handler catches. *)
Lemma raises_only_try {A B} (ok inner : exn -> Prop) (body : M A)
    (handles : exn -> bool) (handler : exn -> M B) (orelse : A -> M B) :
  raises_only inner body ->
  (forall e, inner e -> handles e = false -> ok e) ->
  (forall e, raises_only ok (handler e)) ->
  (forall a, raises_only ok (orelse a)) ->
  raises_only ok (try_except body handles handler orelse).
Proof.
  intros Hb Hin Hh Ho w e. unfold try_except. specialize (Hb w).
  destruct (body w) as [[a|e'] w1]; simpl in *.
  - apply Ho.
  - destruct (handles e') eqn:He'.
    + apply Hh.
    + intros [= <-]. apply Hin; [now apply Hb | assumption].
Qed.

Lemma raises_only_loop_fuel {A} (ok : exn -> Prop) (body : M (option A)) (fuel : nat) :
  ok EOFError -> raises_only ok body -> raises_only ok (loop_fuel fuel body).
Proof.
  intros Heof Hb. induction fuel as [|fuel IH]; intros w e; simpl;
    specialize (Hb w); destruct (body w) as [[[a|]|e'] w1]; simpl in *;
    try discriminate; try (intros [= <-]; auto; fail).
  apply IH.
Qed.

Lemma raises_only_while_true {A} (ok : exn -> Prop) (body : M (option A)) :
  ok EOFError -> raises_only ok body -> raises_only ok (while_true body).
Proof. intros Heof Hb w. unfold while_true. now apply raises_only_loop_fuel. Qed.

Lemma raises_only_any {A} (m : M A) : raises_only (fun _ => True) m.
Proof. intros w e _. exact I. Qed.

(** A computation that always returns. *)
Lemma never_raises {A} (ok : exn -> Prop) (m : M A) :
  (forall w, exists a, fst (m w) = Return a) -> raises_only ok m.
Proof. intros H w e He. destruct (H w) as [a Ha]. congruence. Qed.

Create HintDb raises.

Ltac never_raises :=
  apply never_raises; intros w; cbv beta zeta delta
    [print print_exc is_file is_dir dict_get dict_set environ_copy command_exists];
  eauto.

Lemma print_raises ok s : raises_only ok (print s).
Proof. never_raises. Qed.
Lemma print_exc_raises ok s e : raises_only ok (print_exc s e).
Proof. never_raises. Qed.
Lemma is_file_raises ok p : raises_only ok (is_file p).
Proof. never_raises. Qed.
Lemma is_dir_raises ok p : raises_only ok (is_dir p).
Proof. never_raises. Qed.
Lemma dict_get_raises ok l k : raises_only ok (dict_get l k).
Proof. never_raises. Qed.
Lemma dict_set_raises ok l k v : raises_only ok (dict_set l k v).
Proof. never_raises. Qed.
Lemma environ_copy_raises ok : raises_only ok environ_copy.
Proof. never_raises. Qed.
Lemma command_exists_raises ok h n e : raises_only ok (command_exists h n e).
Proof. never_raises. Qed.

Lemma print_all_raises ok ls : raises_only ok (print_all ls).
Proof.
  induction ls as [|l ls IH]; simpl; [apply raises_only_ret|].
  apply raises_only_bind; [apply print_raises | intros _; exact IH].
Qed.

Lemma input_raises (ok : exn -> Prop) s :
  ok EOFError -> ok KeyboardInterrupt -> raises_only ok (input s).
Proof.
  intros H1 H2 w e. unfold input.
  destruct (w_in w) as [|[raw|] rest]; simpl; try discriminate; now intros [= <-].
Qed.

Lemma dict_item_raises (ok : exn -> Prop) l k : ok KeyError -> raises_only ok (dict_item l k).
Proof.
  intros H w e. unfold dict_item.
  destruct (dict_of l w !! k); simpl; try discriminate; now intros [= <-].
Qed.

Lemma read_text_raises (ok : exn -> Prop) p :
  ok OSError -> ok UnicodeDecodeError -> raises_only ok (read_text p).
Proof.
  intros H1 H2 w e. unfold read_text.
  destruct (w_fs w !! p) as [[|[] ? []]|]; simpl; try discriminate; now intros [= <-].
Qed.

Lemma append_text_raises (ok : exn -> Prop) p t : ok OSError -> raises_only ok (append_text p t).
Proof.
  intros H w e. unfold append_text.
  destruct (w_fs w !! p) as [[|? [] []]|]; [| | | | |destruct (may_create_in _ _)];
    simpl; try discriminate; now intros [= <-].
Qed.

Lemma mkdir_p_raises (ok : exn -> Prop) p : ok OSError -> raises_only ok (mkdir_p p).
Proof.
  intros H w e. unfold mkdir_p.
  destruct (mkdir_chain _ _ _); simpl; try discriminate; now intros [= <-].
Qed.

#[local] Hint Resolve print_raises print_exc_raises is_file_raises is_dir_raises
  dict_get_raises dict_set_raises environ_copy_raises command_exists_raises
  print_all_raises raises_only_any : raises.

Lemma raises_only_try_handled {A B} (ok : exn -> Prop) (body : M A)
    (handles : exn -> bool) (handler : exn -> M B) (orelse : A -> M B) :
  raises_only (fun e => handles e = true \/ ok e) body ->
  (forall e, raises_only ok (handler e)) ->
  (forall a, raises_only ok (orelse a)) ->
  raises_only ok (try_except body handles handler orelse).
Proof.
  intros Hb Hh Ho. apply (raises_only_try ok (fun e => handles e = true \/ ok e));
    try assumption.
  intros e [He|He] Hn; [congruence | assumption].
Qed.

Lemma run_cmd_raises (ok : exn -> Prop) h c chk cap e cwd :
  (forall x, ok x) -> raises_only ok (run_cmd h c chk cap e cwd).
Proof. intros H w x _. apply H. Qed.

Ltac ok_solve :=
  cbv beta; unfold terminal_failure, not_process_error; simpl;
  first [ discriminate | reflexivity | tauto
        | intuition (first [discriminate | reflexivity | congruence]) ].

Ltac raises_leaf :=
  first
    [ solve [eauto 2 with raises nocore]
    | apply input_raises; ok_solve
    | apply dict_item_raises; ok_solve
    | apply read_text_raises; ok_solve
    | apply append_text_raises; ok_solve
    | apply mkdir_p_raises; ok_solve
    | apply run_cmd_raises; intros []; ok_solve
    | eapply raises_only_weaken;
      [ solve [eauto 2 with raises nocore] | intros ? ?; ok_solve ] ].

Ltac raises :=
  cbv beta zeta iota;
  lazymatch goal with
  | |- raises_only _ (bind _ _) =>
      apply raises_only_bind; [ raises | intros ?; raises ]
  | |- raises_only _ (try_except _ _ _ _) =>
      apply raises_only_try_handled; [ raises | intros ?; raises | intros ?; raises ]
  | |- raises_only _ (ret _) => apply raises_only_ret
  | |- raises_only _ (raise _) => apply raises_only_raise; ok_solve
  | |- raises_only _ (while_true _) =>
      apply raises_only_while_true; [ ok_solve | raises ]
  | |- raises_only _ (match ?x with _ => _ end) => destruct x eqn:?; raises
  | |- _ => try raises_leaf
  end.

#[local] Instance terminal_only_preorder : PreOrder terminal_only.
Proof.
  split; unfold terminal_only.
  - intros w. auto.
  - intros a b c (H1 & H2 & H3) (H4 & H5 & H6). repeat split; congruence.
Qed.

Lemma print_terminal s : keeps terminal_only (print s) any.
Proof. intros w. split; [now repeat split | intros; exact I]. Qed.

Lemma input_terminal s : keeps terminal_only (input s) any.
Proof.
  intros w. split; [|intros; exact I].
  unfold input. destruct (w_in w) as [|[raw|] rest]; now repeat split.
Qed.

#[local] Hint Resolve print_terminal input_terminal : frame.

(** [ask_yes_no] uses the terminal and nothing else, and ends in no
    exception but end of input or an interrupt. *)
Theorem ask_yes_no_terminal_only (prompt : string) (d : option bool) (w : world) :
  terminal_only w (snd (ask_yes_no prompt d w))
  /\ (forall e, fst (ask_yes_no prompt d w) = Raise e -> terminal_failure e)
  /\ (w_in w = [] -> fst (ask_yes_no prompt d w) = Raise EOFError).
Proof.
  split; [|split].
  - assert (H : keeps terminal_only (ask_yes_no prompt d) any)
      by (unfold ask_yes_no, ask_round; frame).
    apply H.
  - assert (H : raises_only terminal_failure (ask_yes_no prompt d))
      by (unfold ask_yes_no, ask_round; raises).
    apply H.
  - intros Hin. rewrite ask_yes_no_unfold.
    unfold ask_round, bind, input. now rewrite Hin.
Qed.

Lemma ask_yes_no_terminal_only_witness :
  fst (ask_yes_no "Proceed?" None (world_with [] ∅)) = Raise EOFError.
Proof.
  refine (proj2 (proj2 (ask_yes_no_terminal_only "Proceed?" None (world_with [] ∅))) _).
  reflexivity.
Defined.

(** ** Failing child processes *)

Section NoProcessError.

Variable h : host.

Lemma ask_yes_no_npe p d : raises_only not_process_error (ask_yes_no p d).
Proof. unfold ask_yes_no, ask_round. raises. Qed.
#[local] Hint Resolve ask_yes_no_npe : raises.

Lemma ensure_pyenv_in_env_npe env : raises_only not_process_error (ensure_pyenv_in_env h env).
Proof. unfold ensure_pyenv_in_env. raises. Qed.
#[local] Hint Resolve ensure_pyenv_in_env_npe : raises.

Lemma detect_environment_npe : raises_only not_process_error (detect_environment h).
Proof. unfold detect_environment, detect_wsl. raises. Qed.

Lemma append_to_shell_rc_npe s :
  raises_only not_process_error (append_to_shell_rc_if_missing h s).
Proof. unfold append_to_shell_rc_if_missing, shell_rc. raises. Qed.
#[local] Hint Resolve detect_environment_npe append_to_shell_rc_npe : raises.

Lemma install_pyenv_macos_npe env :
  raises_only not_process_error (install_pyenv_macos h env).
Proof. unfold install_pyenv_macos. raises. Qed.

Lemma install_pyenv_ubuntu_like_npe env is_wsl :
  raises_only not_process_error (install_pyenv_ubuntu_like h env is_wsl).
Proof. unfold install_pyenv_ubuntu_like. raises. Qed.
#[local] Hint Resolve install_pyenv_macos_npe install_pyenv_ubuntu_like_npe : raises.

Lemma ensure_pyenv_and_virtualenv_npe env_name env :
  raises_only not_process_error (ensure_pyenv_and_virtualenv h env_name env).
Proof. unfold ensure_pyenv_and_virtualenv. raises. Qed.

Lemma list_available_versions_npe env :
  raises_only not_process_error (list_available_versions h env).
Proof. unfold list_available_versions. raises. Qed.
#[local] Hint Resolve ensure_pyenv_and_virtualenv_npe list_available_versions_npe : raises.

Lemma prompt_for_version_npe env :
  raises_only not_process_error (prompt_for_version h env).
Proof. unfold prompt_for_version, prompt_round. raises. Qed.

Lemma ensure_version_installed_npe version env :
  raises_only not_process_error (ensure_version_installed h version env).
Proof. unfold ensure_version_installed. raises. Qed.

Lemma maybe_set_global_version_npe version env :
  raises_only not_process_error (maybe_set_global_version h version env).
Proof. unfold maybe_set_global_version. raises. Qed.

Lemma create_demo_virtualenv_npe version env :
  raises_only not_process_error (create_demo_virtualenv h version env).
Proof. unfold create_demo_virtualenv. raises. Qed.
#[local] Hint Resolve prompt_for_version_npe ensure_version_installed_npe
  maybe_set_global_version_npe create_demo_virtualenv_npe : raises.

Lemma main_npe : raises_only not_process_error (main h).
Proof. unfold main, print_banner, print_windows_wsl_instructions. raises. Qed.

End NoProcessError.

(** No child process that exits with a non-zero status can abort the
    run: [CalledProcessError] never leaves [main], nor any of the
    functions that start processes. *)
Theorem process_failure_never_escapes (h : host) (w : world) :
  fst (main h w) <> Raise CalledProcessError
  /\ (forall env is_wsl,
        fst (install_pyenv_macos h env w) <> Raise CalledProcessError
        /\ fst (install_pyenv_ubuntu_like h env is_wsl w) <> Raise CalledProcessError)
  /\ (forall env_name env,
        fst (ensure_pyenv_and_virtualenv h env_name env w) <> Raise CalledProcessError)
  /\ (forall version env,
        fst (list_available_versions h env w) <> Raise CalledProcessError
        /\ fst (ensure_version_installed h version env w) <> Raise CalledProcessError
        /\ fst (maybe_set_global_version h version env w) <> Raise CalledProcessError
        /\ fst (create_demo_virtualenv h version env w) <> Raise CalledProcessError).
Proof.
  assert (Hno : forall A (m : M A),
            raises_only not_process_error m -> fst (m w) <> Raise CalledProcessError).
  { intros A m Hm He. now apply (Hm w CalledProcessError He). }
  split; [apply Hno, main_npe|].
  split; [intros; split; apply Hno;
          [apply install_pyenv_macos_npe | apply install_pyenv_ubuntu_like_npe]|].
  split; [intros; apply Hno, ensure_pyenv_and_virtualenv_npe|].
  intros version env.
  repeat split; apply Hno;
    [ apply list_available_versions_npe | apply ensure_version_installed_npe
    | apply maybe_set_global_version_npe | apply create_demo_virtualenv_npe ].
Qed.

Lemma process_failure_never_escapes_witness :
  fst (main linux_host (world_with [] ubuntu_files)) <> Raise CalledProcessError.
Proof.
  exact (proj1 (process_failure_never_escapes linux_host (world_with [] ubuntu_files))).
Defined.

(** ** Detection: what it leaves alone and what counts as a miss *)

Lemma detect_environment_reads_only (h : host) (w : world) :
  snd (detect_environment h w) = w.
Proof.
  unfold detect_environment, detect_wsl, try_except, bind, read_text, is_file, ret.
  destruct (lower (h_system h) =? "darwin")%string; [reflexivity|].
  destruct (lower (h_system h) =? "windows")%string; [reflexivity|].
  destruct (lower (h_system h) =? "linux")%string; [|reflexivity].
  repeat first
    [ progress simpl
    | match goal with
      | |- context [w_fs w !! ?p] => destruct (w_fs w !! p) as [[|[] ? [?|]]|]
      end
    | match goal with
      | |- context [if ?c then _ else _] => destruct c
      end ];
    reflexivity.
Qed.

(** Detection only looks: whatever it returns or raises, the world is as
    before.  Darwin and Windows are recognised in any letter case and
    without a look at the files; a platform that is none of Darwin,
    Windows and Linux is "other". *)
Theorem detect_environment_only_looks (h : host) (w : world) :
  snd (detect_environment h w) = w
  /\ (lower (h_system h) = "darwin" -> fst (detect_environment h w) = Return "macos")
  /\ (lower (h_system h) = "windows" -> fst (detect_environment h w) = Return "windows")
  /\ (lower (h_system h) <> "darwin" -> lower (h_system h) <> "windows" ->
      lower (h_system h) <> "linux" -> fst (detect_environment h w) = Return "other").
Proof.
  split; [|split; [|split]].
  - apply detect_environment_reads_only.
  - intros Hs. unfold detect_environment. now rewrite Hs.
  - intros Hs. unfold detect_environment. now rewrite Hs.
  - intros H1 H2 H3. unfold detect_environment.
    apply String.eqb_neq in H1, H2, H3. now rewrite H1, H2, H3.
Qed.

Lemma detect_environment_only_looks_witness :
  fst (detect_environment windows_host (world_with [] ∅)) = Return "windows".
Proof.
  refine (proj1 (proj2 (proj2 (detect_environment_only_looks windows_host
                                 (world_with [] ∅)))) _).
  reflexivity.
Defined.

(** On Linux a [/proc/version] that cannot be opened is a miss, not an
    error: the release file alone decides between "ubuntu" and "other".
    Without a release file the result is "other", with or without a WSL
    marker in [/proc/version]. *)
Theorem detect_environment_misses (h : host) (w : world) :
  lower (h_system h) = "linux" ->
  (forall os_release,
     cannot_open (w_fs w !! "/proc/version") ->
     readable_text (w_fs w !! "/etc/os-release") os_release ->
     detect_environment h w
     = (Return (if has_ubuntu_marker os_release then "ubuntu" else "other"), w))
  /\ (is_regular (w_fs w !! "/etc/os-release") = false ->
      (cannot_open (w_fs w !! "/proc/version")
       \/ exists proc_version, readable_text (w_fs w !! "/proc/version") proc_version) ->
      detect_environment h w = (Return "other", w)).
Proof.
  intros Hl. split.
  - intros osr Hp [rw Hr].
    pose proof (has_ubuntu_marker_read osr) as Hu.
    unfold has_ubuntu_marker in Hu |- *.
    unfold detect_environment, detect_wsl, try_except, bind, read_text, is_file, ret.
    rewrite Hl. simpl.
    destruct (w_fs w !! "/proc/version") as [[|[] pw pd]|]; simpl in Hp |- *;
      try contradiction; repeat (rewrite Hr; simpl); rewrite ?Hu;
      destruct (str_in "ubuntu" (lower osr)); reflexivity.
  - intros Hr Hp. unfold is_regular in Hr.
    unfold detect_environment, detect_wsl, try_except, bind, read_text, is_file, ret.
    rewrite Hl. simpl.
    destruct Hp as [Hp|[pv [pw Hp]]].
    + destruct (w_fs w !! "/proc/version") as [[|[] pw pd]|]; simpl in Hp |- *;
        try contradiction; repeat (rewrite Hr; simpl); reflexivity.
    + rewrite Hp. simpl.
      destruct (str_in "microsoft" _ || str_in "wsl" _); simpl;
        repeat (rewrite Hr; simpl); reflexivity.
Qed.

Lemma detect_environment_misses_witness :
  detect_environment linux_host
    (world_with [] {[ "/etc/os-release" := text_file "ID=ubuntu" ]})
  = (Return "ubuntu", world_with [] {[ "/etc/os-release" := text_file "ID=ubuntu" ]}).
Proof.
  destruct (detect_environment_misses linux_host
              (world_with [] {[ "/etc/os-release" := text_file "ID=ubuntu" ]}) eq_refl)
    as [H _].
  apply (H "ID=ubuntu").
  - exact I.
  - exists true. reflexivity.
Defined.

(** ** The environment dict: what [ensure_pyenv_in_env] writes *)

Lemma str_in_app_l (s t : string) : str_in s (s +:+ t) = true.
Proof.
  assert (Hs : forall u, startswith s (s +:+ u) = true).
  { induction s as [|c s IH]; intros u; [reflexivity|].
    simpl. now rewrite Ascii.eqb_refl, IH. }
  destruct s as [|c s]; [now destruct t|].
  change (String c s +:+ t) with (String c (s +:+ t)).
  cbn [str_in]. change (String c (s +:+ t)) with (String c s +:+ t).
  now rewrite Hs.
Qed.

Lemma path_with_bin_has_bin (bin p : string) :
  str_in bin (path_with_bin bin p) = true.
Proof.
  unfold path_with_bin. destruct (str_in bin p) eqn:E; [exact E|].
  apply str_in_app_l.
Qed.

Lemma normal_path_nonempty (root : string) (parts : list string) :
  is_empty (normal_path root parts) = false.
Proof.
  unfold normal_path. cbv zeta.
  destruct (is_empty (root +:+ join_with "/" parts)) eqn:E; [reflexivity | exact E].
Qed.

Lemma set_heap_same (w : world) : set_heap (w_heap w) w = w.
Proof. now destruct w. Qed.

(** The whole effect of a call that finds the root directory and a
    [PATH] in the dict. *)
Lemma ensure_pyenv_in_env_run (h : host) (env : loc) (w : world) (p : string) (wr : bool) :
  w_fs w !! pure_path (pyenv_root_of h w) = Some (Dir wr) ->
  dict_of env w !! "PATH" = Some p ->
  ensure_pyenv_in_env h (Some env) w
  = (Return env,
     set_heap
       (<[env := <["PATH" := path_with_bin (path_join (pyenv_root_of h w) "bin") p]>
                   (<["PYENV_ROOT" := pyenv_root_of h w]> (dict_of env w))]>
          (w_heap w)) w).
Proof.
  intros Hdir Hp.
  unfold ensure_pyenv_in_env, bind, ret, dict_get, is_dir. simpl.
  fold (pyenv_root_of h w). rewrite Hdir. simpl.
  unfold dict_item, dict_set, path_with_bin. simpl.
  assert (Hd : dict_of env
                 (set_heap (<[env := <["PYENV_ROOT" := pyenv_root_of h w]> (dict_of env w)]>
                              (w_heap w)) w)
               = <["PYENV_ROOT" := pyenv_root_of h w]> (dict_of env w)).
  { unfold dict_of at 1. simpl. now rewrite lookup_insert_eq. }
  rewrite !Hd. rewrite lookup_insert_ne by discriminate. rewrite Hp. simpl.
  destruct (str_in (path_join (pyenv_root_of h w) "bin") p) eqn:E; simpl.
  - f_equal. unfold set_heap. simpl. f_equal. f_equal.
    symmetry. apply insert_id. now rewrite lookup_insert_ne by discriminate.
  - rewrite !Hd. rewrite lookup_insert_ne by discriminate. rewrite Hp. simpl.
    rewrite !Hd. f_equal. unfold set_heap. simpl. f_equal.
    apply insert_insert_eq.
Qed.

Lemma str_in_bin_empty (root : string) : str_in (path_join root "bin") "" = false.
Proof.
  pose proof (normal_path_nonempty (path_root root) (path_parts root ++ path_parts "bin"))
    as Hn.
  unfold path_join. destruct (normal_path _ _); [discriminate Hn|reflexivity].
Qed.

(** The failing call: the root directory is there, the dict has no
    [PATH]. *)
Lemma ensure_pyenv_in_env_no_path (h : host) (env : loc) (w : world) (wr : bool) :
  w_fs w !! pure_path (pyenv_root_of h w) = Some (Dir wr) ->
  dict_of env w !! "PATH" = None ->
  ensure_pyenv_in_env h (Some env) w
  = (Raise KeyError,
     set_heap (<[env := <["PYENV_ROOT" := pyenv_root_of h w]> (dict_of env w)]>
                 (w_heap w)) w).
Proof.
  intros Hdir Hp.
  unfold ensure_pyenv_in_env, bind, ret, dict_get, is_dir. simpl.
  fold (pyenv_root_of h w). rewrite Hdir. simpl.
  unfold dict_item, dict_set. simpl.
  assert (Hd : dict_of env
                 (set_heap (<[env := <["PYENV_ROOT" := pyenv_root_of h w]> (dict_of env w)]>
                              (w_heap w)) w)
               = <["PYENV_ROOT" := pyenv_root_of h w]> (dict_of env w)).
  { unfold dict_of at 1. simpl. now rewrite lookup_insert_eq. }
  rewrite !Hd. rewrite lookup_insert_ne by discriminate. rewrite Hp. simpl.
  pose proof (str_in_bin_empty (pyenv_root_of h w)) as Hb.
  cbn [str_in] in Hb. rewrite Hb. simpl. rewrite !Hd.
  rewrite lookup_insert_ne by discriminate. now rewrite Hp.
Qed.



(** A second call on the same dict changes nothing: once a call has
    returned, [PYENV_ROOT] is set and [PATH] names the [bin] directory, so
    [PATH] does not grow however often the script asks again. *)
Theorem ensure_pyenv_in_env_idempotent (h : host) (env : loc) (w w1 : world) :
  env <> environ_loc ->
  ensure_pyenv_in_env h (Some env) w = (Return env, w1) ->
  ensure_pyenv_in_env h (Some env) w1 = (Return env, w1).
Proof.
  intros Hne Hrun.
  destruct (w_fs w !! pure_path (pyenv_root_of h w)) as [[dw|r wr d]|] eqn:Hdir.
  - destruct (dict_of env w !! "PATH") as [p|] eqn:Hp;
      [ rewrite (ensure_pyenv_in_env_run h env w p dw Hdir Hp) in Hrun
      | rewrite (ensure_pyenv_in_env_no_path h env w dw Hdir Hp) in Hrun; discriminate ].
    injection Hrun as Hw1. symmetry in Hw1.
    set (root := pyenv_root_of h w) in *.
    set (bin := path_join root "bin") in *.
    set (d1 := <["PATH" := path_with_bin bin p]>
                 (<["PYENV_ROOT" := root]> (dict_of env w))) in *.
    assert (Hroot : pyenv_root_of h w1 = root).
    { subst w1. unfold pyenv_root_of, dict_of. simpl.
      now rewrite lookup_insert_ne by exact Hne. }
    assert (Hheap : w_heap w1 !! env = Some d1).
    { subst w1. simpl. apply lookup_insert_eq. }
    assert (Hd1 : dict_of env w1 = d1).
    { unfold dict_of. now rewrite Hheap. }
    assert (Hfs : w_fs w1 = w_fs w) by now subst w1.
    rewrite (ensure_pyenv_in_env_run h env w1 (path_with_bin bin p) dw).
    + rewrite Hroot, Hd1. fold bin. f_equal.
      etransitivity; [|apply set_heap_same]. f_equal.
      apply insert_id. rewrite Hheap. f_equal.
      assert (Hpb : path_with_bin bin (path_with_bin bin p) = path_with_bin bin p).
      { unfold path_with_bin at 1. now rewrite path_with_bin_has_bin. }
      rewrite Hpb.
      assert (Hl1 : d1 !! "PYENV_ROOT" = Some root).
      { subst d1. rewrite lookup_insert_ne by discriminate. apply lookup_insert_eq. }
      assert (Hl2 : d1 !! "PATH" = Some (path_with_bin bin p)).
      { subst d1. apply lookup_insert_eq. }
      rewrite (insert_id d1 _ _ Hl1). symmetry. exact (insert_id d1 _ _ Hl2).
    + now rewrite Hroot, Hfs.
    + rewrite Hd1. subst d1. apply lookup_insert_eq.
  - assert (Hsame : ensure_pyenv_in_env h (Some env) w = (Return env, w)).
    { unfold ensure_pyenv_in_env, bind, ret, dict_get, is_dir. simpl.
      fold (pyenv_root_of h w). now rewrite Hdir. }
    rewrite Hsame in Hrun. injection Hrun as <-. exact Hsame.
  - assert (Hsame : ensure_pyenv_in_env h (Some env) w = (Return env, w)).
    { unfold ensure_pyenv_in_env, bind, ret, dict_get, is_dir. simpl.
      fold (pyenv_root_of h w). now rewrite Hdir. }
    rewrite Hsame in Hrun. injection Hrun as <-. exact Hsame.
Qed.

Lemma ensure_pyenv_in_env_idempotent_witness :
  let w1 := snd (ensure_pyenv_in_env linux_host (Some 1%nat) pyenv_world) in
  ensure_pyenv_in_env linux_host (Some 1%nat) w1 = (Return 1%nat, w1).
Proof.
  apply (ensure_pyenv_in_env_idempotent linux_host 1%nat pyenv_world).
  - discriminate.
  - vm_compute. reflexivity.
Defined.

(** ** Nothing is run without a yes *)

Lemma ask_round_no_line (text : string) (d : option bool) (u : world) :
  (w_in u = [] -> ask_round text d u = (Raise EOFError, emit (Ask text) u))
  /\ (forall rest, w_in u = CtrlC :: rest ->
      ask_round text d u = (Raise KeyboardInterrupt, set_in rest (emit (Ask text) u))).
Proof.
  split; [intros Hin | intros rest Hin];
    unfold ask_round, bind, input; now rewrite Hin.
Qed.

(** A question that gets no yes does not return [True], and uses only
    the terminal. *)
Lemma ask_yes_no_declined (prompt : string) (d : option bool) (w : world) :
  no_consent d w ->
  fst (ask_yes_no prompt d w) <> Return true
  /\ terminal_only w (snd (ask_yes_no prompt d w)).
Proof.
  unfold no_consent. remember (w_in w) as l eqn:Hin. symmetry in Hin.
  revert w Hin. induction l as [|ev l IH]; intros w Hin Hno.
  - rewrite ask_yes_no_unfold, (proj1 (ask_round_no_line _ d w) Hin).
    split; [discriminate | repeat split].
  - destruct ev as [raw|].
    + rewrite ask_yes_no_unfold, (ask_round_recognised _ d raw w l Hin).
      apply Forall_cons in Hno as [Hraw Hno]. simpl in Hraw.
      destruct (recognised d raw) as [[|]|].
      * now contradiction Hraw.
      * split; [discriminate | repeat split].
      * destruct (IH (emit (Print answer_hint)
                        (after_line (prompt +:+ ask_suffix d) l w)) eq_refl Hno)
          as (Hr & Hf & Hh & Hp).
        split; [exact Hr | repeat split; assumption].
    + rewrite ask_yes_no_unfold, (proj2 (ask_round_no_line _ d w) l Hin).
      split; [discriminate | repeat split].
Qed.

Lemma ensure_pyenv_in_env_system (h : host) (env : option loc) (w : world) :
  system_untouched w (snd (ensure_pyenv_in_env h env w)).
Proof.
  unfold ensure_pyenv_in_env, bind, ret, dict_get, is_dir, dict_item, dict_set,
    environ_copy, system_untouched.
  destruct env as [env|]; simpl;
    repeat first
      [ progress simpl
      | match goal with
        | |- context [match ?x with Some _ => _ | None => _ end] => destruct x
        | |- context [if ?c then _ else _] => destruct c
        end ];
    split; reflexivity.
Qed.


(** A question on which the answer depends: when no waiting line is a
    yes, the [True] branch is not taken. *)
Ltac declined Hno :=
  match goal with
  | |- context [ask_yes_no ?p ?d ?u] =>
      let Hr := fresh "Hr" in
      destruct (ask_yes_no_declined p d u Hno) as (Hr & ? & ? & ?);
      destruct (ask_yes_no p d u) as [[[|]|?] ?];
      cbn [fst snd negb] in *; cbv beta iota;
      [ now contradiction Hr | .. ]
  end.

Lemma install_pyenv_macos_declined (h : host) (env : loc) (w : world) :
  no_consent (Some true) w ->
  terminal_only w (snd (install_pyenv_macos h env w)).
Proof.
  intros Hno.
  unfold install_pyenv_macos, bind at 1, print at 1. cbv beta iota.
  unfold bind at 1.
  destruct (command_exists_pure h "pyenv" (Some env)
              (emit (Print (ln "Detected macOS.")) w)) as [present ->].
  destruct present; [repeat split|].
  unfold bind at 1, print at 1. cbv beta iota. unfold bind at 1.
  declined Hno; repeat split; assumption.
Qed.

Lemma install_pyenv_ubuntu_like_declined (h : host) (env : loc) (is_wsl : bool)
    (w : world) :
  no_consent (Some true) w ->
  system_untouched w (snd (install_pyenv_ubuntu_like h env is_wsl w)).
Proof.
  intros Hno.
  unfold install_pyenv_ubuntu_like, bind at 1.
  destruct (command_exists_pure h "pyenv" (Some env) w) as [present ->].
  destruct present.
  - unfold bind at 1, print at 1. cbv beta iota.
    apply (ensure_pyenv_in_env_system h (Some env)
             (emit (Print "pyenv already appears to be installed.") w)).
  - unfold bind at 1, print at 1. cbv beta iota. unfold bind at 1.
    declined Hno; split; assumption.
Qed.

(** Neither installer touches the system when no waiting line is a yes
    (an empty line is one, the default being yes): whether the question
    is answered with no, never understood, interrupted or cut off by the
    end of input, no process is started and no file is written or
    created.  The macOS installer then leaves the dict objects alone as
    well. *)
Theorem no_install_without_consent (h : host) (env : loc) (w : world) :
  no_consent (Some true) w ->
  terminal_only w (snd (install_pyenv_macos h env w))
  /\ (forall is_wsl,
        system_untouched w (snd (install_pyenv_ubuntu_like h env is_wsl w))).
Proof.
  intros Hno. split; [|intros is_wsl].
  - now apply install_pyenv_macos_declined.
  - now apply install_pyenv_ubuntu_like_declined.
Qed.

Lemma no_install_without_consent_witness :
  terminal_only (world_with [Line "nope"; Line "n"] ∅)
    (snd (install_pyenv_macos linux_host 1%nat (world_with [Line "nope"; Line "n"] ∅))).
Proof.
  refine (proj1 (no_install_without_consent linux_host 1%nat
                   (world_with [Line "nope"; Line "n"] ∅) _)).
  unfold no_consent.
  apply List.Forall_cons; [vm_compute; discriminate|].
  apply List.Forall_cons; [vm_compute; discriminate | apply List.Forall_nil].
Defined.

Theorem global_version_needs_yes (h : host) (version : string) (env : loc) (w : world) :
  (no_consent (Some false) w ->
   terminal_only w (snd (maybe_set_global_version h version env w)))
  /\ (forall raw rest,
        w_in w = Line raw :: rest ->
        recognised (Some false) raw = Some true ->
        w_procs (snd (maybe_set_global_version h version env w))
        = w_procs w ++ [Invocation (Argv ["pyenv"; "global"; version])
                          (Some (dict_of env w)) None false]).
Proof.
  split.
  - intros Hno. unfold maybe_set_global_version, bind at 1.
    declined Hno; repeat split; assumption.
  - intros raw rest Hin Hyes. unfold maybe_set_global_version, bind at 1.
    rewrite ask_yes_no_unfold, (ask_round_recognised _ _ raw w rest Hin), Hyes.
    unfold try_except, bind, run_cmd, print, print_exc, ret.
    cbn [fst snd].
    destruct (h_exec h _ _) as [[status out|e] fs']; cbn [fst snd andb].
    + destruct (status =? 0); cbn [negb]; reflexivity.
    + destruct (is_CalledProcessError e); reflexivity.
Qed.

Lemma global_version_needs_yes_witness :
  terminal_only (world_with [Line ""] ∅)
    (snd (maybe_set_global_version linux_host "3.12.1" 1%nat (world_with [Line ""] ∅)))
  /\ w_procs (snd (maybe_set_global_version linux_host "3.12.1" 1%nat
                     (world_with [Line "Yes"] ∅)))
     = [] ++ [Invocation (Argv ["pyenv"; "global"; "3.12.1"]) (Some ∅) None false].
Proof.
  split.
  - refine (proj1 (global_version_needs_yes linux_host "3.12.1" 1%nat
                     (world_with [Line ""] ∅)) _).
    unfold no_consent.
    apply List.Forall_cons; [vm_compute; discriminate | apply List.Forall_nil].
  - refine (proj2 (global_version_needs_yes linux_host "3.12.1" 1%nat
                     (world_with [Line "Yes"] ∅)) "Yes" [] _ _).
    + reflexivity.
    + vm_compute. reflexivity.
Defined.

(** ** The startup file is only ever extended *)

(** Whatever is at the startup file's path, the call touches no other
    path, and a text file there keeps its permissions and its old
    contents as a prefix of the new ones.  Dict objects, the process log
    and the waiting input are as before.  A failure to read or to write
    is swallowed: the call returns, unless the file is readable and not
    UTF-8, which ends it with [UnicodeDecodeError]. *)
Theorem append_to_shell_rc_conservative (h : host) (snippet : string) (w : world) :
  let rc := rc_path h w in
  let r := append_to_shell_rc_if_missing h snippet w in
  (forall p, p <> rc -> w_fs (snd r) !! p = w_fs w !! p)
  /\ (forall rd wr c,
        w_fs w !! rc = Some (File rd wr (Utf8 c)) ->
        exists more, w_fs (snd r) !! rc = Some (File rd wr (Utf8 (c +:+ more))))
  /\ w_heap (snd r) = w_heap w
  /\ w_procs (snd r) = w_procs w
  /\ w_in (snd r) = w_in w
  /\ (fst r = Return tt
      \/ (fst r = Raise UnicodeDecodeError
          /\ exists wr, w_fs w !! rc = Some (File true wr NotUtf8)))
  /\ (forall wr, w_fs w !! rc = Some (File true wr NotUtf8) ->
      fst r = Raise UnicodeDecodeError).
Proof.
  intros rc r. subst r.
  unfold append_to_shell_rc_if_missing, bind. rewrite shell_rc_value. fold rc.
  unfold try_except, bind, is_file, read_text, append_text, print, print_exc, ret.
  destruct (w_fs w !! rc) as [[dw|[] [] [c|]]|] eqn:Hrc; simpl;
    rewrite ?Hrc; simpl;
    try destruct (str_in "pyenv init" (universal_newlines c)); simpl;
    rewrite ?Hrc; simpl;
    try destruct (may_create_in (w_fs w) (path_parent rc)); simpl.
  all: split; [intros p Hp; try reflexivity; now rewrite lookup_insert_ne by congruence|].
  all: split; [intros rd' wr' c' Hc'|].
  all: try discriminate Hc'.
  all: try (injection Hc' as <- <- <-).
  all: try (exists ""; rewrite app_empty_r; first [reflexivity | exact Hrc]).
  all: try (eexists; apply lookup_insert_eq).
  all: repeat (split; [reflexivity|]).
  all: split; [|intros wr' Hwr'; first [discriminate Hwr' | reflexivity]].
  all: first [left; reflexivity | right; split; [reflexivity | eexists; reflexivity]].
Qed.

Lemma append_to_shell_rc_conservative_witness :
  exists more,
    w_fs (snd (append_to_shell_rc_if_missing linux_host pyenv_init_snippet
                 (world_with [] {[ "/home/u/.bashrc" := text_file "alias l=ls" ]})))
      !! "/home/u/.bashrc"
    = Some (File true true (Utf8 ("alias l=ls" +:+ more))).
Proof.
  refine (proj1 (proj2 (append_to_shell_rc_conservative linux_host pyenv_init_snippet
            (world_with [] {[ "/home/u/.bashrc" := text_file "alias l=ls" ]})))
          true true "alias l=ls" _).
  vm_compute. reflexivity.
Defined.

(** ** Listing the versions *)

(** The run of the listing, by the result of the child process. *)
Lemma list_available_versions_run (h : host) (env : loc) (w : world) :
  list_available_versions h env w =
    let res := h_exec h (listing_call env w) (w_fs w) in
    let w1 := log_proc (listing_call env w)
                (set_fs (snd res) (emit (Print retrieving_text) w)) in
    match fst res with
    | Exited status out =>
        if status =? 0 then
          (Return (parse_versions out),
           if bool_decide (parse_versions out = [])
           then emit (Print "No CPython versions found in pyenv output.") w1
           else w1)
        else
          (Return [],
           emit (PrintExc "Failed to list versions from pyenv: " CalledProcessError) w1)
    | Faulted e =>
        if is_CalledProcessError e
        then (Return [], emit (PrintExc "Failed to list versions from pyenv: " e) w1)
        else (Raise e, w1)
    end.
Proof.
  unfold list_available_versions, listing_call, retrieving_text, bind at 1, print at 1.
  cbv beta iota zeta. unfold try_except, run_cmd.
  cbn [fst snd fmap option_fmap option_map].
  change (dict_of env (emit _ w)) with (dict_of env w).
  change (w_fs (emit _ w)) with (w_fs w).
  destruct (h_exec h _ (w_fs w)) as [[status out|e] fs']; cbn [fst snd andb].
  - destruct (status =? 0); cbn [negb]; cbv beta iota; [|reflexivity].
    unfold bind. cbn [run_value].
    destruct (bool_decide (parse_versions out = [])); reflexivity.
  - destruct (is_CalledProcessError e); reflexivity.
Qed.

(** The listing starts exactly one process, [pyenv install --list] with
    the dict as environment and its output captured, and fails soft: a
    non-zero exit status gives the empty list, like an output without a
    version in it; a zero status gives the versions of the output.  The
    dict objects and the waiting input are as before. *)
Theorem list_available_versions_outcome (h : host) (env : loc) (w : world) :
  let r := list_available_versions h env w in
  let res := h_exec h (listing_call env w) (w_fs w) in
  w_procs (snd r) = w_procs w ++ [listing_call env w]
  /\ w_fs (snd r) = snd res
  /\ w_heap (snd r) = w_heap w
  /\ w_in (snd r) = w_in w
  /\ fst r = match fst res with
             | Exited status out =>
                 Return (if status =? 0 then parse_versions out else [])
             | Faulted e => if is_CalledProcessError e then Return [] else Raise e
             end.
Proof.
  intros r res. subst r res. rewrite list_available_versions_run. cbv zeta.
  destruct (h_exec h _ (w_fs w)) as [[status out|e] fs']; cbn [fst snd].
  - destruct (status =? 0); [|repeat split].
    destruct (bool_decide (parse_versions out = [])); repeat split.
  - destruct (is_CalledProcessError e); repeat split.
Qed.

(** ** The picker's loop: failures, quitting, asking again *)

Lemma digits_not_quit (s : string) :
  isdigit s = true -> one_of (lower s) ["q"; "quit"; "exit"] = false.
Proof.
  intros H. unfold isdigit in H. apply andb_true_iff in H as [Hne Hall].
  destruct (decode s) as [|c l] eqn:Hd.
  - destruct s as [|b s]; [discriminate Hne|].
    destruct (chunks_head b s) as (cp & bytes & rest & Hc & _).
    unfold decode in Hd. rewrite Hc in Hd. discriminate Hd.
  - cbn [forallb] in Hall. apply andb_true_iff in Hall as [Hc _].
    exact (digit_head_not_quit s c l Hd Hc).
Qed.

Lemma ask_yes_no_raises (p : string) (d : option bool) :
  raises_only terminal_failure (ask_yes_no p d).
Proof. unfold ask_yes_no, ask_round. raises. Qed.

Lemma prompt_round_raises (versions latest : list string) :
  raises_only prompt_failure (prompt_round versions latest).
Proof.
  unfold prompt_round.
  apply raises_only_bind;
    [apply input_raises; left; [left|right]; reflexivity | intros raw].
  cbv zeta.
  destruct (is_empty _); [apply raises_only_ret|].
  destruct (one_of _ _); [apply raises_only_ret|].
  destruct (isdigit _).
  - destruct (int_of_digits _) as [n|];
      [|apply raises_only_raise; right; reflexivity].
    destruct (_ && _) eqn:Hb.
    + destruct (latest !! _) eqn:Hl; [apply raises_only_ret|].
      exfalso. apply lookup_ge_None in Hl.
      apply andb_true_iff in Hb as [H1 H2].
      apply Z.leb_le in H1. apply Z.ltb_lt in H2. lia.
    + apply raises_only_bind; [apply print_raises | intros _; apply raises_only_ret].
  - destruct (is_version _).
    + destruct (negb _); [|apply raises_only_ret].
      apply raises_only_bind.
      * eapply raises_only_weaken; [apply ask_yes_no_raises | intros e He; now left].
      * intros []; apply raises_only_ret.
    + apply raises_only_bind; [apply print_raises | intros _; apply raises_only_ret].
Qed.

(** The picker's loop ends in no exception but end of input, an
    interrupt or [ValueError]; in particular a number is never used as an
    index outside the list.  [ValueError] does happen: a line of digits
    that [int] cannot read, such as a superscript two, ends the loop with
    it. *)
Theorem prompt_loop_failures (versions latest : list string) :
  raises_only prompt_failure (while_true (prompt_round versions latest))
  /\ (forall w raw rest,
        w_in w = Line raw :: rest ->
        isdigit (strip raw) = true ->
        int_of_digits (strip raw) = None ->
        fst (while_true (prompt_round versions latest) w) = Raise ValueError)
  /\ isdigit (strip superscript_two) = true
  /\ int_of_digits (strip superscript_two) = None.
Proof.
  split; [|split; [|split; vm_compute; reflexivity]].
  - apply raises_only_while_true; [left; left; reflexivity|].
    apply prompt_round_raises.
  - intros w raw rest Hin Hd Hi. rewrite prompt_loop_unfold.
    unfold prompt_round, bind at 1, input. rewrite Hin. cbv beta iota zeta.
    rewrite (digits_not_quit _ Hd), Hd, Hi.
    destruct (is_empty (strip raw)) eqn:He; [|reflexivity].
    unfold isdigit in Hd. now rewrite He in Hd.
Qed.

Lemma prompt_loop_failures_witness :
  fst (while_true (prompt_round ["3.12.1"] ["3.12.1"])
         (world_with [Line superscript_two] ∅)) = Raise ValueError.
Proof.
  refine (proj1 (proj2 (prompt_loop_failures ["3.12.1"] ["3.12.1"]))
            (world_with [Line superscript_two] ∅) superscript_two [] _ _ _).
  - reflexivity.
  - vm_compute. reflexivity.
  - vm_compute. reflexivity.
Defined.

(** In the picker's loop a blank line is passed over in silence, a line
    that is neither a number, a version nor a quit word is answered with
    the hint, and the loop asks again in both cases; [q], [quit] and
    [exit], in any letter case and with blanks around, end the loop with
    no selection and read nothing further. *)
Theorem prompt_loop_quit_and_retry (versions latest : list string)
    (w : world) (raw : string) (rest : list tty_event) :
  w_in w = Line raw :: rest ->
  let loop := while_true (prompt_round versions latest) in
  let asked := after_line choice_prompt rest w in
  (is_empty (strip raw) = true -> loop w = loop asked)
  /\ (one_of (lower (strip raw)) ["q"; "quit"; "exit"] = true ->
      loop w = (Return None, asked))
  /\ (is_empty (strip raw) = false ->
      one_of (lower (strip raw)) ["q"; "quit"; "exit"] = false ->
      isdigit (strip raw) = false ->
      is_version (strip raw) = false ->
      loop w = loop (emit (Print invalid_choice_text) asked)).
Proof.
  intros Hin loop asked. subst loop asked.
  repeat split.
  - intros He. rewrite prompt_loop_unfold at 1.
    unfold prompt_round, bind at 1, input. rewrite Hin. cbv beta iota zeta.
    now rewrite He.
  - intros Hq. rewrite prompt_loop_unfold at 1.
    unfold prompt_round, bind at 1, input. rewrite Hin. cbv beta iota zeta.
    rewrite Hq.
    destruct (strip raw); [vm_compute in Hq; discriminate Hq | reflexivity].
  - intros He Hq Hd Hv. rewrite prompt_loop_unfold at 1.
    unfold prompt_round, bind at 1, input. rewrite Hin. cbv beta iota zeta.
    now rewrite He, Hq, Hd, Hv.
Qed.

Lemma prompt_loop_quit_and_retry_witness :
  while_true (prompt_round ["3.12.1"] ["3.12.1"]) (world_with [Line "  QUIT "; Line "1"] ∅)
  = (Return None, after_line choice_prompt [Line "1"]
                    (world_with [Line "  QUIT "; Line "1"] ∅)).
Proof.
  refine (proj1 (proj2 (prompt_loop_quit_and_retry ["3.12.1"] ["3.12.1"]
            (world_with [Line "  QUIT "; Line "1"] ∅) "  QUIT " [Line "1"] _)) _).
  - reflexivity.
  - vm_compute. reflexivity.
Defined.

(** ** Installing a version that is not there yet *)

(** When the version is absent from the listing of installed versions (a
    query that exits with a non-zero status lists nothing), the query is
    followed by exactly one more process, [pyenv install <version>], run
    on the files the query left.  The result is [True] when it exits with
    status 0 and [False] when it exits with any other status. *)
Theorem ensure_version_installed_installs
    (h : host) (version : string) (env : loc) (w : world) (s : gset string) :
  let query := versions_bare_call env w in
  let q := h_exec h query (w_fs w) in
  let install := install_call version env w in
  let i := h_exec h install (snd q) in
  let r := ensure_version_installed h version env w in
  installed_set (fst q) = Some s ->
  version ∉ s ->
  w_procs (snd r) = w_procs w ++ [query; install]
  /\ w_fs (snd r) = snd i
  /\ fst r = match fst i with
             | Exited status _ => Return (status =? 0)
             | Faulted e => if is_CalledProcessError e then Return false else Raise e
             end.
Proof.
  intros query q install i r. subst query q install i r.
  unfold ensure_version_installed, bind, try_except, print, print_exc, ret, run_cmd,
    versions_bare_call, install_call, installed_set, dict_of.
  cbn -[bare_listing "=?"].
  destruct (h_exec h _ (w_fs w)) as [[status out|e] fs1];
    cbn -[bare_listing "=?"];
    [ destruct (status =? 0) eqn:Hst | destruct (is_CalledProcessError e) eqn:He ];
    cbn -[bare_listing "=?"]; intros [= <-] Hs;
    rewrite ?bare_listing_empty in *;
    try (rewrite bool_decide_eq_false_2 by exact Hs);
    cbn -[bare_listing "=?"];
    (destruct (h_exec h _ fs1) as [[st o|e2] f2]; cbn -[bare_listing "=?"];
     [destruct (st =? 0) | destruct (is_CalledProcessError e2)];
     cbn -[bare_listing "=?"];
     rewrite <- ?app_assoc; repeat split).
Qed.

Lemma ensure_version_installed_installs_witness :
  fst (ensure_version_installed linux_host "3.12.1" 1%nat (world_with [] ∅)) = Return true.
Proof.
  refine (proj2 (proj2 (ensure_version_installed_installs linux_host "3.12.1" 1%nat
                          (world_with [] ∅) ∅ _ _))).
  - reflexivity.
  - apply not_elem_of_empty.
Defined.

(** ** The demo project: stopping early *)

(** A regular file on the way makes [mkdir_chain] fail, whatever the
    directories before it allow. *)
Lemma mkdir_chain_blocked (chain : list string) (parent : string) (fs : files) :
  existsb (fun q => is_regular (fs !! q)) chain = true ->
  mkdir_chain parent chain fs = None.
Proof.
  revert parent fs. induction chain as [|q rest IH]; intros parent fs; [discriminate|].
  cbn [existsb mkdir_chain]. intros H.
  destruct (fs !! q) as [[dw|rd wr d]|] eqn:Hq; cbn [is_regular orb] in H.
  - now apply IH.
  - reflexivity.
  - destruct (may_create_in fs parent); [|reflexivity].
    apply IH. apply existsb_exists in H as (q' & Hin & Hreg).
    apply existsb_exists. exists q'. split; [exact Hin|].
    rewrite lookup_insert_ne; [exact Hreg|].
    intros <-. rewrite Hq in Hreg. discriminate Hreg.
Qed.

(** The demo starts with the probe [pyenv virtualenv --help].  When the
    probe exits with a non-zero status, the call returns after that one
    process and creates no directory.  When the probe succeeds and a
    regular file is in the way of the demo directory, the call ends with
    [OSError], again after that one process and with no directory
    created. *)
Theorem create_demo_virtualenv_stops_early
    (h : host) (version : string) (env : loc) (w : world) :
  let p := h_exec h (probe_call env w) (w_fs w) in
  let r := create_demo_virtualenv h version env w in
  (forall status out,
     fst p = Exited status out -> status <> 0 ->
     fst r = Return tt
     /\ w_procs (snd r) = w_procs w ++ [probe_call env w]
     /\ w_fs (snd r) = snd p)
  /\ (forall out,
        fst p = Exited 0 out ->
        file_in_the_way (snd p) (demo_dir_of h) = true ->
        fst r = Raise OSError
        /\ w_procs (snd r) = w_procs w ++ [probe_call env w]
        /\ w_fs (snd r) = snd p).
Proof.
  intros p r. subst p.
  assert (Hr : r = create_demo_virtualenv h version env w) by reflexivity.
  clearbody r.
  unfold create_demo_virtualenv, bind at 1, print at 1 in Hr.
  cbv beta iota in Hr. unfold bind at 1, try_except at 1, run_cmd at 1 in Hr.
  cbn [fst snd fmap option_fmap option_map] in Hr.
  change (dict_of env (emit _ w)) with (dict_of env w) in Hr.
  change (w_fs (emit _ w)) with (w_fs w) in Hr.
  unfold probe_call, demo_dir_of, file_in_the_way.
  destruct (h_exec h _ (w_fs w)) as [[status out|e] fs1]; cbn [fst snd andb] in *.
  - split.
    + intros st o [= <- <-] Hst. apply Z.eqb_neq in Hst. rewrite Hst in Hr.
      cbn [negb is_CalledProcessError] in Hr. cbv beta iota in Hr.
      unfold bind, print, ret in Hr. cbn [fst snd negb] in Hr.
      subst r. repeat split.
    + intros o [= -> <-] Hfile. cbn [Z.eqb negb] in Hr. cbv beta iota in Hr.
      unfold ret at 1 in Hr. cbn [negb] in Hr. cbv beta iota in Hr.
      unfold bind at 1, mkdir_p in Hr.
      cbn [w_fs log_proc set_fs] in Hr.
      rewrite (mkdir_chain_blocked _ _ _ Hfile) in Hr.
      subst r. repeat split.
  - split; [intros st o [=] | intros o [=]].
Qed.

Lemma create_demo_virtualenv_stops_early_witness :
  fst (create_demo_virtualenv linux_host "3.12.1" 1%nat
         (world_with [] {[ "/home/u/pyenv_virtualenv_demo" := text_file "" ]}))
  = Raise OSError.
Proof.
  refine (proj1 (proj2 (create_demo_virtualenv_stops_early linux_host "3.12.1" 1%nat
            (world_with [] {[ "/home/u/pyenv_virtualenv_demo" := text_file "" ]}))
            "" _ _)).
  - reflexivity.
  - vm_compute. reflexivity.
Defined.

(** ** A run in which every question is declined *)

Lemma system_untouched_trans (a b c : world) :
  system_untouched a b -> system_untouched b c -> system_untouched a c.
Proof. intros [H1 H2] [H3 H4]. split; congruence. Qed.

Lemma system_untouched_emit (a b : world) (e : out_event) :
  system_untouched a b -> system_untouched a (emit e b).
Proof. intros [H1 H2]. split; assumption. Qed.

Lemma terminal_only_system (a b : world) :
  terminal_only a b -> system_untouched a b.
Proof. intros (H1 & _ & H2). split; assumption. Qed.

Lemma command_exists_absent (h : host) (env : option loc) (w : world) :
  (forall path fs, h_which h "pyenv" path fs = false) ->
  command_exists h "pyenv" env w = (Return false, w).
Proof. intros H. unfold command_exists. now rewrite H. Qed.

Lemma detect_environment_windows (h : host) (w : world) :
  fst (detect_environment h w) = Return "windows" ->
  lower (h_system h) = "windows".
Proof.
  unfold detect_environment, detect_wsl, try_except, bind, read_text, is_file, ret.
  destruct (lower (h_system h) =? "darwin")%string; [discriminate|].
  destruct (lower (h_system h) =? "windows")%string eqn:Hw;
    [intros _; now apply String.eqb_eq|].
  destruct (lower (h_system h) =? "linux")%string; [|discriminate].
  repeat first
    [ progress simpl
    | match goal with
      | |- context [w_fs w !! ?p] => destruct (w_fs w !! p) as [[|[] ? [?|]]|]
      end
    | match goal with
      | |- context [if ?c then _ else _] => destruct c
      end ];
    discriminate.
Qed.

(** Banner, detection and the copy of the environment: no file, no
    process, no line read; the class is the one detection returns. *)
Lemma startup_declined (h : host) (w : world) :
  system_untouched w (snd (startup h w))
  /\ w_in (snd (startup h w)) = w_in w
  /\ (forall raw_env, fst (startup h w) = Return ("windows", raw_env) ->
      lower (h_system h) = "windows").
Proof.
  unfold startup, print_banner, bind, print, environ_copy, ret. cbn [fst snd].
  set (w0 := emit _ (emit _ (emit _ (emit _ w)))).
  pose proof (detect_environment_reads_only h w0) as Hlook.
  pose proof (detect_environment_windows h w0) as Hwin.
  destruct (detect_environment h w0) as [[name|e] w1]; cbn [fst snd] in *; subst w1.
  - repeat split. intros raw_env [= -> _]. now apply Hwin.
  - repeat split. intros raw_env [=].
Qed.

(** The installation flow when pyenv is not found and no waiting line is
    a yes. *)
Lemma ensure_pyenv_and_virtualenv_declined (h : host) (env_name : string)
    (env : loc) (w : world) :
  (forall path fs, h_which h "pyenv" path fs = false) ->
  no_consent (Some true) w ->
  system_untouched w (snd (ensure_pyenv_and_virtualenv h env_name env w)).
Proof.
  intros Habsent Hno.
  unfold ensure_pyenv_and_virtualenv, bind at 1.
  match goal with
  | |- context [(if String.eqb env_name "macos" then ?a else ?b) w] =>
      assert (Hfirst : system_untouched w
                         (snd ((if String.eqb env_name "macos" then a else b) w)))
  end.
  { destruct (String.eqb env_name "macos").
    - apply terminal_only_system. now apply install_pyenv_macos_declined.
    - destruct (one_of env_name ["ubuntu"; "wsl_ubuntu"]).
      + now apply install_pyenv_ubuntu_like_declined.
      + unfold bind, print, ret. cbn [snd]. split; reflexivity. }
  match type of Hfirst with
  | system_untouched _ (snd ?r) => destruct r as [[env1|e] w1]
  end; cbn [fst snd] in Hfirst; [|exact Hfirst].
  unfold bind at 1.
  pose proof (ensure_pyenv_in_env_system h (Some env1) w1) as Hsecond.
  destruct (ensure_pyenv_in_env h (Some env1) w1) as [[env2|e] w2];
    cbn [fst snd] in Hsecond;
    [|now apply (system_untouched_trans w w1 w2)].
  unfold bind at 1. rewrite (command_exists_absent h (Some env2) w2 Habsent).
  cbn [negb]. cbv beta iota. unfold bind, print, ret. cbn [snd].
  apply system_untouched_emit. now apply (system_untouched_trans w w1 w2).
Qed.

Lemma setup_declined (h : host) (env_name : string) (raw_env : loc) (w : world) :
  (forall path fs, h_which h "pyenv" path fs = false) ->
  no_consent (Some true) w ->
  system_untouched w (snd (setup h env_name raw_env w)).
Proof.
  intros Habsent Hno. unfold setup, bind at 1.
  match goal with
  | |- context [(if String.eqb env_name "macos" then ?a else ?b) w] =>
      assert (Hfirst : exists w1,
                 (if String.eqb env_name "macos" then a else b) w = (Return tt, w1)
                 /\ system_untouched w w1 /\ w_in w1 = w_in w)
  end.
  { repeat match goal with
      | |- context [if ?c then _ else _] => destruct c
      end; eexists; (split; [reflexivity|]); repeat split. }
  destruct Hfirst as (w1 & -> & Hsys & Hin).
  eapply system_untouched_trans; [exact Hsys|].
  apply ensure_pyenv_and_virtualenv_declined; [exact Habsent|].
  unfold no_consent. rewrite Hin. exact Hno.
Qed.

Lemma main_declined (h : host) (w : world) :
  (forall path fs, h_which h "pyenv" path fs = false) ->
  no_consent (Some true) w ->
  system_untouched w (snd (main h w))
  /\ (lower (h_system h) <> "windows" -> fst (main h w) <> Return 0).
Proof.
  intros Habsent Hno.
  assert (Hr : exists r, r = main h w) by eauto.
  destruct Hr as [r Hr]. rewrite <- Hr.
  rewrite main_stages in Hr. unfold main_staged, bind at 1 in Hr.
  destruct (startup_declined h w) as (Hsys & Hin & Hwin).
  destruct (startup h w) as [[[env_name raw_env]|e] w1]; cbn [fst snd] in *;
    [|subst r; split; [exact Hsys | intros _; discriminate]].
  destruct (String.eqb env_name "windows") eqn:Hw.
  - apply String.eqb_eq in Hw. subst env_name.
    unfold print_windows_wsl_instructions, bind, print, ret in Hr. subst r.
    cbn [fst snd].
    split; [now apply system_untouched_emit|].
    intros Hnot. contradiction Hnot. now apply (Hwin raw_env).
  - destruct (String.eqb env_name "other").
    + unfold bind, print, ret in Hr. subst r. cbn [fst snd].
      split; [now do 2 apply system_untouched_emit | intros _; discriminate].
    + unfold bind at 1 in Hr.
      assert (Hno1 : no_consent (Some true) w1)
        by (unfold no_consent; rewrite Hin; exact Hno).
      pose proof (setup_declined h env_name raw_env w1 Habsent Hno1) as Hsetup.
      destruct (setup h env_name raw_env w1) as [[env|e] w2]; cbn [fst snd] in *;
        [|subst r; split;
          [now apply (system_untouched_trans w w1 w2) | intros _; discriminate]].
      unfold bind at 1 in Hr.
      rewrite (command_exists_absent h (Some env) w2 Habsent) in Hr.
      cbn [negb] in Hr. cbv beta iota in Hr. unfold ret in Hr. subst r.
      cbn [fst snd].
      split; [now apply (system_untouched_trans w w1 w2) | intros _; discriminate].
Qed.

(** A run on a host without pyenv in which no waiting line is a yes
    starts no process and writes no file, however it ends; and unless
    the host is Windows its exit status is 1. *)
Theorem declined_run_is_harmless (h : host) (w : world) :
  (forall path fs, h_which h "pyenv" path fs = false) ->
  no_consent (Some true) w ->
  system_untouched w (snd (script h w))
  /\ (lower (h_system h) <> "windows" -> fst (script h w) = 1).
Proof.
  intros Habsent Hno.
  destruct (main_declined h w Habsent Hno) as [Hsys Hstatus].
  pose proof (main_status h w) as [_ Hcode].
  unfold script.
  destruct (main h w) as [[status|e] w1]; cbn [fst snd] in *.
  - split; [exact Hsys|]. intros Hnot.
    destruct (Hcode status eq_refl) as [-> | ->];
      [now contradiction (Hstatus Hnot) | reflexivity].
  - destruct e; (split; [first [exact Hsys | now apply system_untouched_emit]
                        | reflexivity]).
Qed.

Lemma declined_run_is_harmless_witness :
  fst (script linux_host (world_with [Line "n"] ubuntu_files)) = 1.
Proof.
  refine (proj2 (declined_run_is_harmless linux_host
                   (world_with [Line "n"] ubuntu_files) _ _) _).
  - reflexivity.
  - unfold no_consent.
    apply List.Forall_cons; [vm_compute; discriminate | apply List.Forall_nil].
  - vm_compute. discriminate.
Defined.

(** ** What the script itself writes *)

#[local] Instance writes_confined_preorder (h : host) : PreOrder (writes_confined h).
Proof.
  split.
  - intros w p _. reflexivity.
  - intros a b c Hab Hbc p Hp. now rewrite (Hbc p Hp), (Hab p Hp).
Qed.

Lemma fs_kept {A} (h : host) (m : M A) :
  (forall w, w_fs (snd (m w)) = w_fs w) -> keeps (writes_confined h) m any.
Proof.
  intros H w. split; [|intros; exact I].
  intros p _. now rewrite H.
Qed.

Ltac fs_kept :=
  apply fs_kept; intros w; cbv beta zeta delta
    [print print_exc input is_file is_dir read_text dict_get dict_item dict_set
     environ_copy command_exists];
  repeat match goal with
    | |- context [match ?x with _ => _ end] => destruct x
    end; reflexivity.

Lemma mkdir_chain_lookup (chain : list string) (parent : string) (fs fs' : files)
    (p : string) :
  mkdir_chain parent chain fs = Some fs' -> p ∉ chain -> fs' !! p = fs !! p.
Proof.
  revert parent fs. induction chain as [|q rest IH]; intros parent fs H Hp.
  - now injection H as <-.
  - apply not_elem_of_cons in Hp as [Hq Hp]. cbn [mkdir_chain] in H.
    destruct (fs !! q) as [[dw|rd wr d]|]; [now apply (IH q) | discriminate H |].
    destruct (may_create_in fs parent); [|discriminate H].
    rewrite (IH q _ H Hp). now apply lookup_insert_ne.
Qed.

Section Confined.

Variable h : host.
Hypothesis processes_inert : inert h.

Lemma print_confined s : keeps (writes_confined h) (print s) any.
Proof. fs_kept. Qed.
Lemma print_exc_confined s e : keeps (writes_confined h) (print_exc s e) any.
Proof. fs_kept. Qed.
Lemma input_confined s : keeps (writes_confined h) (input s) any.
Proof. fs_kept. Qed.
Lemma is_file_confined p : keeps (writes_confined h) (is_file p) any.
Proof. fs_kept. Qed.
Lemma is_dir_confined p : keeps (writes_confined h) (is_dir p) any.
Proof. fs_kept. Qed.
Lemma read_text_confined p : keeps (writes_confined h) (read_text p) any.
Proof. fs_kept. Qed.
Lemma dict_get_confined l k : keeps (writes_confined h) (dict_get l k) any.
Proof. fs_kept. Qed.
Lemma dict_item_confined l k : keeps (writes_confined h) (dict_item l k) any.
Proof. fs_kept. Qed.
Lemma dict_set_confined l k v : keeps (writes_confined h) (dict_set l k v) any.
Proof. fs_kept. Qed.
Lemma environ_copy_confined : keeps (writes_confined h) environ_copy any.
Proof. fs_kept. Qed.
Lemma command_exists_confined n e : keeps (writes_confined h) (command_exists h n e) any.
Proof. fs_kept. Qed.

Lemma run_cmd_confined c chk cap e cwd :
  keeps (writes_confined h) (run_cmd h c chk cap e cwd) any.
Proof using processes_inert.
  apply fs_kept. intros w. unfold run_cmd.
  pose proof (processes_inert
                (Invocation c ((fun l => dict_of l w) <$> e) cwd cap) (w_fs w)) as Hfs.
  destruct (h_exec h _ (w_fs w)) as [[status out|x] fs']; cbn [fst snd] in *;
    [destruct (chk && negb (status =? 0))|]; exact Hfs.
Qed.

Lemma mkdir_p_confined p :
  (forall q, q ∈ path_parents p ++ [p] -> q ∈ own_paths h) ->
  keeps (writes_confined h) (mkdir_p p) any.
Proof.
  intros Hsub w. split; [|intros; exact I].
  intros q Hq. unfold mkdir_p.
  destruct (mkdir_chain _ _ _) as [fs'|] eqn:Hm; [|reflexivity]. cbn [snd set_fs w_fs].
  apply (mkdir_chain_lookup _ _ _ _ _ Hm). intros Hin. apply Hq. now apply Hsub.
Qed.

Lemma mkdir_p_plugins_confined :
  keeps (writes_confined h)
    (mkdir_p (path_join (path_join (h_home h) ".pyenv") "plugins")) any.
Proof.
  apply mkdir_p_confined. intros q Hq. unfold own_paths.
  apply elem_of_app. right. apply elem_of_app. now left.
Qed.

Lemma mkdir_p_demo_confined :
  keeps (writes_confined h)
    (mkdir_p (path_join (h_home h) "pyenv_virtualenv_demo")) any.
Proof.
  apply mkdir_p_confined. intros q Hq. unfold own_paths.
  apply elem_of_app. right. apply elem_of_app. now right.
Qed.

Lemma rc_path_own (w : world) : rc_path h w ∈ own_paths h.
Proof.
  unfold rc_path, own_paths. destruct (endswith "zsh" _).
  - apply elem_of_app. left. apply elem_of_cons. now left.
  - apply elem_of_app. left. apply elem_of_cons. right. apply elem_of_cons. now left.
Qed.

Lemma append_to_shell_rc_if_missing_confined s :
  keeps (writes_confined h) (append_to_shell_rc_if_missing h s) any.
Proof.
  intros w. split; [|intros; exact I].
  intros p Hp.
  assert (Hne : p <> rc_path h w) by (intros ->; apply Hp, rc_path_own).
  destruct (append_to_shell_rc_effect h s w) as [_ Hfs]. cbv zeta in Hfs.
  rewrite Hfs.
  destruct (w_fs w !! rc_path h w) as [[dw|[] [] [c|]]|];
    try destruct (may_create_in _ _);
    try reflexivity; try (now rewrite lookup_insert_ne by congruence).
  destruct (str_in init_marker c); [reflexivity|].
  now rewrite lookup_insert_ne by congruence.
Qed.

#[local] Hint Resolve print_confined print_exc_confined input_confined is_file_confined
  is_dir_confined read_text_confined dict_get_confined dict_item_confined
  dict_set_confined environ_copy_confined command_exists_confined run_cmd_confined
  mkdir_p_plugins_confined mkdir_p_demo_confined
  append_to_shell_rc_if_missing_confined : frame.

Lemma print_all_confined ls : keeps (writes_confined h) (print_all ls) any.
Proof. induction ls as [|l ls IH]; simpl; frame. Qed.

Lemma ask_yes_no_confined p d : keeps (writes_confined h) (ask_yes_no p d) any.
Proof. unfold ask_yes_no, ask_round. frame. Qed.

Lemma ensure_pyenv_in_env_confined env :
  keeps (writes_confined h) (ensure_pyenv_in_env h env) any.
Proof. unfold ensure_pyenv_in_env. frame. Qed.

#[local] Hint Resolve print_all_confined ask_yes_no_confined
  ensure_pyenv_in_env_confined : frame.

Lemma install_pyenv_macos_confined env :
  keeps (writes_confined h) (install_pyenv_macos h env) any.
Proof. unfold install_pyenv_macos. frame. Qed.

Lemma install_pyenv_ubuntu_like_confined env is_wsl :
  keeps (writes_confined h) (install_pyenv_ubuntu_like h env is_wsl) any.
Proof. unfold install_pyenv_ubuntu_like. frame. Qed.

#[local] Hint Resolve install_pyenv_macos_confined install_pyenv_ubuntu_like_confined
  : frame.

Lemma ensure_pyenv_and_virtualenv_confined env_name env :
  keeps (writes_confined h) (ensure_pyenv_and_virtualenv h env_name env) any.
Proof. unfold ensure_pyenv_and_virtualenv. frame. Qed.

Lemma list_available_versions_confined env :
  keeps (writes_confined h) (list_available_versions h env) any.
Proof. unfold list_available_versions. frame. Qed.

#[local] Hint Resolve ensure_pyenv_and_virtualenv_confined
  list_available_versions_confined : frame.

Lemma prompt_round_confined versions latest :
  keeps (writes_confined h) (prompt_round versions latest) any.
Proof. unfold prompt_round. frame. Qed.
#[local] Hint Resolve prompt_round_confined : frame.

Lemma prompt_for_version_confined env :
  keeps (writes_confined h) (prompt_for_version h env) any.
Proof.
  unfold prompt_for_version. frame.
  eapply keeps_weaken; [apply prompt_round_confined | frame_post].
Qed.

Lemma ensure_version_installed_confined version env :
  keeps (writes_confined h) (ensure_version_installed h version env) any.
Proof. unfold ensure_version_installed. frame. Qed.

Lemma maybe_set_global_version_confined version env :
  keeps (writes_confined h) (maybe_set_global_version h version env) any.
Proof. unfold maybe_set_global_version. frame. Qed.

Lemma create_demo_virtualenv_confined version env :
  keeps (writes_confined h) (create_demo_virtualenv h version env) any.
Proof. unfold create_demo_virtualenv. frame. Qed.

Lemma detect_environment_confined : keeps (writes_confined h) (detect_environment h) any.
Proof. unfold detect_environment, detect_wsl. frame. Qed.

Lemma print_banner_confined : keeps (writes_confined h) print_banner any.
Proof. unfold print_banner. frame. Qed.

#[local] Hint Resolve prompt_for_version_confined ensure_version_installed_confined
  maybe_set_global_version_confined create_demo_virtualenv_confined
  detect_environment_confined print_banner_confined : frame.

Lemma main_confined : keeps (writes_confined h) (main h) any.
Proof. unfold main, print_windows_wsl_instructions. frame. Qed.

End Confined.

(** On a host whose child processes leave the files alone, whatever a
    run of the script changes in the file system is at one of its own
    paths: the startup file of bash or zsh, the plugin directory of
    pyenv, the demo directory, or an ancestor of these directories.  The
    same holds for the installers and for the demo on their own. *)
Theorem own_writes_confined (h : host) (w : world) :
  inert h ->
  writes_confined h w (snd (script h w))
  /\ (forall env is_wsl,
        writes_confined h w (snd (install_pyenv_ubuntu_like h env is_wsl w)))
  /\ (forall version env,
        writes_confined h w (snd (create_demo_virtualenv h version env w))).
Proof.
  intros Hinert. split; [|split].
  - pose proof (main_confined h Hinert w) as [Hmain _].
    unfold script. destruct (main h w) as [[status|e] w1]; cbn [snd] in *;
      [exact Hmain|].
    destruct e; exact Hmain.
  - intros env is_wsl. apply (install_pyenv_ubuntu_like_confined h Hinert env is_wsl w).
  - intros version env. apply (create_demo_virtualenv_confined h Hinert version env w).
Qed.

Lemma own_writes_confined_witness :
  writes_confined linux_host (world_with [Line "n"] ubuntu_files)
    (snd (script linux_host (world_with [Line "n"] ubuntu_files))).
Proof.
  refine (proj1 (own_writes_confined linux_host (world_with [Line "n"] ubuntu_files) _)).
  intros inv fs. reflexivity.
Defined.

(** ** A host that has pyenv already *)

(** When [pyenv] is found on the dict's [PATH], neither installer asks a
    question, starts a process or writes a file, and what they return
    is the dict they were given.  The macOS installer changes no dict
    object; the Ubuntu one passes the dict through
    [ensure_pyenv_in_env]. *)
Theorem installed_pyenv_is_left_alone (h : host) (env : loc) (w : world) :
  fst (command_exists h "pyenv" (Some env) w) = Return true ->
  (let r := install_pyenv_macos h env w in
   fst r = Return env /\ terminal_only w (snd r) /\ w_in (snd r) = w_in w)
  /\ (forall is_wsl,
        let r := install_pyenv_ubuntu_like h env is_wsl w in
        (forall a, fst r = Return a -> a = env)
        /\ system_untouched w (snd r) /\ w_in (snd r) = w_in w
        /\ snd r = snd (ensure_pyenv_in_env h (Some env)
                          (emit (Print "pyenv already appears to be installed.") w))).
Proof.
  intros Hpresent. split; [|intros is_wsl].
  - assert (Hr : exists r, r = install_pyenv_macos h env w) by eauto.
    destruct Hr as [r Hr]. cbv zeta. rewrite <- Hr.
    unfold install_pyenv_macos, bind at 1, print at 1 in Hr. cbv beta iota in Hr.
    unfold bind at 1 in Hr.
    assert (Hc : command_exists h "pyenv" (Some env)
                   (emit (Print (ln "Detected macOS.")) w)
                 = (Return true, emit (Print (ln "Detected macOS.")) w)).
    { unfold command_exists in *. cbn [fst] in Hpresent. now f_equal. }
    rewrite Hc in Hr. cbv beta iota in Hr. unfold bind, print, ret in Hr.
    subst r. repeat split.
  - assert (Hr : exists r, r = install_pyenv_ubuntu_like h env is_wsl w) by eauto.
    destruct Hr as [r Hr]. cbv zeta. rewrite <- Hr.
    unfold install_pyenv_ubuntu_like, bind at 1 in Hr.
    assert (Hc : command_exists h "pyenv" (Some env) w = (Return true, w)).
    { unfold command_exists in *. cbn [fst] in Hpresent. now f_equal. }
    rewrite Hc in Hr. cbv beta iota in Hr. unfold bind at 1, print at 1 in Hr.
    cbv beta iota in Hr.
    set (w0 := emit (Print "pyenv already appears to be installed.") w) in *.
    destruct (ensure_pyenv_in_env_frame h env w0) as [_ Hret].
    pose proof (ensure_pyenv_in_env_system h (Some env) w0) as Hsys.
    assert (Hin : w_in (snd (ensure_pyenv_in_env h (Some env) w0)) = w_in w0).
    { unfold ensure_pyenv_in_env, bind, ret, dict_get, is_dir, dict_item, dict_set.
      repeat first
        [ progress simpl
        | match goal with
          | |- context [match ?x with Some _ => _ | None => _ end] => destruct x
          | |- context [if ?c then _ else _] => destruct c
          end ];
        reflexivity. }
    subst r. repeat split; try assumption; try apply Hsys.
Qed.

Lemma installed_pyenv_is_left_alone_witness :
  fst (install_pyenv_macos pyenv_host 1%nat (world_with [] ∅)) = Return 1%nat.
Proof.
  refine (proj1 (proj1 (installed_pyenv_is_left_alone pyenv_host 1%nat
                          (world_with [] ∅) _))).
  reflexivity.
Defined.
